(** * The profiler's marshalling and harvest lifecycle

    Shallow embedding of the two profiler implementations of the agent:

    - [Inspector]: [lib/profiler/index.js], which drives the V8 inspector
      session and marshals its CPU and heap-sampling profiles into custom
      events;
    - [Pprof]: the pprof based implementation, which records the samples of a
      pprof profile through one reused attribute object, or writes encoded
      profiles to rotating local files.

    Conventions of the embedding.

    - JavaScript numbers that hold counters, identifiers, sizes and times are
      integers; they are modelled as [Z], which is exact as long as the values
      stay inside the safe integer range.  The one place where the source can
      leave the integers, [Math.floor(sum / count)], is modelled by
      [Js.floor_div], whose result is a [Js.number] with [NaN] and the two
      infinities.
    - JavaScript strings are modelled as Rocq strings; a character stands for
      the code point of the same number (U+0000 to U+00FF).
    - Objects used as dictionaries are finite maps from property names to
      values ([gmap string _]); property names are ordinary data property
      names.
    - The engines, the file system, the clock and the event API are external
      collaborators: what they answer is an input of the model, what is sent
      to them is recorded in a trace. *)

From Stdlib Require Import ZArith String Ascii List Lia.
From stdpp Require Import base tactics option list numbers strings pretty gmap fin_maps.

Local Open Scope Z_scope.

(** ** JavaScript values *)

Module Js.

(** A number as the marshalling code can produce it: an integer, or the result
    of a division by zero. *)
Inductive number :=
| Num (z : Z)
| NaN
| Infinity (negative : bool).

(** [Math.floor(a / b)] on integer operands. *)
Definition floor_div (a b : Z) : number :=
  if b =? 0 then
    if a =? 0 then NaN else Infinity (a <? 0)
  else Num (a / b).

(** [x * k] for an integer constant [k > 0]. *)
Definition scale (x : number) (k : Z) : number :=
  match x with
  | Num z => Num (z * k)
  | NaN => NaN
  | Infinity s => Infinity s
  end.

(** The values stored in an event. *)
Inductive value :=
| VNum (n : number)
| VStr (s : string).

Definition VInt (z : Z) : value := VNum (Num z).

(** Truthiness of the result of a property read ([None] is [undefined]). *)
Definition truthy (v : option value) : bool :=
  match v with
  | None => false
  | Some (VNum (Num z)) => negb (z =? 0)
  | Some (VNum NaN) => false
  | Some (VNum (Infinity _)) => true
  | Some (VStr s) => negb (String.eqb s "")
  end.

(** An event (a record of attributes). *)
Abbreviation Event := (gmap string value).

(** The key [`location.${i}`]. *)
Definition location_key (i : nat) : string := "location." +:+ pretty i.

(** [`${x}`] for a string that may be [undefined]. *)
Definition template (x : option string) : string := default "undefined" x.

(** [String.prototype.toLowerCase] on the code points below U+0100: the
    capital letters [A] to [Z] and U+00C0 to U+00DE (but for the
    multiplication sign U+00D7) are moved to the small letters 32 places
    up; every other character is its own lower case. *)
Definition lower_char (c : ascii) : ascii :=
  let n := N_of_ascii c in
  if ((65 <=? n) && (n <=? 90) || (192 <=? n) && (n <=? 214)
      || (216 <=? n) && (n <=? 222))%N
  then ascii_of_N (n + 32) else c.

Fixpoint toLowerCase (s : string) : string :=
  match s with
  | "" => ""
  | String c rest => String (lower_char c) (toLowerCase rest)
  end.

End Js.

Export Js.

(** ** The inspector based profiler ([lib/profiler/index.js]) *)

Module Inspector.

Definition PROFILING_TYPE_CPU : Z := 1.
Definition PROFILING_TYPE_HEAP : Z := 2.

Record CallFrame := mkCallFrame {
  functionName : string;
  lineNumber : Z
}.

(** [_locationFromCallFrame] *)
Definition _locationFromCallFrame (callFrame : CallFrame) : string :=
  let name :=
    if String.eqb (functionName callFrame) "" then "(unknown)"
    else functionName callFrame in
  name +:+ ":" +:+ pretty (lineNumber callFrame).

(** *** Walking parent links

    [_addLocation] and [_calculateInclusiveSize] run the same loop,
    [for (let node = nodeMap[id]; node; node = node.parent)], over the node
    map of a CPU profile and over the node map of a heap profile.  A
    [NodeGraph] says how a node map of type [G] with nodes of type [N]
    answers [nodeMap[id]] and [node.parent].  The loop does not end when the
    parent links run into a cycle; [walk_fuel] is a number of iterations
    within which every walk that ends has ended. *)
Class NodeGraph (G N : Type) := {
  node_at : G -> Z -> option N;
  node_parent : G -> N -> option N;
  node_callFrame : N -> CallFrame;
  walk_fuel : G -> Z -> nat
}.

Section ParentWalk.
Context {G N : Type} `{NodeGraph G N}.

(** The nodes visited by the loop from [node]; [None] when [fuel] iterations
    do not reach a node without parent. *)
Fixpoint parent_walk (fuel : nat) (nodeMap : G) (node : option N)
  : option (list N) :=
  match node with
  | None => Some []
  | Some n =>
      match fuel with
      | O => None
      | S fuel' => (n ::.) <$> parent_walk fuel' nodeMap (node_parent nodeMap n)
      end
  end.

(** The walk itself, as a relation: [parent_chain nodeMap node l] when the
    parent links from [node] reach a node without parent, visiting [l]. *)
Inductive parent_chain (nodeMap : G) : option N -> list N -> Prop :=
| chain_root : parent_chain nodeMap None []
| chain_step n l :
    parent_chain nodeMap (node_parent nodeMap n) l ->
    parent_chain nodeMap (Some n) (n :: l).

(** The location strings of a walk, in the order the walk visits them. *)
Definition walk_locations (l : list N) : list string :=
  (λ n, _locationFromCallFrame (node_callFrame n)) <$> l.

(** The second loop of [_addLocation]:
    [for (i = 0, j = location.length - 1; i < location.length; i++, j--)
       event[`location.${i}`] = location[j]]. *)
Fixpoint write_locations (location : list string) (i j : nat)
  (steps : nat) (event : Event) : Event :=
  match steps with
  | O => event
  | S steps' =>
      let event' :=
        match location !! j with
        | Some l => <[location_key i := VStr l]> event
        | None => event
        end in
      write_locations location (S i) (pred j) steps' event'
  end.

(** [_addLocation]; [None] when the walk to the root does not end. *)
Definition _addLocation (event : Event) (sampleId : Z) (nodeMap : G)
  : option Event :=
  nodes ← parent_walk (walk_fuel nodeMap sampleId) nodeMap
            (node_at nodeMap sampleId);
  let location := (λ n, _locationFromCallFrame (node_callFrame n)) <$> nodes in
  Some (write_locations location 0 (pred (length location))
          (length location) event).

End ParentWalk.

(** *** CPU profiles *)

Record Node := mkNode {
  id : Z;
  callFrame : CallFrame;
  children : option (list Z);
  parent : option Z
}.

Definition set_parent (p : option Z) (n : Node) : Node :=
  {| id := id n; callFrame := callFrame n; children := children n;
     parent := p |}.

Record Profile := mkProfile {
  nodes : list Node;
  samples : list Z;
  startTime : Z;
  endTime : Z;
  timeDeltas : list Z
}.

(** The node map of a CPU profile holds each node under its id; a parent
    link is the id under which the parent object is held. *)
Global Instance cpu_graph : NodeGraph (gmap Z Node) Node := {|
  node_at nodeMap i := nodeMap !! i;
  node_parent nodeMap n := p ← parent n; nodeMap !! p;
  node_callFrame := callFrame;
  walk_fuel nodeMap _ := S (size nodeMap)
|}.

(** First pass of [_marshalCpuProfileToEvents]:
    [node.parent = null; nodeMap[id] = node]. *)
Definition index_nodes (nodes : list Node) : gmap Z Node :=
  foldl (λ nodeMap node, <[id node := set_parent None node]> nodeMap) ∅ nodes.

(** The inner loop of the second pass: [childNode.parent = n] for every
    child id that the map knows. *)
Definition link_children (n : Z) (children : list Z) (nodeMap : gmap Z Node)
  : gmap Z Node :=
  foldl (λ nodeMap child,
           match nodeMap !! child with
           | Some childNode => <[child := set_parent (Some n) childNode]> nodeMap
           | None => nodeMap
           end) nodeMap children.

(** Second pass. *)
Definition link_nodes (nodes : list Node) (nodeMap : gmap Z Node)
  : gmap Z Node :=
  foldl (λ nodeMap node,
           match nodeMap !! id node with
           | Some n =>
               match children n with
               | None => nodeMap
               | Some cs => link_children (id node) cs nodeMap
               end
           | None => nodeMap
           end) nodeMap nodes.

(** The event literal of the CPU marshaller, before the locations.  The
    products are those of [Z]; the source computes them on JavaScript
    numbers, which gives the same for integers in the safe range. *)
Definition cpu_event (harvestSeq : Z) (profile : Profile) (i : nat)
  (delta : number) : Event :=
  <["harvest_seq" := VInt harvestSeq]>
  (<["sample_seq" := VInt (Z.of_nat i)]>
  (<["sample_period_cpu_nanoseconds" := VNum (scale delta 1000)]>
  (<["duration_ns" := VInt ((endTime profile - startTime profile) * 1000)]>
  (<["time_ns" := VInt (startTime profile * 1000)]>
  (<["cpu_nanoseconds" := VNum (scale delta 1000)]>
  (<["samples_count" := VInt (Z.of_nat (length (samples profile)))]> ∅)))))).

(** The delta of sample [i], with the running [count] and [sum]. *)
Definition cpu_delta (timeDeltas : list Z) (i : nat) (count sum : Z)
  : number * Z * Z :=
  if Z.of_nat i <? Z.of_nat (length timeDeltas) - 1 then
    let delta := default 0 (timeDeltas !! (i + 1)%nat) in
    (Num delta, count + 1, sum + delta)
  else (floor_div sum count, count, sum).

(** The sample loop of [_marshalCpuProfileToEvents], from sample [i] on. *)
Fixpoint cpu_sample_loop (harvestSeq : Z) (profile : Profile)
  (nodeMap : gmap Z Node) (rest : list Z) (i : nat) (count sum : Z)
  : option (list Event) :=
  match rest with
  | [] => Some []
  | sample :: rest' =>
      let '(delta, count', sum') := cpu_delta (timeDeltas profile) i count sum in
      event ← _addLocation (cpu_event harvestSeq profile i delta) sample nodeMap;
      events ← cpu_sample_loop harvestSeq profile nodeMap rest' (S i) count' sum';
      Some (event :: events)
  end.

Definition cpu_node_map (profile : Profile) : gmap Z Node :=
  link_nodes (nodes profile) (index_nodes (nodes profile)).

(** [_marshalCpuProfileToEvents]; [None] when the walk of some sample does
    not end. *)
Definition _marshalCpuProfileToEvents (harvestSeq : Z) (profile : Profile)
  : option (list Event) :=
  cpu_sample_loop harvestSeq profile (cpu_node_map profile)
    (samples profile) 0 0 0.

(** *** Heap sampling profiles *)

Module Heap.

#[local] Unset Elimination Schemes.

(** A node of the allocation tree: the children are nested objects. *)
Inductive Node := mkNode {
  id : Z;
  selfSize : Z;
  callFrame : CallFrame;
  children : list Node
}.

(** A node object once [_buildHeapNodeMap] has set its [parent] property:
    the node together with the (linked) object of its parent.  The head of
    the tree has no parent. *)
Inductive Linked := mkLinked {
  node : Node;
  parent : option Linked
}.

#[local] Set Elimination Schemes.

(** A sample names the node it was taken at. *)
Record Sample := mkSample {
  nodeId : Z
}.

Record SamplingProfile := mkSamplingProfile {
  head : Node;
  samples : list Sample
}.

(** The number of objects on the way from [l] to the head. *)
Fixpoint depth (l : Linked) : nat :=
  match l with
  | mkLinked _ None => 1
  | mkLinked _ (Some p) => S (depth p)
  end.

End Heap.

(** The node map of a heap profile holds the linked objects; the parent link
    of an object is the object of the parent itself. *)
Global Instance heap_graph : NodeGraph (gmap Z Heap.Linked) Heap.Linked := {|
  node_at nodeMap i := nodeMap !! i;
  node_parent _ l := Heap.parent l;
  node_callFrame l := Heap.callFrame (Heap.node l);
  walk_fuel nodeMap i := from_option Heap.depth 0%nat (nodeMap !! i)
|}.

(** [_buildHeapNodeMap(parent, nodeMap, childIndex)], where the object
    [parent] is the node [self] with its own parent link [selfParent]; the
    inner loop is the recursion over the siblings from [childIndex] on. *)
Fixpoint _buildHeapNodeMap (self : Heap.Node) (selfParent : option Heap.Linked)
  (nodeMap : gmap Z Heap.Linked) : gmap Z Heap.Linked :=
  match self with
  | Heap.mkNode _ _ _ children =>
      let parent := Heap.mkLinked self selfParent in
      (fix siblings (children : list Heap.Node) (nodeMap : gmap Z Heap.Linked) :=
         match children with
         | [] => nodeMap
         | child :: rest =>
             let linked := Heap.mkLinked child (Some parent) in
             siblings rest
               (_buildHeapNodeMap child (Some parent)
                  (<[Heap.id child := linked]> nodeMap))
         end) children nodeMap
  end.

(** The node map of [_marshalHeapSamplingProfileToEvents]:
    [nodeMap[head.id] = head], then the recursive build. *)
Definition heap_node_map (head : Heap.Node) : gmap Z Heap.Linked :=
  _buildHeapNodeMap head None (<[Heap.id head := Heap.mkLinked head None]> ∅).

(** [_calculateInclusiveSize]; [size += node.selfSize] over the walk. *)
Definition _calculateInclusiveSize (nodeId : Z) (nodeMap : gmap Z Heap.Linked)
  : option Z :=
  nodes ← parent_walk (walk_fuel nodeMap nodeId) nodeMap (node_at nodeMap nodeId);
  Some (foldl (λ size node, size + Heap.selfSize (Heap.node node)) 0 nodes).

(** The event literal of the heap marshaller, before the locations;
    [endTime] is the reading of [Date.now()]. *)
Definition heap_event (harvestSeq heapSampleStartTime : Z)
  (profile : Heap.SamplingProfile) (i : nat) (size endTime : Z) : Event :=
  <["harvest_seq" := VInt harvestSeq]>
  (<["sample_seq" := VInt (Z.of_nat i)]>
  (<["sample_period_inuse_space_bytes" := VInt size]>
  (<["duration_ns" := VInt ((endTime - heapSampleStartTime) * 1000)]>
  (<["time_ns" := VInt (heapSampleStartTime * 1000)]>
  (<["inuse_space_bytes" := VInt size]>
  (<["samples_count" := VInt (Z.of_nat (length (Heap.samples profile)))]> ∅)))))).

(** The sample loop of [_marshalHeapSamplingProfileToEvents], from sample
    [i] on; [now i] is what [Date.now()] answers for sample [i]. *)
Fixpoint heap_sample_loop (harvestSeq heapSampleStartTime : Z)
  (profile : Heap.SamplingProfile) (now : nat -> Z)
  (nodeMap : gmap Z Heap.Linked) (rest : list Heap.Sample) (i : nat)
  : option (list Event) :=
  match rest with
  | [] => Some []
  | sample :: rest' =>
      size ← _calculateInclusiveSize (Heap.nodeId sample) nodeMap;
      event ← _addLocation
                (heap_event harvestSeq heapSampleStartTime profile i size (now i))
                (Heap.nodeId sample) nodeMap;
      events ← heap_sample_loop harvestSeq heapSampleStartTime profile now
                 nodeMap rest' (S i);
      Some (event :: events)
  end.

(** [_marshalHeapSamplingProfileToEvents] *)
Definition _marshalHeapSamplingProfileToEvents (harvestSeq heapSampleStartTime : Z)
  (profile : Heap.SamplingProfile) (now : nat -> Z) : option (list Event) :=
  heap_sample_loop harvestSeq heapSampleStartTime profile now
    (heap_node_map (Heap.head profile)) (Heap.samples profile) 0.

(** *** The lifecycle: start, stop and the scheduled harvests

    The profiler object, the two engines behind the inspector session and
    the trace of what the profiler does make up the world.  A command
    posted to the session is answered by the engine with an error or not,
    as the environment says; the callbacks of the source are run in the
    order in which the session calls them. *)

Inductive Method :=
| Profiler_setSamplingInterval
| Profiler_enable
| Profiler_start
| Profiler_stop
| Profiler_disable
| HeapProfiler_enable
| HeapProfiler_startSampling
| HeapProfiler_stopSampling
| HeapProfiler_disable
| HeapProfiler_getSamplingProfile.

Global Instance Method_eq_dec : EqDecision Method.
Proof. solve_decision. Defined.

Record Profiler := mkProfiler {
  harvestSeq : Z;
  selectedProfiles : Z;
  cpuReportInterval : Z;
  cpuSampleRateMicros : Z;
  heapReportInterval : Z;
  heapSampleIntervalBytes : Z;
  heapSampleStackDepth : Z;
  heapSampleStartTime : Z;
  cpuTimer : bool;
  heapTimer : bool
}.

Definition set_harvestSeq (x : Z) (p : Profiler) : Profiler :=
  mkProfiler x (selectedProfiles p) (cpuReportInterval p)
    (cpuSampleRateMicros p) (heapReportInterval p) (heapSampleIntervalBytes p)
    (heapSampleStackDepth p) (heapSampleStartTime p) (cpuTimer p) (heapTimer p).

Definition set_heapSampleStartTime (x : Z) (p : Profiler) : Profiler :=
  mkProfiler (harvestSeq p) (selectedProfiles p) (cpuReportInterval p)
    (cpuSampleRateMicros p) (heapReportInterval p) (heapSampleIntervalBytes p)
    (heapSampleStackDepth p) x (cpuTimer p) (heapTimer p).

Definition set_cpuTimer (x : bool) (p : Profiler) : Profiler :=
  mkProfiler (harvestSeq p) (selectedProfiles p) (cpuReportInterval p)
    (cpuSampleRateMicros p) (heapReportInterval p) (heapSampleIntervalBytes p)
    (heapSampleStackDepth p) (heapSampleStartTime p) x (heapTimer p).

Definition set_heapTimer (x : bool) (p : Profiler) : Profiler :=
  mkProfiler (harvestSeq p) (selectedProfiles p) (cpuReportInterval p)
    (cpuSampleRateMicros p) (heapReportInterval p) (heapSampleIntervalBytes p)
    (heapSampleStackDepth p) (heapSampleStartTime p) (cpuTimer p) x.

(** The engines, as they report themselves. *)
Record Engines := mkEngines { cpu_running : bool; heap_running : bool }.

(** What the profiler does: the session commands with the engine's answer,
    the calls of the callback given to [start] or [stop] (with the state of
    the engines at the moment of the call), the timers, the events, the
    log, and a [TypeError] that nothing catches. *)
Inductive Effect :=
| Connect
| Disconnect
| Post (method : Method) (failed : bool)
| Callback (err : bool) (engines : Engines)
| SetInterval (engine : Z) (interval : Z)
| ClearInterval (engine : Z)
| RecordCustomEvent (eventType : string) (attributes : Event)
| LogError
| UncaughtTypeError.

Record World := mkWorld {
  profiler : Profiler;
  engines : Engines;
  trace : list Effect
}.

Definition did (e : Effect) (w : World) : World :=
  mkWorld (profiler w) (engines w) (trace w ++ [e]).

Definition update (f : Profiler -> Profiler) (w : World) : World :=
  mkWorld (f (profiler w)) (engines w) (trace w).

(** The engine obeys the commands it accepts. *)
Definition obey (method : Method) (e : Engines) : Engines :=
  match method with
  | Profiler_start => mkEngines true (heap_running e)
  | Profiler_stop => mkEngines false (heap_running e)
  | HeapProfiler_startSampling => mkEngines (cpu_running e) true
  | HeapProfiler_stopSampling => mkEngines (cpu_running e) false
  | _ => e
  end.

(** [session.post(method, ..., callback)]: the error that the callback
    receives, and the world after the command. *)
Definition post (fails : Method -> bool) (method : Method) (w : World)
  : bool * World :=
  if fails method then (true, did (Post method true) w)
  else
    (false,
     mkWorld (profiler w) (obey method (engines w))
       (trace w ++ [Post method false])).

(** [x & flag], read as a condition. *)
Definition selected (x flag : Z) : bool := negb (Z.land x flag =? 0).

(** [_maybeStartCpuProfiler]; the result is the error given to its
    callback. *)
Definition _maybeStartCpuProfiler (fails : Method -> bool) (w : World)
  : bool * World :=
  if negb (selected (selectedProfiles (profiler w)) PROFILING_TYPE_CPU)
  then (false, w)
  else
    let '(err, w) := post fails Profiler_setSamplingInterval w in
    if err then (true, did LogError w)
    else
      let '(err, w) := post fails Profiler_enable w in
      if err then (true, did LogError w)
      else
        let '(err, w) := post fails Profiler_start w in
        if err then (true, did LogError w) else (false, w).

(** [_maybeStopCpuProfiler] *)
Definition _maybeStopCpuProfiler (fails : Method -> bool) (w : World)
  : bool * World :=
  if negb (selected (selectedProfiles (profiler w)) PROFILING_TYPE_CPU)
  then (false, w)
  else
    let '(err, w) := post fails Profiler_stop w in
    if err then (true, did LogError w)
    else
      let '(err, w) := post fails Profiler_disable w in
      if err then (true, did LogError w) else (false, w).

(** [_maybeStartHeapProfiler]; [now] is the reading of [Date.now()]. *)
Definition _maybeStartHeapProfiler (fails : Method -> bool) (now : Z)
  (w : World) : bool * World :=
  if negb (selected (selectedProfiles (profiler w)) PROFILING_TYPE_HEAP)
  then (false, w)
  else
    let '(err, w) := post fails HeapProfiler_enable w in
    if err then (true, did LogError w)
    else
      let '(err, w) := post fails HeapProfiler_startSampling w in
      if err then (true, did LogError w)
      else (false, update (set_heapSampleStartTime now) w).

(** [_maybeStopHeapProfiler] *)
Definition _maybeStopHeapProfiler (fails : Method -> bool) (w : World)
  : bool * World :=
  if negb (selected (selectedProfiles (profiler w)) PROFILING_TYPE_HEAP)
  then (false, w)
  else
    let '(err, w) := post fails HeapProfiler_stopSampling w in
    if err then (true, did LogError w)
    else
      let '(err, w) := post fails HeapProfiler_disable w in
      if err then (true, did LogError w) else (false, w).

(** [_scheduleHarvests] *)
Definition _scheduleHarvests (w : World) : World :=
  let p := profiler w in
  let w :=
    if selected (selectedProfiles p) PROFILING_TYPE_CPU
    then update (set_cpuTimer true)
           (did (SetInterval PROFILING_TYPE_CPU (cpuReportInterval p)) w)
    else w in
  if selected (selectedProfiles p) PROFILING_TYPE_HEAP
  then update (set_heapTimer true)
         (did (SetInterval PROFILING_TYPE_HEAP (heapReportInterval p)) w)
  else w.

(** Calling [callback]: a call of the function that was given, or a
    [TypeError] when none was. *)
Definition invoke (callback : bool) (err : bool) (w : World) : World :=
  if callback then did (Callback err (engines w)) w
  else did UncaughtTypeError w.

(** [Profiler.prototype.stop]; [callback] says whether the caller gave
    one. *)
Definition stop (fails : Method -> bool) (callback : bool) (w : World)
  : World :=
  let '(err, w) := _maybeStopCpuProfiler fails w in
  let w := if err then did LogError w else w in
  let w := update (set_cpuTimer false) (did (ClearInterval PROFILING_TYPE_CPU) w) in
  let '(err, w) := _maybeStopHeapProfiler fails w in
  let w := if err then did LogError w else w in
  let w := update (set_heapTimer false) (did (ClearInterval PROFILING_TYPE_HEAP) w) in
  let w := did Disconnect w in
  invoke callback false w.

(** [Profiler.prototype.start]; the caller gives a callback. *)
Definition start (fails : Method -> bool) (now : Z) (w : World) : World :=
  if selectedProfiles (profiler w) =? 0 then w
  else
    let w := did Connect w in
    let '(err, w) := _maybeStartCpuProfiler fails w in
    if err then invoke true true w
    else
      let '(err, w) := _maybeStartHeapProfiler fails now w in
      if err then stop fails false (invoke true true w)
      else invoke true false (_scheduleHarvests w).

(** What the collaborators answer during one harvest: the profile that the
    engine hands out ([None]: the command fails), whether the CPU engine
    starts again, and the readings of the clock. *)
Record HarvestEnv := mkHarvestEnv {
  cpu_profile : option Profile;
  restart_fails : bool;
  heap_profile : option Heap.SamplingProfile;
  clock : nat -> Z;
  clock_after : Z
}.

Definition record_events (eventType : string) (events : list Event)
  (w : World) : World :=
  foldl (λ w event, did (RecordCustomEvent eventType event) w) w events.

(** [_collectCpuSamples]; [None] when the marshaller does not return.  When
    the command fails the session calls the callback with the error alone,
    and the callback throws a [TypeError] where it takes [profile] out of its
    missing second argument, before it logs anything. *)
Definition _collectCpuSamples (env : HarvestEnv) (w : World) : option World :=
  match cpu_profile env with
  | None => Some (did UncaughtTypeError (did (Post Profiler_stop true) w))
  | Some profile =>
      let w := snd (post (λ _, false) Profiler_stop w) in
      events ← _marshalCpuProfileToEvents (harvestSeq (profiler w)) profile;
      let w := record_events "ProfileCPU" events w in
      let '(err, w) := post (λ _, restart_fails env) Profiler_start w in
      if err then Some (did LogError w)
      else Some (update (λ p, set_harvestSeq (harvestSeq p + 1) p) w)
  end.

(** [_collectHeapSamples] *)
Definition _collectHeapSamples (env : HarvestEnv) (w : World) : option World :=
  match heap_profile env with
  | None =>
      Some (did LogError (did (Post HeapProfiler_getSamplingProfile true) w))
  | Some profile =>
      let w := snd (post (λ _, false) HeapProfiler_getSamplingProfile w) in
      events ← _marshalHeapSamplingProfileToEvents (harvestSeq (profiler w))
                 (heapSampleStartTime (profiler w)) profile (clock env);
      let w := record_events "ProfileHeap" events w in
      Some (update (λ p, set_heapSampleStartTime (clock_after env)
                           (set_harvestSeq (harvestSeq p + 1) p)) w)
  end.

(** *** The configuration and the constructor *)

(** [_parseProfilingTypes]; [types] is [config.profiling.types], [None]
    when the configuration has none. *)
Definition _parseProfilingTypes (types : option (list string)) : Z :=
  match types with
  | None => 0
  | Some types =>
      foldl (λ profilingType type,
               let lower := toLowerCase type in
               if String.eqb lower "cpu"
               then Z.lor profilingType PROFILING_TYPE_CPU
               else if String.eqb lower "heap"
               then Z.lor profilingType PROFILING_TYPE_HEAP
               else profilingType) 0 types
  end.

(** The part of [agent.config.profiling] that the constructor reads. *)
Module Config.
Record t := mk {
  types : option (list string);
  cpu_report_interval : Z;
  cpu_sample_rate_micros : Z;
  heap_report_interval : Z;
  heap_sample_interval_bytes : Z;
  heap_sample_stack_depth : Z
}.
End Config.

(** [new Profiler(api)]; [api] is [None] when the argument is missing, and
    the constructor then throws (the result is [None]).  No timer is set
    yet. *)
Definition new_Profiler (api : option Config.t) : option Profiler :=
  match api with
  | None => None
  | Some config =>
      Some (mkProfiler 0 (_parseProfilingTypes (Config.types config))
              (Config.cpu_report_interval config)
              (Config.cpu_sample_rate_micros config)
              (Config.heap_report_interval config)
              (Config.heap_sample_interval_bytes config)
              (Config.heap_sample_stack_depth config) 0 false false)
  end.

(** *** Stopping a profiler that has no session

    [start] sets [this.session] once it is past its first test, so a
    profiler whose [start] was never called, or was called with no
    profiling type selected, has no [session] property.  [stop] above is
    the shutdown of a profiler that has one.  Without it, the first read of
    a property of [this.session] throws a [TypeError]:
    [session.post] in [_maybeStopCpuProfiler] when the CPU type is
    selected, [session.post] in [_maybeStopHeapProfiler] when the heap type
    is, and [profiler.session.disconnect()] otherwise. *)
Definition stop_without_session (w : World) : World :=
  if selected (selectedProfiles (profiler w)) PROFILING_TYPE_CPU
  then did UncaughtTypeError w
  else
    let w := update (set_cpuTimer false)
               (did (ClearInterval PROFILING_TYPE_CPU) w) in
    if selected (selectedProfiles (profiler w)) PROFILING_TYPE_HEAP
    then did UncaughtTypeError w
    else
      let w := update (set_heapTimer false)
                 (did (ClearInterval PROFILING_TYPE_HEAP) w) in
      did UncaughtTypeError w.

(** Whether [this.session] is set after a call of [start], given whether
    it was before. *)
Definition session_after_start (session : bool) (w : World) : bool :=
  session || negb (selectedProfiles (profiler w) =? 0).

(** [Profiler.prototype.stop], with or without a session. *)
Definition stop_session (session : bool) (fails : Method -> bool)
  (callback : bool) (w : World) : World :=
  if session then stop fails callback w else stop_without_session w.

End Inspector.

(** ** The pprof based profiler *)

Module Pprof.

Definition PROFILING_TYPE_CPU : Z := 1.
Definition PROFILING_TYPE_HEAP : Z := 2.

Definition DESTINATION_TYPE_NIL : Z := 0.
Definition DESTINATION_TYPE_LOCAL_FILE : Z := 1.
Definition DESTINATION_TYPE_INGEST_OTEL : Z := 2.
Definition DESTINATION_TYPE_INGEST_MELT : Z := 3.

(** *** The pprof profile

    Names are indices into the string table; locations and functions are
    found by their ids. *)

Module ValueType.
Record t := mk { type : nat; unit : nat }.
End ValueType.

Module Line.
Record t := mk { functionId : Z; line : Z }.
End Line.

Module Location.
Record t := mk { id : Z; line : list Line.t }.
End Location.

Module Function.
Record t := mk { id : Z; name : nat }.
End Function.

Module Sample.
Record t := mk { locationId : list Z; value : list Z }.
End Sample.

Record StringTable := mkStringTable { strings : list string }.

Record Profile := mkProfile {
  sample : list Sample.t;
  sampleType : list ValueType.t;
  periodType : option ValueType.t;
  period : Z;
  timeNanos : Z;
  durationNanos : Z;
  location : list Location.t;
  function : list Function.t;
  stringTable : StringTable
}.

(** [_getString]; [None] is [undefined]. *)
Definition _getString (profile : Profile) (index : nat) : option string :=
  strings (stringTable profile) !! index.

(** [_getLocation]; [None] is [null]. *)
Definition _getLocation (profile : Profile) (locationId : Z)
  : option Location.t :=
  find (λ loc, bool_decide (Location.id loc = locationId)) (location profile).

(** [_locationFromLine] *)
Definition _locationFromLine (profile : Profile) (l : Line.t) : string :=
  let functionName :=
    match find (λ fn, bool_decide (Function.id fn = Line.functionId l))
               (function profile) with
    | Some fn => template (_getString profile (Function.name fn))
    | None => "(unknown)"
    end in
  functionName +:+ ":" +:+ pretty (Line.line l).

(** *** The name of a metric attribute *)

(** The Unicode property [White_Space] on the code points below U+0100. *)
Definition White_Space (c : ascii) : bool :=
  let n := N_of_ascii c in
  ((9 <=? n) && (n <=? 13) || (n =? 32) || (n =? 133) || (n =? 160))%N.

(** The Unicode general category [L] (letters) on the code points below
    U+0100. *)
Definition L (c : ascii) : bool :=
  let n := N_of_ascii c in
  ((65 <=? n) && (n <=? 90) || (97 <=? n) && (n <=? 122)
   || (n =? 170) || (n =? 181) || (n =? 186)
   || (192 <=? n) && (n <=? 214) || (216 <=? n) && (n <=? 246)
   || (248 <=? n) && (n <=? 255))%N.

(** The regular expression [/(\p{White_Space})|(\p{L})|(_)/u] tried at one
    character: the three capture groups of a match, the alternatives being
    tried in order. *)
Definition regex_match (c : ascii)
  : option (option ascii * option ascii * option ascii) :=
  if White_Space c then Some (Some c, None, None)
  else if L c then Some (None, Some c, None)
  else if bool_decide (c = "_"%char) then Some (None, None, Some c)
  else None.

(** The replacement callback [(match, p1, p2, p3) => ...]. *)
Definition replacement (p1 p2 p3 : option ascii) : string :=
  match p1, p2, p3 with
  | Some _, _, _ => "_"
  | None, Some c, _ => String c ""
  | None, None, Some c => String c ""
  | None, None, None => ""
  end.

(** [String.prototype.replace] with this regular expression, which has no
    [g] flag: the first match is replaced, the rest of the string is kept. *)
Fixpoint replace (s : string) : string :=
  match s with
  | "" => ""
  | String c rest =>
      match regex_match c with
      | Some (p1, p2, p3) => replacement p1 p2 p3 +:+ rest
      | None => String c (replace rest)
      end
  end.

(** [_normalizeAttrNameFromSampleValueType] *)
Definition _normalizeAttrNameFromSampleValueType (typeName unitName : string)
  : string :=
  replace (typeName +:+ "_" +:+ unitName).

(** The key of a value type: the normalized name of its type and unit. *)
Definition metric_key (profile : Profile) (sampleType : ValueType.t) : string :=
  _normalizeAttrNameFromSampleValueType
    (template (_getString profile (ValueType.type sampleType)))
    (template (_getString profile (ValueType.unit sampleType))).

(** *** Recording the samples *)

(** [_cleanupKeys]: every key whose mark is not [val] is deleted from
    [attrs] and from [keys]; the result is the flipped mark. *)
Definition _cleanupKeys (attrs : Event) (keys : gmap string Z) (val : Z)
  : Event * gmap string Z * Z :=
  let '(attrs', keys') :=
    map_fold (λ key mark '(attrs, keys'),
                if bool_decide (mark ≠ val)
                then (delete key attrs, delete key keys')
                else (attrs, keys'))
             (attrs, keys) keys in
  (attrs', keys', 1 - val).

(** The state that [_recordSamples] carries from one sample to the next:
    the reused attribute object, the marks [u] of the metric keys, the
    current mark [v] and the depth [prevLoc] of the previous stack. *)
Record State := mkState {
  attrs : Event;
  u : gmap string Z;
  v : Z;
  prevLoc : nat
}.

(** The loop over [sample.value], from index [j] on; [None] when
    [profile.sampleType[j]] is [undefined] and reading its [type] throws. *)
Fixpoint value_loop (profile : Profile) (values : list Z) (j : nat) (v : Z)
  (attrs : Event) (u : gmap string Z) : option (Event * gmap string Z) :=
  match values with
  | [] => Some (attrs, u)
  | x :: values' =>
      sampleType ← sampleType profile !! j;
      let key := metric_key profile sampleType in
      value_loop profile values' (S j) v (<[key := VInt x]> attrs) (<[key := v]> u)
  end.

(** The loop over [sample.locationId], from index [j] on. *)
Fixpoint location_loop (profile : Profile) (locationId : list Z) (j : nat)
  (attrs : Event) : Event :=
  match locationId with
  | [] => attrs
  | locId :: locationId' =>
      let stale :=
        if truthy (attrs !! location_key j)
        then delete (location_key j) attrs else attrs in
      let attrs' :=
        match _getLocation profile locId with
        | Some loc =>
            match Location.line loc with
            | line0 :: _ =>
                <[location_key j := VStr (_locationFromLine profile line0)]> attrs
            | [] => stale
            end
        | None => stale
        end in
      location_loop profile locationId' (S j) attrs'
  end.

(** [for (let j = len; j < prevLoc; j += 1) delete attrs[`location.${j}`]] *)
Definition clear_loop (len prevLoc : nat) (attrs : Event) : Event :=
  foldl (λ attrs j, delete (location_key j) attrs) attrs
        (seq len (prevLoc - len)).

(** The body of the sample loop up to the emission. *)
Definition sample_step (profile : Profile) (i : nat) (sample : Sample.t)
  (st : State) : option State :=
  let attrs1 := <["sample_seq" := VInt (Z.of_nat i)]> (attrs st) in
  '(attrs2, u2) ← value_loop profile (Sample.value sample) 0 (v st) attrs1 (u st);
  let '(attrs3, u3, v3) := _cleanupKeys attrs2 u2 (v st) in
  let len := length (Sample.locationId sample) in
  let attrs4 := location_loop profile (Sample.locationId sample) 0 attrs3 in
  let attrs5 := clear_loop len (prevLoc st) attrs4 in
  Some (mkState attrs5 u3 v3 len).

(** How a call ends. *)
Inductive completion := Returned | Thrown.

(** The sample loop from sample [i] on.  The calls of
    [api.recordCustomEvent(eventType, attrs)] are the result: each holds
    the attributes as the reused object has them at the moment of the
    call. *)
Fixpoint sample_loop (eventType : string) (profile : Profile)
  (destination : Z) (samples : list Sample.t) (i : nat) (st : State)
  : list (string * Event) * completion :=
  match samples with
  | [] => ([], Returned)
  | sample :: samples' =>
      match sample_step profile i sample st with
      | None => ([], Thrown)
      | Some st' =>
          let call :=
            if destination =? DESTINATION_TYPE_INGEST_MELT
            then [(eventType, attrs st')] else [] in
          let '(calls, c) :=
            sample_loop eventType profile destination samples' (S i) st' in
          (call ++ calls, c)
      end
  end.

(** The attribute object before the first sample. *)
Definition initial_attrs (harvestSeq : Z) (profile : Profile)
  (periodType : ValueType.t) : Event :=
  <["harvest_seq" := VInt harvestSeq]>
  (<["time_ns" := VInt (timeNanos profile)]>
  (<["duration_ns" := VInt (durationNanos profile)]>
  (<["sample_period_" +:+ metric_key profile periodType
      := VInt (period profile)]> ∅))).

(** [_recordSamples]: the calls of [api.recordCustomEvent], and whether the
    function returned or threw (reading a property of [undefined]). *)
Definition _recordSamples (eventType : string) (harvestSeq : Z)
  (profile : Profile) (destination : Z) : list (string * Event) * completion :=
  match periodType profile with
  | None => ([], Thrown)
  | Some periodType =>
      sample_loop eventType profile destination (sample profile) 0
        (mkState (initial_attrs harvestSeq profile periodType) ∅ 0 0)
  end.

(** *** The lifecycle: start, stop and the scheduled harvests

    The profiler object, the two engines of the pprof library ([time] and
    [heap]) and the trace of the calls to the collaborators make up the
    world.  What a collaborator answers to a call is given by an
    environment; a call that fails throws. *)

(** A file handle, named by the arguments of [path.join] it was opened
    with. *)
Record File := mkFile { directory : string; name : string }.

Record Profiler := mkProfiler {
  harvestSeq : Z;
  selectedProfiles : Z;
  cpuReportInterval : Z;
  heapReportInterval : Z;
  heapSampleIntervalBytes : Z;
  heapSampleStackDepth : Z;
  destination : Z;
  outputDirectory : string;
  cpuFile : option File;
  heapFile : option File;
  cpuTimer : bool;
  heapTimer : bool
}.

Definition set_harvestSeq (x : Z) (p : Profiler) : Profiler :=
  mkProfiler x (selectedProfiles p) (cpuReportInterval p) (heapReportInterval p)
    (heapSampleIntervalBytes p) (heapSampleStackDepth p) (destination p)
    (outputDirectory p) (cpuFile p) (heapFile p) (cpuTimer p) (heapTimer p).

Definition set_cpuFile (x : option File) (p : Profiler) : Profiler :=
  mkProfiler (harvestSeq p) (selectedProfiles p) (cpuReportInterval p)
    (heapReportInterval p) (heapSampleIntervalBytes p) (heapSampleStackDepth p)
    (destination p) (outputDirectory p) x (heapFile p) (cpuTimer p) (heapTimer p).

Definition set_heapFile (x : option File) (p : Profiler) : Profiler :=
  mkProfiler (harvestSeq p) (selectedProfiles p) (cpuReportInterval p)
    (heapReportInterval p) (heapSampleIntervalBytes p) (heapSampleStackDepth p)
    (destination p) (outputDirectory p) (cpuFile p) x (cpuTimer p) (heapTimer p).

Definition set_cpuTimer (x : bool) (p : Profiler) : Profiler :=
  mkProfiler (harvestSeq p) (selectedProfiles p) (cpuReportInterval p)
    (heapReportInterval p) (heapSampleIntervalBytes p) (heapSampleStackDepth p)
    (destination p) (outputDirectory p) (cpuFile p) (heapFile p) x (heapTimer p).

Definition set_heapTimer (x : bool) (p : Profiler) : Profiler :=
  mkProfiler (harvestSeq p) (selectedProfiles p) (cpuReportInterval p)
    (heapReportInterval p) (heapSampleIntervalBytes p) (heapSampleStackDepth p)
    (destination p) (outputDirectory p) (cpuFile p) (heapFile p) (cpuTimer p) x.

(** The engines, as they report themselves. *)
Record Engines := mkEngines { cpu_running : bool; heap_running : bool }.

(** The calls to the collaborators; [Failed call] is a call that threw. *)
Inductive Effect :=
| TimeStart
| TimeStop (restart : bool)
| HeapStart (intervalBytes stackDepth : Z)
| HeapStop
| HeapProfile
| Encode
| Open (file : File)
| Write (file : File)
| Close (file : File)
| RecordCustomEvent (eventType : string) (attributes : Event)
| SetInterval (engine : Z) (interval : Z)
| ClearInterval (engine : Z)
| LogError
| Failed (call : Effect).

Record World := mkWorld {
  profiler : Profiler;
  engines : Engines;
  trace : list Effect
}.

Inductive result (A : Type) :=
| Ok (a : A)
| Throw.
Arguments Ok {A} a.
Arguments Throw {A}.

(** A computation over the world that returns or throws. *)
Definition M (A : Type) : Type := World -> result A * World.

Global Instance M_ret : MRet M := λ A a w, (Ok a, w).
Global Instance M_bind : MBind M := λ A B f m w,
  match m w with
  | (Ok a, w') => f a w'
  | (Throw, w') => (Throw, w')
  end.

Definition throw {A} : M A := λ w, (Throw, w).

(** [try { body } catch (err) { handler }] *)
Definition try_catch (body handler : M ()) : M () := λ w,
  match body w with
  | (Ok a, w') => (Ok a, w')
  | (Throw, w') => handler w'
  end.

Definition this : M Profiler := λ w, (Ok (profiler w), w).

Definition update (f : Profiler -> Profiler) : M () := λ w,
  (Ok (), mkWorld (f (profiler w)) (engines w) (trace w)).

Definition call (e : Effect) : M () := λ w,
  (Ok (), mkWorld (profiler w) (engines w) (trace w ++ [e])).

Definition set_engines (f : Engines -> Engines) : M () := λ w,
  (Ok (), mkWorld (profiler w) (f (engines w)) (trace w)).

(** A call that fails when the environment says so. *)
Definition call_if (ok : bool) (e : Effect) : M () :=
  if ok then call e else call (Failed e) ;; throw.

Definition when (c : bool) (m : M ()) : M () := if c then m else mret ().

(** [x & flag], read as a condition. *)
Definition selected (x flag : Z) : bool := negb (Z.land x flag =? 0).

(** What the collaborators answer during [start] and [stop]. *)
Record LifecycleEnv := mkLifecycleEnv {
  time_start_ok : bool;
  heap_start_ok : bool;
  open_cpu_ok : bool;
  open_heap_ok : bool;
  close_cpu_ok : bool;
  close_heap_ok : bool
}.

(** What the collaborators answer during one harvest: the profile that the
    engine hands out ([None]: the engine throws), and whether encoding,
    writing, closing and opening succeed. *)
Record HarvestEnv := mkHarvestEnv {
  snapshot : option Profile;
  encode_ok : bool;
  write_ok : bool;
  close_ok : bool;
  open_ok : bool
}.

(** [_openLocalFiles] *)
Definition _openLocalFiles (env : LifecycleEnv) : M () :=
  p ← this;
  when (selected (selectedProfiles p) PROFILING_TYPE_CPU)
    (let file := mkFile (outputDirectory p) "cpu.pprof" in
     call_if (open_cpu_ok env) (Open file) ;;
     update (set_cpuFile (Some file))) ;;
  when (selected (selectedProfiles p) PROFILING_TYPE_HEAP)
    (let file := mkFile (outputDirectory p) "heap.pprof" in
     call_if (open_heap_ok env) (Open file) ;;
     update (set_heapFile (Some file))).

(** [this.cpuFile.close()] and the like: reading a method of [undefined]
    throws. *)
Definition close_file (ok : bool) (file : option File) : M () :=
  match file with
  | Some f => call_if ok (Close f)
  | None => throw
  end.

Definition write_file (ok : bool) (file : option File) : M () :=
  match file with
  | Some f => call_if ok (Write f)
  | None => throw
  end.

(** [_closeLocalFiles] *)
Definition _closeLocalFiles (env : LifecycleEnv) : M () :=
  p ← this;
  if negb (destination p =? DESTINATION_TYPE_LOCAL_FILE) then mret ()
  else
    when (selected (selectedProfiles p) PROFILING_TYPE_CPU)
      (close_file (close_cpu_ok env) (cpuFile p)) ;;
    when (selected (selectedProfiles p) PROFILING_TYPE_HEAP)
      (close_file (close_heap_ok env) (heapFile p)).

(** [_scheduleHarvests]: the two timers are set; their callbacks are
    [_harvestCpuSamples] and [_harvestHeapSamples] below. *)
Definition _scheduleHarvests : M () :=
  p ← this;
  when (selected (selectedProfiles p) PROFILING_TYPE_CPU)
    (call (SetInterval PROFILING_TYPE_CPU (cpuReportInterval p)) ;;
     update (set_cpuTimer true)) ;;
  when (selected (selectedProfiles p) PROFILING_TYPE_HEAP)
    (call (SetInterval PROFILING_TYPE_HEAP (heapReportInterval p)) ;;
     update (set_heapTimer true)).

(** [Profiler.prototype.start] *)
Definition start (env : LifecycleEnv) : M () :=
  p ← this;
  if selectedProfiles p =? 0 then mret ()
  else
    when (selected (selectedProfiles p) PROFILING_TYPE_CPU)
      (call_if (time_start_ok env) TimeStart ;;
       set_engines (λ e, mkEngines true (heap_running e))) ;;
    when (selected (selectedProfiles p) PROFILING_TYPE_HEAP)
      (call_if (heap_start_ok env)
         (HeapStart (heapSampleIntervalBytes p) (heapSampleStackDepth p)) ;;
       set_engines (λ e, mkEngines (cpu_running e) true)) ;;
    when (destination p =? DESTINATION_TYPE_LOCAL_FILE) (_openLocalFiles env) ;;
    _scheduleHarvests.

(** [Profiler.prototype.stop].  [time.stop] and [heap.stop] are taken to
    return, as they do on an engine that was started; what [time.stop] does
    on a CPU engine that was never started is not modelled. *)
Definition stop (env : LifecycleEnv) : M () :=
  p ← this;
  when (selected (selectedProfiles p) PROFILING_TYPE_CPU)
    (call (TimeStop false) ;;
     set_engines (λ e, mkEngines false (heap_running e)) ;;
     call (ClearInterval PROFILING_TYPE_CPU) ;;
     update (set_cpuTimer false)) ;;
  when (selected (selectedProfiles p) PROFILING_TYPE_HEAP)
    (call HeapStop ;;
     set_engines (λ e, mkEngines (cpu_running e) false) ;;
     call (ClearInterval PROFILING_TYPE_HEAP) ;;
     update (set_heapTimer false)) ;;
  _closeLocalFiles env.

(** The calls of [api.recordCustomEvent] made by [_recordSamples], then its
    completion. *)
Definition record_samples (eventType : string) (harvestSeq : Z)
  (profile : Profile) (destination : Z) : M () :=
  let '(calls, c) := _recordSamples eventType harvestSeq profile destination in
  foldr (λ '(eventType, attributes) k,
           call (RecordCustomEvent eventType attributes) ;; k)
        (match c with Returned => mret () | Thrown => throw end) calls.

(** [time.stop(true)] and [heap.profile()]: the engine hands out a profile
    or throws. *)
Definition take_snapshot (e : Effect) (env : HarvestEnv) : M Profile :=
  match snapshot env with
  | Some profile => call e ;; mret profile
  | None => call (Failed e) ;; throw
  end.

(** [_collectCpuSamples] *)
Definition _collectCpuSamples (env : HarvestEnv) : M () :=
  p ← this;
  if negb (selected (selectedProfiles p) PROFILING_TYPE_CPU) then mret ()
  else if destination p =? DESTINATION_TYPE_NIL then mret ()
  else
    profile ← take_snapshot (TimeStop true) env;
    if destination p =? DESTINATION_TYPE_LOCAL_FILE then
      (match cpuFile p with Some _ => mret () | None => throw end) ;;
      call_if (encode_ok env) Encode ;;
      write_file (write_ok env) (cpuFile p) ;;
      close_file (close_ok env) (cpuFile p) ;;
      p' ← this;
      let file := mkFile (outputDirectory p')
                    ("cpu.pprof" +:+ pretty (harvestSeq p')) in
      call_if (open_ok env) (Open file) ;;
      update (set_cpuFile (Some file))
    else
      record_samples "ProfileCPU" (harvestSeq p) profile (destination p).

(** [_collectHeapSamples] *)
Definition _collectHeapSamples (env : HarvestEnv) : M () :=
  p ← this;
  if negb (selected (selectedProfiles p) PROFILING_TYPE_HEAP) then mret ()
  else if destination p =? DESTINATION_TYPE_NIL then mret ()
  else
    profile ← take_snapshot HeapProfile env;
    if destination p =? DESTINATION_TYPE_LOCAL_FILE then
      (match heapFile p with Some _ => mret () | None => throw end) ;;
      call_if (encode_ok env) Encode ;;
      write_file (write_ok env) (heapFile p) ;;
      close_file (close_ok env) (heapFile p) ;;
      p' ← this;
      let file := mkFile (outputDirectory p')
                    ("heap.pprof" +:+ pretty (harvestSeq p')) in
      call_if (open_ok env) (Open file) ;;
      update (set_heapFile (Some file))
    else
      record_samples "ProfileHeap" (harvestSeq p) profile (destination p).

(** The callbacks of the two timers of [_scheduleHarvests]. *)
Definition _harvestCpuSamples (env : HarvestEnv) : M () :=
  try_catch
    (_collectCpuSamples env ;;
     update (λ p, set_harvestSeq (harvestSeq p + 1) p))
    (call LogError).

Definition _harvestHeapSamples (env : HarvestEnv) : M () :=
  try_catch
    (_collectHeapSamples env ;;
     update (λ p, set_harvestSeq (harvestSeq p + 1) p))
    (call LogError).

(** *** The configuration, the constructor and the destination *)

(** [_parseProfilingTypes]; [types] is [config.profiling.types], [None]
    when the configuration has none. *)
Definition _parseProfilingTypes (types : option (list string)) : Z :=
  match types with
  | None => 0
  | Some types =>
      foldl (λ profilingType type,
               let lower := toLowerCase type in
               if String.eqb lower "cpu"
               then Z.lor profilingType PROFILING_TYPE_CPU
               else if String.eqb lower "heap"
               then Z.lor profilingType PROFILING_TYPE_HEAP
               else profilingType) 0 types
  end.

(** [_parseDestination]; [destination] is [config.profiling.destination],
    [None] when the configuration has none.  The empty string is falsy
    too.  The warning that the function logs for an unknown name is not
    recorded. *)
Definition _parseDestination (destination : option string) : Z :=
  match destination with
  | None => DESTINATION_TYPE_NIL
  | Some name =>
      if String.eqb name "" then DESTINATION_TYPE_NIL
      else
        let lower := toLowerCase name in
        if String.eqb lower "melt" then DESTINATION_TYPE_INGEST_MELT
        else if String.eqb lower "file" then DESTINATION_TYPE_LOCAL_FILE
        else DESTINATION_TYPE_NIL
  end.

(** The part of [agent.config.profiling] that the constructor reads. *)
Module Config.
Record t := mk {
  types : option (list string);
  cpu_report_interval : Z;
  heap_report_interval : Z;
  heap_sample_interval_bytes : Z;
  heap_sample_stack_depth : Z;
  destination : option string;
  output_directory : string
}.
End Config.

(** [new Profiler(api)]; [api] is [None] when the argument is missing, and
    the constructor then throws (the result is [None]).  No file is open
    and no timer is set yet. *)
Definition new_Profiler (api : option Config.t) : option Profiler :=
  match api with
  | None => None
  | Some config =>
      Some (mkProfiler 0 (_parseProfilingTypes (Config.types config))
              (Config.cpu_report_interval config)
              (Config.heap_report_interval config)
              (Config.heap_sample_interval_bytes config)
              (Config.heap_sample_stack_depth config)
              (_parseDestination (Config.destination config))
              (Config.output_directory config) None None false false)
  end.

Definition set_destination (x : Z) (p : Profiler) : Profiler :=
  mkProfiler (harvestSeq p) (selectedProfiles p) (cpuReportInterval p)
    (heapReportInterval p) (heapSampleIntervalBytes p) (heapSampleStackDepth p)
    x (outputDirectory p) (cpuFile p) (heapFile p) (cpuTimer p) (heapTimer p).

(** [_setProfileDestination]; the warning of the default case is not
    recorded. *)
Definition _setProfileDestination (env : LifecycleEnv) (dest : Z) : M () :=
  if (dest =? DESTINATION_TYPE_INGEST_OTEL)
     || (dest =? DESTINATION_TYPE_INGEST_MELT)
     || (dest =? DESTINATION_TYPE_NIL)
  then
    p ← this;
    when (destination p =? DESTINATION_TYPE_LOCAL_FILE) (_closeLocalFiles env) ;;
    update (set_destination dest)
  else mret ().

End Pprof.

(** ** Reading the results *)

(** Attribute [key] of event [i] of a marshalled list. *)
Definition attr (events : option (list Event)) (i : nat) (key : string)
  : option value :=
  es ← events; e ← es !! i; e !! key.

(** The deltas of a CPU profile consumed before sample [i]: those at the
    positions [1 .. i] of [timeDeltas]. *)
Definition consumed (timeDeltas : list Z) (i : nat) : list Z :=
  take i (drop 1 timeDeltas).

Definition sum_list (l : list Z) : Z := foldr Z.add 0 l.

(** The delta rule in words: the delta one position ahead when there is one,
    else the floor of the mean of the deltas consumed so far. *)
Definition expected_delta (timeDeltas : list Z) (i : nat) : number :=
  match timeDeltas !! (i + 1)%nat with
  | Some d => Num d
  | None =>
      floor_div (sum_list (consumed timeDeltas i))
                (Z.of_nat (length (consumed timeDeltas i)))
  end.

(** The parent links of a linked CPU profile lead every sample to a root:
    no sample sits on a cycle of parent links. *)
Definition cpu_walks_end (profile : Inspector.Profile) : Prop :=
  Forall (λ s, exists l,
            Inspector.parent_chain (Inspector.cpu_node_map profile)
              (Inspector.cpu_node_map profile !! s) l)
         (Inspector.samples profile).

(** The objects from a linked heap object up to the head, the object itself
    first, and their nodes. *)
Fixpoint linked_chain (l : Inspector.Heap.Linked) : list Inspector.Heap.Linked :=
  match l with
  | Inspector.Heap.mkLinked _ None => [l]
  | Inspector.Heap.mkLinked _ (Some p) => l :: linked_chain p
  end.

Definition chain_nodes (l : Inspector.Heap.Linked) : list Inspector.Heap.Node :=
  Inspector.Heap.node <$> linked_chain l.

(** [tree_chain head l]: [l] is the object of a node of the tree under
    [head], and its parent links are the objects of the node's ancestors in
    the tree, up to [head] itself. *)
Inductive tree_chain (head : Inspector.Heap.Node)
  : Inspector.Heap.Linked -> Prop :=
| tree_chain_head :
    tree_chain head (Inspector.Heap.mkLinked head None)
| tree_chain_child child parent :
    tree_chain head parent ->
    child ∈ Inspector.Heap.children (Inspector.Heap.node parent) ->
    tree_chain head (Inspector.Heap.mkLinked child (Some parent)).

(** The same tree with other self sizes: [f id selfSize] is the new self
    size of a node. *)
Fixpoint resize (f : Z -> Z -> Z) (n : Inspector.Heap.Node)
  : Inspector.Heap.Node :=
  match n with
  | Inspector.Heap.mkNode i s c cs =>
      Inspector.Heap.mkNode i (f i s) c (resize f <$> cs)
  end.


(** Increasing the self size of the node with id [a] by [delta]. *)
Definition bump (a delta : Z) : Z -> Z -> Z :=
  λ i s, if decide (i = a) then s + delta else s.

Definition bump_profile (a delta : Z) (profile : Inspector.Heap.SamplingProfile)
  : Inspector.Heap.SamplingProfile :=
  Inspector.Heap.mkSamplingProfile
    (resize (bump a delta) (Inspector.Heap.head profile))
    (Inspector.Heap.samples profile).

(** Whether the character [c] occurs in [s]. *)
Fixpoint occurs (c : ascii) (s : string) : bool :=
  match s with
  | "" => false
  | String c' s' => bool_decide (c' = c) || occurs c s'
  end.

(** The normalisation of a metric name as the specification words it: every
    white space character becomes an underscore, letters, digits and
    underscores are kept, every other character is removed. *)
Definition is_digit (c : ascii) : bool :=
  let n := N_of_ascii c in ((48 <=? n) && (n <=? 57))%N.

Fixpoint normalize_each (s : string) : string :=
  match s with
  | "" => ""
  | String c rest =>
      if Pprof.White_Space c then String "_" (normalize_each rest)
      else if Pprof.L c || is_digit c || bool_decide (c = "_"%char)
      then String c (normalize_each rest)
      else normalize_each rest
  end.

Definition claimed_normalize (typeName unitName : string) : string :=
  normalize_each (typeName +:+ "_" +:+ unitName).

(** The metric keys written for a sample: one per value. *)
Definition metric_keys (profile : Pprof.Profile) (sample : Pprof.Sample.t)
  : list string :=
  Pprof.metric_key profile
    <$> take (length (Pprof.Sample.value sample)) (Pprof.sampleType profile).

(** A key of [keys] is stale for the mark [val] when its mark is another
    one. *)
Definition stale (keys : gmap string Z) (val : Z) (k : string) : bool :=
  match keys !! k with
  | Some mark => bool_decide (mark ≠ val)
  | None => false
  end.

(** The metric keys of the sample before sample [j]: none before the
    first. *)
Definition prev_keys (profile : Pprof.Profile) (j : nat) : list string :=
  match j with
  | O => []
  | S j' => from_option (metric_keys profile) [] (Pprof.sample profile !! j')
  end.

(** What holds of the state of [_recordSamples] once [j] samples have been
    recorded: no location key at or beyond the depth of the last stack. *)
Definition width_bounded (profile : Pprof.Profile) (j : nat)
  (st : Pprof.State) : Prop :=
  (forall N, (Pprof.prevLoc st <= N)%nat ->
     Pprof.attrs st !! location_key N = None) /\
  (forall sample, Pprof.sample profile !! pred j = Some sample ->
     (0 < j)%nat ->
     Pprof.prevLoc st = length (Pprof.Sample.locationId sample)).

(** What holds of the state of [_recordSamples] once [j] samples have been
    recorded: the marked keys are the metric keys of the last sample, they
    carry the last mark and are attributes, and a metric key of an earlier
    sample that the last sample does not have is no attribute, unless it
    is the name of the sequence number, which every sample sets anew. *)
Definition keys_tracked (profile : Pprof.Profile) (j : nat)
  (st : Pprof.State) : Prop :=
  (forall k mark, Pprof.u st !! k = Some mark ->
     mark = 1 - Pprof.v st /\ k ∈ prev_keys profile j) /\
  (forall k, k ∈ prev_keys profile j ->
     is_Some (Pprof.u st !! k) /\ is_Some (Pprof.attrs st !! k)) /\
  (forall m other k,
     (m < j)%nat -> Pprof.sample profile !! m = Some other ->
     k ∈ metric_keys profile other -> k ∉ prev_keys profile j ->
     Pprof.attrs st !! k = None \/
     (k = "sample_seq" /\
      Pprof.attrs st !! k = Some (VInt (Z.of_nat (pred j))))).

(** ** Runs of the scheduled harvests *)

(** A firing of one of the two timers of the pprof profiler, with what the
    collaborators answer during the harvest. *)
Inductive Trigger :=
| CpuTrigger (env : Pprof.HarvestEnv)
| HeapTrigger (env : Pprof.HarvestEnv).

Definition is_cpu (t : Trigger) : bool :=
  match t with CpuTrigger _ => true | HeapTrigger _ => false end.

Definition is_heap (t : Trigger) : bool := negb (is_cpu t).

(** The harvest proper, and the whole timer callback. *)
Definition collect (t : Trigger) : Pprof.M () :=
  match t with
  | CpuTrigger env => Pprof._collectCpuSamples env
  | HeapTrigger env => Pprof._collectHeapSamples env
  end.

Definition fire (t : Trigger) : Pprof.M () :=
  match t with
  | CpuTrigger env => Pprof._harvestCpuSamples env
  | HeapTrigger env => Pprof._harvestHeapSamples env
  end.

(** A harvest succeeds when it completes without throwing. *)
Definition succeeds (t : Trigger) (w : Pprof.World) : bool :=
  match (collect t w).1 with
  | Pprof.Ok _ => true
  | Pprof.Throw => false
  end.

(** The world after the firings [ts], taken one after the other: the runs
    considered are those in which a harvest has ended when the next timer
    fires. *)
Fixpoint run (ts : list Trigger) (w : Pprof.World) : Pprof.World :=
  match ts with
  | [] => w
  | t :: ts' => run ts' (fire t w).2
  end.

(** The number of firings of [ts] of the kind [P] whose harvest succeeds. *)
Fixpoint successes (P : Trigger -> bool) (ts : list Trigger)
  (w : Pprof.World) : nat :=
  match ts with
  | [] => 0
  | t :: ts' =>
      ((if P t && succeeds t w then 1 else 0) + successes P ts' (fire t w).2)%nat
  end.

(** The second half of the claim on the harvest sequence, in the terms of a
    run: from one successful CPU harvest to the next successful one, the
    sequence number grows by exactly one. *)
Definition consecutive_cpu_differ_by_one : Prop :=
  forall env1 between env2 w,
    succeeds (CpuTrigger env1) w = true ->
    successes is_cpu between (fire (CpuTrigger env1) w).2 = 0%nat ->
    succeeds (CpuTrigger env2) (run (CpuTrigger env1 :: between) w) = true ->
    Pprof.harvestSeq (Pprof.profiler (run (CpuTrigger env1 :: between) w))
    = Pprof.harvestSeq (Pprof.profiler w) + 1.

(** The files opened in a trace, and the [harvest_seq] attributes of the
    events of a type recorded in it. *)
Definition opened (trace : list Pprof.Effect) : list Pprof.File :=
  omap (λ e, match e with Pprof.Open f => Some f | _ => None end) trace.

Definition recorded_seqs (eventType : string) (trace : list Pprof.Effect)
  : list (option value) :=
  omap (λ e, match e with
             | Pprof.RecordCustomEvent ty attributes =>
                 if String.eqb ty eventType
                 then Some (attributes !! "harvest_seq") else None
             | _ => None
             end) trace.

(** A new profiler, as the constructor leaves it. *)
Definition new_profiler (selectedProfiles destination : Z)
  (outputDirectory : string) : Pprof.Profiler :=
  Pprof.mkProfiler 0 selectedProfiles 60000 60000 524288 64 destination
    outputDirectory None None false false.

Definition new_world (selectedProfiles destination : Z)
  (outputDirectory : string) : Pprof.World :=
  Pprof.mkWorld (new_profiler selectedProfiles destination outputDirectory)
    (Pprof.mkEngines false false) [].

(** Collaborators that never fail. *)
Definition lifecycle_ok : Pprof.LifecycleEnv :=
  Pprof.mkLifecycleEnv true true true true true true.

Definition harvest_ok (profile : Pprof.Profile) : Pprof.HarvestEnv :=
  Pprof.mkHarvestEnv (Some profile) true true true true.

(** The series of file names that the specification gives for an engine:
    the base name, then the base name with the suffixes 1, 2, ... *)
Definition claimed_series (base : string) (n : nat) : list string :=
  base :: ((λ k : nat, base +:+ pretty k) <$> seq 1 n).

(** A firing of one of the two timers of the inspector profiler. *)
Inductive InspectorTrigger :=
| InspectorCpu (env : Inspector.HarvestEnv)
| InspectorHeap (env : Inspector.HarvestEnv).

Definition inspector_fire (t : InspectorTrigger) (w : Inspector.World)
  : option Inspector.World :=
  match t with
  | InspectorCpu env => Inspector._collectCpuSamples env w
  | InspectorHeap env => Inspector._collectHeapSamples env w
  end.

Fixpoint inspector_run (ts : list InspectorTrigger) (w : Inspector.World)
  : option Inspector.World :=
  match ts with
  | [] => Some w
  | t :: ts' => w' ← inspector_fire t w; inspector_run ts' w'
  end.

(** The [harvest_seq] attributes of the events of a type recorded in a
    trace of the inspector profiler. *)
Definition inspector_recorded_seqs (eventType : string)
  (trace : list Inspector.Effect) : list (option value) :=
  omap (λ e, match e with
             | Inspector.RecordCustomEvent ty attributes =>
                 if String.eqb ty eventType
                 then Some (attributes !! "harvest_seq") else None
             | _ => None
             end) trace.

(** ** Notions and inputs used by the theorems *)

Section InspectorReadings.
Import Inspector.

(** What the node map holds under an id: the object of a node of the tree
    with that id, linked to the objects of its ancestors. *)
Definition linked_in (head : Heap.Node) (k : Z) (l : Heap.Linked) : Prop :=
  tree_chain head l /\ Heap.id (Heap.node l) = k.

(** The inclusive size that the marshaller computes for a node id. *)
Definition inclusive_size (nodeMap : gmap Z Heap.Linked) (nodeId : Z) : Z :=
  sum_list (Heap.selfSize <$> from_option chain_nodes [] (nodeMap !! nodeId)).

(** What the links of a node map are worth: a node is held under its own
    id, and a parent link names a node of the map that lists the node among
    its children. *)
Definition well_linked (g : gmap Z Node) : Prop :=
  forall k n, g !! k = Some n ->
    id n = k /\
    forall p, parent n = Some p ->
      exists pn cs, g !! p = Some pn /\ children pn = Some cs /\ k ∈ cs.

(** A profile with three samples on a small call tree, used to instantiate
    the theorems below. *)
Definition sample_cpu_profile (timeDeltas : list Z) : Profile :=
  mkProfile
    [mkNode 1 (mkCallFrame "root" 0) (Some [2; 3]) None;
     mkNode 2 (mkCallFrame "foo" 10) (Some [4]) None;
     mkNode 3 (mkCallFrame "" 7) None None;
     mkNode 4 (mkCallFrame "bar" 22) (Some []) None]
    [4; 3; 2] 1000 1060 timeDeltas.

(** A heap profile: a head with two subtrees; the samples sit at the leaves
    5 and 4 and at the inner node 2. *)
Definition sample_heap_profile : Heap.SamplingProfile :=
  Heap.mkSamplingProfile
    (Heap.mkNode 1 100 (mkCallFrame "(root)" 0)
       [Heap.mkNode 2 20 (mkCallFrame "alloc" 3)
          [Heap.mkNode 4 7 (mkCallFrame "make" 9) [];
           Heap.mkNode 5 1 (mkCallFrame "" 11) []];
        Heap.mkNode 3 50 (mkCallFrame "other" 5) []])
    [Heap.mkSample 5; Heap.mkSample 4; Heap.mkSample 2].

(** A new inspector profiler with both engines selected, and an engine that
    rejects [HeapProfiler.enable] and nothing else. *)
Definition inspector_new : Inspector.World :=
  Inspector.mkWorld
    (Inspector.mkProfiler 0 3 60000 1000 60000 524288 64 0 false false)
    (Inspector.mkEngines false false) [].

Definition heap_enable_fails (method : Inspector.Method) : bool :=
  bool_decide (method = Inspector.HeapProfiler_enable).

(** The world of the inspector profiler after [start] with both engines
    (no method fails), and harvests during which nothing fails. *)
Definition inspector_started : Inspector.World :=
  Inspector.start (λ _, false) 1000 inspector_new.

Definition inspector_ok : Inspector.HarvestEnv :=
  Inspector.mkHarvestEnv (Some (sample_cpu_profile [5; 10; 20])) false
    (Some sample_heap_profile) (λ _, 2000) 2000.

End InspectorReadings.

Section PprofReadings.
Import Pprof.

(** A pprof profile with three samples: stacks of depth 3, 1 and 2, two
    values for the first and the last sample and one for the second. *)
Definition sample_pprof_profile : Profile :=
  mkProfile
    [Sample.mk [1; 2; 3] [10; 20]; Sample.mk [2] [7]; Sample.mk [9; 1] [5; 6]]
    [ValueType.mk 1 2; ValueType.mk 3 4] (Some (ValueType.mk 3 4))
    1000 111 222
    [Location.mk 1 [Line.mk 1 10]; Location.mk 2 [Line.mk 2 20];
     Location.mk 3 [Line.mk 7 30]]
    [Function.mk 1 5; Function.mk 2 6]
    (mkStringTable
       [""; "samples"; "count"; "wall"; "nanoseconds"; "main"; "work"]).

(** Attribute [key] of call [i] of [_recordSamples]. *)
Definition recorded (calls : list (string * Event)) (i : nat) (key : string)
  : option value :=
  c ← calls !! i; c.2 !! key.

(** A computation that leaves the harvest sequence number as it is. *)
Definition keeps_seq {A} (m : M A) : Prop :=
  forall w, harvestSeq (profiler (m w).2) = harvestSeq (profiler w).

(** The effect of a call. *)
Definition as_effect (c : string * Event) : Effect :=
  RecordCustomEvent c.1 c.2.

(** The world of a CPU-only pprof profiler with the local file destination
    after [start] (nothing fails). *)
Definition cpu_file_started (outputDirectory : string) : World :=
  (start lifecycle_ok
     (new_world PROFILING_TYPE_CPU DESTINATION_TYPE_LOCAL_FILE
        outputDirectory)).2.

(** The same for a heap-only profiler. *)
Definition heap_file_started (outputDirectory : string) : World :=
  (start lifecycle_ok
     (new_world PROFILING_TYPE_HEAP DESTINATION_TYPE_LOCAL_FILE
        outputDirectory)).2.

(** A pprof library whose heap engine throws on [start]. *)
Definition heap_start_fails : Pprof.LifecycleEnv :=
  Pprof.mkLifecycleEnv true false true true true true.

(** The world of a pprof profiler with both engines and the ingest
    destination after [start], and harvests during which nothing fails. *)
Definition both_engines_started : Pprof.World :=
  (Pprof.start lifecycle_ok
     (new_world 3 Pprof.DESTINATION_TYPE_INGEST_MELT "")).2.

Definition cpu_ok : Trigger := CpuTrigger (harvest_ok sample_pprof_profile).

Definition heap_ok : Trigger := HeapTrigger (harvest_ok sample_pprof_profile).

End PprofReadings.

(** ** Notions used by the further properties *)

(** *** The configuration *)

(** Whether a configured type is [name] in some casing, and the bits of a
    selection. *)
Definition is_type (name type : string) : bool :=
  String.eqb (toLowerCase type) name.

Definition type_bits (cpu heap : bool) : Z :=
  (if cpu then 1 else 0) + (if heap then 2 else 0).

(** *** The naming function *)

(** The characters that the regular expression of the naming function
    matches, and the strings without any. *)
Definition matched (c : ascii) : bool :=
  Pprof.White_Space c || Pprof.L c || bool_decide (c = "_"%char).

Fixpoint unmatched (s : string) : bool :=
  match s with
  | "" => true
  | String c rest => negb (matched c) && unmatched rest
  end.

(** *** Recording the samples *)

(** A sample with more values than the profile declares sample types. *)
Definition overfull (profile : Pprof.Profile) (s : Pprof.Sample.t) : Prop :=
  (length (Pprof.sampleType profile) < length (Pprof.Sample.value s))%nat.

Global Instance overfull_dec profile s : Decision (overfull profile s).
Proof. unfold overfull. apply _. Defined.

(** The number of calls of [recordCustomEvent] for [n] recorded samples. *)
Definition emitted (destination : Z) (n : nat) : nat :=
  if destination =? Pprof.DESTINATION_TYPE_INGEST_MELT then n else 0%nat.

(** The frame string that the sample loop writes for a location id: that of
    the first line of the location, when the profile has the location and
    the location has a line. *)
Definition frame_of (profile : Pprof.Profile) (locationId : Z) : option string :=
  loc ← Pprof._getLocation profile locationId;
  line0 ← head (Pprof.Location.line loc);
  Some (Pprof._locationFromLine profile line0).

(** The frame at position [j] of the stack of a sample. *)
Definition frame_at (profile : Pprof.Profile) (s : Pprof.Sample.t) (j : nat)
  : option string :=
  Pprof.Sample.locationId s !! j ≫= frame_of profile.

(** What holds of the location attributes once [j] samples have been
    recorded: they are the frames of the last sample, and nothing else. *)
Definition locations_exact (profile : Pprof.Profile) (j : nat)
  (st : Pprof.State) : Prop :=
  (forall m, Pprof.u st !! location_key m = None) /\
  (forall N, (Pprof.prevLoc st <= N)%nat ->
     Pprof.attrs st !! location_key N = None) /\
  (forall N x, Pprof.attrs st !! location_key N = Some x ->
     truthy (Some x) = true) /\
  (forall i s, j = S i -> Pprof.sample profile !! i = Some s ->
     forall N, Pprof.attrs st !! location_key N = VStr <$> frame_at profile s N).

(** A key that is no metric key of the first [j] samples. *)
Definition unused_before (profile : Pprof.Profile) (j : nat) (k : string) : Prop :=
  forall m s, (m < j)%nat -> Pprof.sample profile !! m = Some s ->
    k ∉ metric_keys profile s.

(** What holds of such a key once [j] samples have been recorded: it is not
    marked, and it is as the object literal of [_recordSamples] has it,
    but for [sample_seq], which is the index of the last sample. *)
Definition fixed_kept (harvestSeq : Z) (profile : Pprof.Profile)
  (pt : Pprof.ValueType.t) (j : nat) (st : Pprof.State) : Prop :=
  forall k, unused_before profile j k -> (forall m, k ≠ location_key m) ->
    Pprof.u st !! k = None /\
    Pprof.attrs st !! k
    = if decide (k = "sample_seq" /\ (0 < j)%nat)
      then Some (VInt (Z.of_nat (pred j)))
      else Pprof.initial_attrs harvestSeq profile pt !! k.

(** *** The inspector marshallers *)

(** The ids of the children of every node are greater than the id of the
    node. *)
Definition ids_ascend (profile : Inspector.Profile) : Prop :=
  Forall (λ node, Forall (λ child, Inspector.id node < child)
                    (default [] (Inspector.children node)))
         (Inspector.nodes profile).

(** The attributes that every event of the CPU marshaller has, apart from
    the locations. *)
Definition cpu_fixed_keys : list string :=
  ["harvest_seq"; "sample_seq"; "sample_period_cpu_nanoseconds"; "duration_ns";
   "time_ns"; "cpu_nanoseconds"; "samples_count"].

(** The nodes of an allocation tree, the root first. *)
Fixpoint tree_nodes (n : Inspector.Heap.Node) : list Inspector.Heap.Node :=
  match n with
  | Inspector.Heap.mkNode _ _ _ children =>
      n :: mjoin (tree_nodes <$> children)
  end.

(** The attributes that every event of the heap marshaller has, apart from
    the locations. *)
Definition heap_fixed_keys : list string :=
  ["harvest_seq"; "sample_seq"; "sample_period_inuse_space_bytes";
   "duration_ns"; "time_ns"; "inuse_space_bytes"; "samples_count"].

(** *** The lifecycle of the inspector profiler *)

(** The calls of the callback in a trace: the error and the state of the
    engines of each. *)
Definition callbacks (trace : list Inspector.Effect)
  : list (bool * Inspector.Engines) :=
  omap (λ e, match e with
             | Inspector.Callback err engines => Some (err, engines)
             | _ => None
             end) trace.

(** Effects that are session commands with one of [methods], or entries of
    the error log. *)
Definition only_posts (methods : list Inspector.Method)
  (added : list Inspector.Effect) : Prop :=
  Forall (λ e, e = Inspector.LogError \/
               exists m failed, e = Inspector.Post m failed /\ m ∈ methods)
         added.

(** *** The lifecycle of the pprof profiler *)

(** The files closed in a trace. *)
Definition closed (trace : list Pprof.Effect) : list Pprof.File :=
  omap (λ e, match e with Pprof.Close f => Some f | _ => None end) trace.

(** A call to the file system or to the encoder, failed or not. *)
Definition touches_file (e : Pprof.Effect) : bool :=
  match e with
  | Pprof.Open _ | Pprof.Write _ | Pprof.Close _ | Pprof.Encode
  | Pprof.Failed (Pprof.Open _) | Pprof.Failed (Pprof.Write _)
  | Pprof.Failed (Pprof.Close _) | Pprof.Failed Pprof.Encode => true
  | _ => false
  end.

Definition is_record (e : Pprof.Effect) : bool :=
  match e with Pprof.RecordCustomEvent _ _ => true | _ => false end.

(** The file handles that the profiler holds for the engines it has
    selected. *)
Definition handles (p : Pprof.Profiler) : list Pprof.File :=
  (if Pprof.selected (Pprof.selectedProfiles p) Pprof.PROFILING_TYPE_CPU
   then option_list (Pprof.cpuFile p) else [])
  ++ (if Pprof.selected (Pprof.selectedProfiles p) Pprof.PROFILING_TYPE_HEAP
      then option_list (Pprof.heapFile p) else []).

(** A firing of the CPU or of the heap timer during which nothing fails. *)
Definition ok_trigger (harvest : bool * Pprof.Profile) : Trigger :=
  if harvest.1 then CpuTrigger (harvest_ok harvest.2)
  else HeapTrigger (harvest_ok harvest.2).

(** What holds of the local files while the profiler runs: the files
    opened and not yet closed are the handles that the profiler holds. *)
Definition files_tracked (w : Pprof.World) : Prop :=
  Pprof.destination (Pprof.profiler w) = Pprof.DESTINATION_TYPE_LOCAL_FILE /\
  opened (Pprof.trace w)
    ≡ₚ closed (Pprof.trace w) ++ handles (Pprof.profiler w) /\
  (Pprof.selected (Pprof.selectedProfiles (Pprof.profiler w))
     Pprof.PROFILING_TYPE_CPU = true ->
   is_Some (Pprof.cpuFile (Pprof.profiler w))) /\
  (Pprof.selected (Pprof.selectedProfiles (Pprof.profiler w))
     Pprof.PROFILING_TYPE_HEAP = true ->
   is_Some (Pprof.heapFile (Pprof.profiler w))).

(** The destinations that [_setProfileDestination] accepts. *)
Definition accepted_destination (dest : Z) : bool :=
  (dest =? Pprof.DESTINATION_TYPE_INGEST_OTEL)
  || (dest =? Pprof.DESTINATION_TYPE_INGEST_MELT)
  || (dest =? Pprof.DESTINATION_TYPE_NIL).

(** A call that stops an engine, clears a timer or closes a file. *)
Definition undoes (e : Pprof.Effect) : bool :=
  match e with
  | Pprof.TimeStop _ | Pprof.HeapStop | Pprof.Close _
  | Pprof.ClearInterval _ => true
  | _ => false
  end.

(** *** Inputs used to instantiate the further properties *)

(** A CPU profile whose second sample has an id that no node has. *)
Definition stray_cpu_profile : Inspector.Profile :=
  Inspector.mkProfile
    [Inspector.mkNode 1 (Inspector.mkCallFrame "root" 0) (Some [2]) None;
     Inspector.mkNode 2 (Inspector.mkCallFrame "foo" 10) None None]
    [2; 9] 1000 1060 [5; 10].

(** A heap profile whose second sample has a node id that is not in the
    tree. *)
Definition stray_heap_profile : Inspector.Heap.SamplingProfile :=
  Inspector.Heap.mkSamplingProfile
    (Inspector.Heap.mkNode 1 100 (Inspector.mkCallFrame "(root)" 0) [])
    [Inspector.Heap.mkSample 1; Inspector.Heap.mkSample 9].

(** A session that rejects [Profiler.enable] and nothing else. *)
Definition cpu_enable_fails (method : Inspector.Method) : bool :=
  bool_decide (method = Inspector.Profiler_enable).

(** A configuration of the inspector profiler whose only type is unknown,
    and one of the pprof profiler with the CPU type and a destination that
    [_parseDestination] does not know. *)
Definition unknown_type_config : Inspector.Config.t :=
  Inspector.Config.mk (Some ["GPU"]) 60000 1000 60000 524288 64.

Definition otel_config : Pprof.Config.t :=
  Pprof.Config.mk (Some ["CPU"]) 60000 60000 524288 64 (Some "otel") "".

(** The integers that a JavaScript number holds exactly.  A product or a
    difference of two of them is computed exactly when its value is one of
    them again; beyond, the source rounds where the embedding does not. *)
Definition safe_integer (z : Z) : Prop := Z.abs z <= 2 ^ 53.

(** A harvest during which the engine throws instead of handing out a
    profile. *)
Definition snapshot_fails : Pprof.HarvestEnv :=
  Pprof.mkHarvestEnv None true true true true.

(** *** The stack attributes, as the specification words them and as the
    code writes them *)

(** The string of a frame as the specification words it: the function name,
    a colon and the line number. *)
Definition claimed_location (callFrame : Inspector.CallFrame) : string :=
  Inspector.functionName callFrame +:+ ":"
  +:+ pretty (Inspector.lineNumber callFrame).

(** The same string with the name that stands for a function without a
    name. *)
Definition shown_name (name : string) : string :=
  match name with
  | EmptyString => "(unknown)"
  | String _ _ => name
  end.

Definition named_location (callFrame : Inspector.CallFrame) : string :=
  shown_name (Inspector.functionName callFrame) +:+ ":"
  +:+ pretty (Inspector.lineNumber callFrame).

(** The stack of a walk from a node to the root, the root first: one string
    per node. *)
Definition stack_of (frame : Inspector.CallFrame -> string)
  (walk : list Inspector.Node) : list string :=
  reverse (frame ∘ Inspector.callFrame <$> walk).

(** The claim on the stack attributes in the terms of the CPU marshaller:
    the locations of the event of a sample are the [functionName:lineNumber]
    strings of the walk from the sample's node to the root, reversed. *)
Definition claimed_cpu_stack : Prop :=
  forall harvestSeq profile events i s e walk,
    Inspector._marshalCpuProfileToEvents harvestSeq profile = Some events ->
    Inspector.samples profile !! i = Some s ->
    events !! i = Some e ->
    Inspector.parent_chain (Inspector.cpu_node_map profile)
      (Inspector.cpu_node_map profile !! s) walk ->
    forall m, e !! location_key m = VStr <$> stack_of claimed_location walk !! m.

(** The claim in the terms of the pprof recorder, whose stack is the list of
    location ids of the sample: no index below the depth of the stack is
    missing. *)
Definition claimed_pprof_stack : Prop :=
  forall eventType harvestSeq profile destination i ty e s,
    (Pprof._recordSamples eventType harvestSeq profile destination).1 !! i
      = Some (ty, e) ->
    Pprof.sample profile !! i = Some s ->
    forall m, (m < length (Pprof.Sample.locationId s))%nat ->
      is_Some (e !! location_key m).

(** * Proofs *)

(** The end-to-end example of the CPU marshaller. *)
Example cpu_end_to_end :
  let root := Inspector.mkNode 1 (Inspector.mkCallFrame "root" 0) (Some [2]) None in
  let foo := Inspector.mkNode 2 (Inspector.mkCallFrame "foo" 10) (Some []) None in
  let events :=
    Inspector._marshalCpuProfileToEvents 7
      (Inspector.mkProfile [root; foo] [2] 0 100 [5; 15]) in
  length <$> events = Some 1%nat /\
  attr events 0 "location.0" = Some (VStr "root:0") /\
  attr events 0 "location.1" = Some (VStr "foo:10") /\
  attr events 0 "location.2" = None /\
  attr events 0 "cpu_nanoseconds" = Some (VInt 15000) /\
  attr events 0 "sample_seq" = Some (VInt 0).
Proof. vm_compute. repeat split. Qed.

(** ** Keys *)

Lemma location_key_inj i j : location_key i = location_key j -> i = j.
Proof.
  unfold location_key. intros Heq.
  apply (inj (String.app _)) in Heq. by apply (inj pretty) in Heq.
Qed.

(** ** The walk along parent links *)

Section ParentWalkFacts.
Context {G N : Type} `{Inspector.NodeGraph G N}.
Import Inspector.

Lemma parent_walk_sound fuel (g : G) node l :
  parent_walk fuel g node = Some l -> parent_chain g node l.
Proof.
  revert node l. induction fuel as [|fuel IH]; intros [n|] l Hw; simpl in Hw;
    simplify_eq; try constructor.
  destruct (parent_walk fuel g (node_parent g n)) as [l'|] eqn:Hw';
    simplify_eq/=.
  constructor. by apply IH.
Qed.

Lemma parent_walk_complete fuel (g : G) node l :
  parent_chain g node l -> (length l <= fuel)%nat ->
  parent_walk fuel g node = Some l.
Proof.
  intros Hc. revert fuel. induction Hc as [|n l Hc IH]; intros fuel Hlen.
  - by destruct fuel.
  - destruct fuel as [|fuel]; simpl in *; [lia|].
    rewrite IH by lia. done.
Qed.

Lemma parent_chain_functional (g : G) node l1 l2 :
  parent_chain g node l1 -> parent_chain g node l2 -> l1 = l2.
Proof.
  intros Hc. revert l2. induction Hc as [|n l Hc IH]; intros l2 Hc2;
    inversion Hc2; subst; [done|].
  f_equal. by apply IH.
Qed.

Lemma parent_chain_suffix (g : G) node l l1 n l2 :
  parent_chain g node l -> l = l1 ++ n :: l2 ->
  parent_chain g (Some n) (n :: l2).
Proof.
  intros Hc. revert l1. induction Hc as [|m l Hc IH]; intros l1 Heq.
  - by destruct l1.
  - destruct l1 as [|m' l1]; simplify_eq/=.
    + by constructor.
    + by eapply IH.
Qed.

(** A walk that ends never visits a node twice. *)
Lemma parent_chain_NoDup (g : G) node l :
  parent_chain g node l -> NoDup l.
Proof.
  induction 1 as [|n l Hc IH]; constructor; [|done].
  intros [l1 [l2 ->]]%list_elem_of_split.
  pose proof (parent_chain_suffix _ _ _ _ _ _ Hc eq_refl) as Hn.
  pose proof (parent_chain_functional _ _ _ _ Hn (chain_step _ _ _ Hc)) as Heq.
  apply (f_equal length) in Heq. simpl in Heq. rewrite length_app in Heq.
  simpl in Heq. lia.
Qed.

End ParentWalkFacts.

(** ** The location attributes written by [_addLocation] *)

Lemma location_key_head i : exists s, location_key i = String "l" s.
Proof. unfold location_key. simpl. eauto. Qed.

Lemma write_locations_other steps : forall location i j (event : Event) k,
  (forall m, (i <= m < i + steps)%nat -> k <> location_key m) ->
  Inspector.write_locations location i j steps event !! k = event !! k.
Proof.
  induction steps as [|steps IH]; intros location i j event k Hk; [done|].
  simpl. rewrite IH by (intros m Hm; apply Hk; lia).
  destruct (location !! j); [|done].
  apply lookup_insert_ne. intros Heq. by apply (Hk i); [lia|].
Qed.

Lemma write_locations_at steps : forall location i j (event : Event) m,
  (i + steps = length location)%nat ->
  (j = length location - 1 - i)%nat ->
  (i <= m < i + steps)%nat ->
  Inspector.write_locations location i j steps event !! location_key m
  = VStr <$> location !! (length location - 1 - m)%nat.
Proof.
  induction steps as [|steps IH]; intros location i j event m Hn Hj Hm; [lia|].
  simpl. destruct (decide (m = i)) as [->|Hne].
  - rewrite write_locations_other.
    2:{ intros m' Hm' Heq%location_key_inj. lia. }
    subst j. destruct (lookup_lt_is_Some_2 location (length location - 1 - i)%nat)
      as [l Hl]; [lia|].
    rewrite Hl. simpl. apply lookup_insert_eq.
  - apply IH; lia.
Qed.

Section AddLocationFacts.
Context {G N : Type} `{Inspector.NodeGraph G N}.
Import Inspector.

(** What [_addLocation] leaves in the event when the walk ends within the
    fuel: the reversed walk under [location.0], [location.1], ..., every
    other attribute as it was. *)
Lemma addLocation_spec (event : Event) sampleId (g : G) l :
  parent_chain g (node_at g sampleId) l ->
  (length l <= walk_fuel g sampleId)%nat ->
  exists event',
    _addLocation event sampleId g = Some event' /\
    (forall m, (m < length l)%nat ->
       event' !! location_key m = VStr <$> reverse (walk_locations l) !! m) /\
    (forall k, (forall m, (m < length l)%nat -> k <> location_key m) ->
       event' !! k = event !! k).
Proof.
  intros Hc Hfuel. unfold _addLocation.
  rewrite (parent_walk_complete _ _ _ _ Hc Hfuel). simpl.
  eexists. split; [done|]. fold (walk_locations l).
  assert (length (walk_locations l) = length l) as Hlen
    by (unfold walk_locations; by rewrite length_fmap).
  rewrite Hlen. split.
  - intros m Hm. rewrite write_locations_at by lia.
    rewrite reverse_lookup by lia. do 2 f_equal. lia.
  - intros k Hk. apply write_locations_other. intros m Hm. apply Hk. lia.
Qed.

End AddLocationFacts.

(** ** The CPU marshaller *)

Section CpuFacts.
Import Inspector.

(** Every node of a walk over a CPU node map is held by the map. *)
Lemma cpu_chain_in_map (g : gmap Z Node) node l :
  parent_chain g node l ->
  (forall n, node = Some n -> exists k, g !! k = Some n) ->
  forall n, n ∈ l -> exists k, g !! k = Some n.
Proof.
  induction 1 as [|n l Hc IH]; intros Hnode m Hm.
  - by apply elem_of_nil in Hm.
  - apply elem_of_cons in Hm as [->|Hm]; [by apply Hnode|].
    apply IH; [|done]. intros p Hp. simpl in Hp.
    destruct (parent n) as [k|]; simplify_eq/=. eauto.
Qed.

(** A walk that ends is no longer than the node map is large, so the fuel
    of [cpu_graph] is enough for it. *)
Lemma cpu_chain_length (g : gmap Z Node) (s : Z) l :
  parent_chain g (g !! s) l -> (length l <= size g)%nat.
Proof.
  intros Hc.
  assert (l ⊆+ (map_to_list g).*2) as Hsub.
  { apply NoDup_submseteq; [by eapply parent_chain_NoDup|].
    intros n Hn.
    destruct (cpu_chain_in_map g _ l Hc (λ n Hs, ex_intro _ s Hs) n Hn)
      as [k Hk].
    apply list_elem_of_fmap. exists (k, n). split; [done|].
    by apply elem_of_map_to_list. }
  apply submseteq_length in Hsub.
  by rewrite length_fmap, length_map_to_list in Hsub.
Qed.

Lemma sum_list_app l1 l2 : sum_list (l1 ++ l2) = sum_list l1 + sum_list l2.
Proof. induction l1 as [|x l1 IH]; simpl; [done|]. unfold sum_list in *. simpl. lia. Qed.

(** One step of the delta computation keeps [count] and [sum] equal to the
    number and the sum of the deltas consumed so far. *)
Lemma cpu_delta_spec timeDeltas i :
  cpu_delta timeDeltas i (Z.of_nat (length (consumed timeDeltas i)))
    (sum_list (consumed timeDeltas i))
  = (expected_delta timeDeltas i,
     Z.of_nat (length (consumed timeDeltas (S i))),
     sum_list (consumed timeDeltas (S i))).
Proof.
  unfold cpu_delta, expected_delta, consumed.
  destruct (Z.ltb_spec (Z.of_nat i) (Z.of_nat (length timeDeltas) - 1)) as [Hlt|Hge].
  - destruct (lookup_lt_is_Some_2 timeDeltas (i + 1)%nat) as [d Hd]; [lia|].
    rewrite Hd. simpl.
    assert (drop 1 timeDeltas !! i = Some d) as Hd'.
    { rewrite lookup_drop. by replace (1 + i)%nat with (i + 1)%nat by lia. }
    rewrite (take_S_r _ _ _ Hd'), length_app, sum_list_app. simpl.
    do 2 f_equal; [lia|]. unfold sum_list. simpl. lia.
  - rewrite (lookup_ge_None_2 timeDeltas (i + 1)%nat) by lia.
    rewrite !take_ge by (rewrite length_drop; lia). done.
Qed.

(** The sample loop: as long as every walk ends, the loop returns one event
    per sample, the event of sample [i + m] being the event literal with the
    expected delta, passed through [_addLocation]. *)
Lemma cpu_sample_loop_spec harvestSeq profile (g : gmap Z Node) rest : forall i,
  Forall (λ s, exists l, parent_chain g (g !! s) l) rest ->
  exists events,
    cpu_sample_loop harvestSeq profile g rest i
      (Z.of_nat (length (consumed (timeDeltas profile) i)))
      (sum_list (consumed (timeDeltas profile) i)) = Some events /\
    length events = length rest /\
    forall m s, rest !! m = Some s ->
      exists e, events !! m = Some e /\
        _addLocation
          (cpu_event harvestSeq profile (i + m)
             (expected_delta (timeDeltas profile) (i + m))) s g = Some e.
Proof.
  induction rest as [|s rest IH]; intros i Hfin.
  - exists []. by repeat split.
  - apply Forall_cons in Hfin as [[l Hl] Hfin]. simpl.
    rewrite cpu_delta_spec.
    destruct (addLocation_spec
                (cpu_event harvestSeq profile i
                   (expected_delta (timeDeltas profile) i)) s g l Hl)
      as (e & He & _).
    { simpl. pose proof (cpu_chain_length g s l Hl). lia. }
    rewrite He. simpl.
    destruct (IH (S i) Hfin) as (events & -> & Hlen & Hev). simpl.
    eexists. split; [done|]. split; [simpl; lia|].
    intros [|m] s' Hm; simplify_eq/=.
    + exists e. split; [done|]. by replace (i + 0)%nat with i by lia.
    + destruct (Hev m s' Hm) as (e' & ? & ?). exists e'. split; [done|].
      by replace (i + S m)%nat with (S i + m)%nat by lia.
Qed.

End CpuFacts.

Section CpuClaims.
Import Inspector.

Lemma parent_walk_length {G N} `{NodeGraph G N} fuel (g : G) node l :
  parent_walk fuel g node = Some l -> (length l <= fuel)%nat.
Proof.
  revert node l. induction fuel as [|fuel IH]; intros [n|] l Hw;
    simplify_eq/=; try lia.
  destruct (parent_walk fuel g (node_parent g n)) as [l'|] eqn:Hw';
    simplify_eq/=.
  apply IH in Hw'. lia.
Qed.

(** Reading [_addLocation] backwards: a result comes from a walk that ended. *)
Lemma addLocation_inv {G N} `{NodeGraph G N} (event : Event) s (g : G) e :
  _addLocation event s g = Some e ->
  exists l, parent_chain g (node_at g s) l /\
    (forall m, (m < length l)%nat ->
       e !! location_key m = VStr <$> reverse (walk_locations l) !! m) /\
    (forall k, (forall m, (m < length l)%nat -> k <> location_key m) ->
       e !! k = event !! k).
Proof.
  intros He. pose proof He as He'. unfold _addLocation in He'.
  destruct (parent_walk (walk_fuel g s) g (node_at g s)) as [l|] eqn:Hw;
    [|done].
  exists l. pose proof (parent_walk_sound _ _ _ _ Hw) as Hc.
  split; [done|].
  destruct (addLocation_spec event s g l Hc (parent_walk_length _ _ _ _ Hw))
    as (e' & He'' & Hloc & Hother).
  by simplify_eq.
Qed.

Lemma walks_end_by_fuel {G N} `{NodeGraph G N} fuel (g : G) node :
  is_Some (parent_walk fuel g node) -> exists l, parent_chain g node l.
Proof. intros [l Hl]. exists l. by eapply parent_walk_sound. Qed.

(** The marshaller as a whole. *)
Lemma cpu_marshal_spec harvestSeq profile :
  cpu_walks_end profile ->
  exists events,
    _marshalCpuProfileToEvents harvestSeq profile = Some events /\
    length events = length (samples profile) /\
    forall i s, samples profile !! i = Some s ->
      exists e, events !! i = Some e /\
        _addLocation
          (cpu_event harvestSeq profile i
             (expected_delta (timeDeltas profile) i)) s
          (cpu_node_map profile) = Some e.
Proof.
  intros Hfin. unfold _marshalCpuProfileToEvents.
  exact (cpu_sample_loop_spec harvestSeq profile (cpu_node_map profile)
           (samples profile) 0%nat Hfin).
Qed.

Lemma fixed_key_not_location k :
  (forall s, k <> String "l" s) -> forall m, k <> location_key m.
Proof. intros Hk m. destruct (location_key_head m) as [s ->]. apply Hk. Qed.

Lemma cpu_event_location harvestSeq profile i delta m :
  cpu_event harvestSeq profile i delta !! location_key m = None.
Proof.
  unfold cpu_event. destruct (location_key_head m) as [s ->].
  by repeat (rewrite lookup_insert_ne by discriminate).
Qed.

Lemma cpu_event_delta harvestSeq profile i delta :
  cpu_event harvestSeq profile i delta !! "cpu_nanoseconds"
    = Some (VNum (scale delta 1000)) /\
  cpu_event harvestSeq profile i delta !! "sample_period_cpu_nanoseconds"
    = Some (VNum (scale delta 1000)).
Proof.
  unfold cpu_event. split.
  - repeat (rewrite lookup_insert_ne by discriminate). apply lookup_insert_eq.
  - repeat (rewrite lookup_insert_ne by discriminate). apply lookup_insert_eq.
Qed.

(** The two delta attributes of the events of a marshalled profile. *)
Lemma cpu_marshal_delta harvestSeq profile events i e :
  cpu_walks_end profile ->
  _marshalCpuProfileToEvents harvestSeq profile = Some events ->
  events !! i = Some e ->
  e !! "cpu_nanoseconds"
    = Some (VNum (scale (expected_delta (timeDeltas profile) i) 1000)) /\
  e !! "sample_period_cpu_nanoseconds"
    = Some (VNum (scale (expected_delta (timeDeltas profile) i) 1000)).
Proof.
  intros Hfin Hev He.
  destruct (cpu_marshal_spec harvestSeq profile Hfin)
    as (events' & Hev' & Hlen & Hspec).
  simplify_eq.
  destruct (lookup_lt_is_Some_2 (samples profile) i) as [s Hs].
  { rewrite <- Hlen. by eapply lookup_lt_Some. }
  destruct (Hspec i s Hs) as (e' & He' & Hadd). simplify_eq.
  apply addLocation_inv in Hadd as (l & _ & _ & Hother).
  rewrite !Hother by (intros; by apply fixed_key_not_location).
  apply cpu_event_delta.
Qed.

End CpuClaims.

Section CpuTheorems.
Import Inspector.

Lemma sample_cpu_profile_walks_end timeDeltas :
  cpu_walks_end (sample_cpu_profile timeDeltas).
Proof.
  unfold cpu_walks_end. simpl.
  repeat constructor; apply (walks_end_by_fuel 5); vm_compute; eauto.
Qed.

(** C1. For a linked CPU profile, the marshaller returns one event per
    sample; the delta of sample [i] is the entry of [timeDeltas] at position
    [i + 1] when there is one, and the floor of the mean of the deltas
    consumed so far otherwise ([expected_delta]); both delta attributes carry
    it scaled to nanoseconds.  With [timeDeltas = [d0; d1; d2]] and three
    samples the deltas are [d1], [d2] and [floor ((d1 + d2) / 2)]. *)
Theorem cpu_delta_rule harvestSeq profile :
  cpu_walks_end profile ->
  exists events,
    _marshalCpuProfileToEvents harvestSeq profile = Some events /\
    length events = length (samples profile) /\
    (forall i e, events !! i = Some e ->
       e !! "cpu_nanoseconds"
         = Some (VNum (scale (expected_delta (timeDeltas profile) i) 1000)) /\
       e !! "sample_period_cpu_nanoseconds"
         = Some (VNum (scale (expected_delta (timeDeltas profile) i) 1000))) /\
    (forall d0 d1 d2,
       timeDeltas profile = [d0; d1; d2] ->
       length (samples profile) = 3%nat ->
       (λ e : Event, e !! "cpu_nanoseconds") <$> events
       = [Some (VInt (d1 * 1000)); Some (VInt (d2 * 1000));
          Some (VInt ((d1 + d2) / 2 * 1000))]).
Proof.
  intros Hfin.
  destruct (cpu_marshal_spec harvestSeq profile Hfin)
    as (events & Hev & Hlen & _).
  exists events. split; [done|]. split; [done|]. split.
  - intros i e He. by eapply cpu_marshal_delta.
  - intros d0 d1 d2 Htd Hthree. rewrite Hthree in Hlen.
    destruct events as [|e0 [|e1 [|e2 [|? ?]]]]; simplify_eq/=.
    destruct (cpu_marshal_delta harvestSeq profile [e0; e1; e2] 0 e0 Hfin Hev
                eq_refl) as [-> _].
    destruct (cpu_marshal_delta harvestSeq profile [e0; e1; e2] 1 e1 Hfin Hev
                eq_refl) as [-> _].
    destruct (cpu_marshal_delta harvestSeq profile [e0; e1; e2] 2 e2 Hfin Hev
                eq_refl) as [-> _].
    rewrite Htd. unfold expected_delta, consumed, floor_div, sum_list, VInt.
    simpl. by rewrite Z.add_0_r.
Qed.

Lemma cpu_delta_rule_witness :
  cpu_walks_end (sample_cpu_profile [5; 10; 20]) /\
  exists events,
    _marshalCpuProfileToEvents 0 (sample_cpu_profile [5; 10; 20]) = Some events /\
    (λ e : Event, e !! "cpu_nanoseconds") <$> events
    = [Some (VInt 10000); Some (VInt 20000); Some (VInt 15000)].
Proof.
  split; [apply sample_cpu_profile_walks_end|].
  destruct (cpu_delta_rule 0 (sample_cpu_profile [5; 10; 20])
              (sample_cpu_profile_walks_end _))
    as (events & Hev & _ & _ & Hthree).
  exists events. split; [done|]. exact (Hthree 5 10 20 eq_refl eq_refl).
Defined.

(** C10. When [timeDeltas] has fewer than two entries no sample has a delta
    one position ahead: every sample takes the fallback branch with
    [count = 0] and [sum = 0], the unguarded [Math.floor(sum / count)] is the
    floor of zero by zero, and both delta attributes of every event are
    [NaN]. *)
Theorem cpu_delta_without_lookahead harvestSeq profile :
  samples profile <> [] ->
  (length (timeDeltas profile) < 2)%nat ->
  cpu_walks_end profile ->
  (forall i, cpu_delta (timeDeltas profile) i 0 0 = (floor_div 0 0, 0, 0)) /\
  floor_div 0 0 = NaN /\
  exists events,
    _marshalCpuProfileToEvents harvestSeq profile = Some events /\
    events <> [] /\
    forall e, e ∈ events ->
      e !! "cpu_nanoseconds" = Some (VNum NaN) /\
      e !! "sample_period_cpu_nanoseconds" = Some (VNum NaN).
Proof.
  intros Hne Hshort Hfin. split; [|split; [done|]].
  - intros i. unfold cpu_delta.
    destruct (Z.ltb_spec (Z.of_nat i) (Z.of_nat (length (timeDeltas profile)) - 1));
      [lia|done].
  - destruct (cpu_marshal_spec harvestSeq profile Hfin)
      as (events & Hev & Hlen & _).
    exists events. split; [done|]. split.
    { intros ->. destruct (samples profile); simplify_eq/=. }
    intros e [i He]%list_elem_of_lookup.
    destruct (cpu_marshal_delta harvestSeq profile events i e Hfin Hev He)
      as [-> ->].
    assert (expected_delta (timeDeltas profile) i = NaN) as ->; [|done].
    unfold expected_delta, consumed.
    rewrite (lookup_ge_None_2 (timeDeltas profile) (i + 1)%nat) by lia.
    destruct (timeDeltas profile) as [|d0 [|d1 tds]]; simpl in *; try lia.
    + by rewrite take_nil.
    + by rewrite take_nil.
Qed.

Lemma cpu_delta_without_lookahead_witness :
  exists events,
    _marshalCpuProfileToEvents 0 (sample_cpu_profile [5]) = Some events /\
    events <> [] /\
    forall e, e ∈ events -> e !! "cpu_nanoseconds" = Some (VNum NaN).
Proof.
  destruct (cpu_delta_without_lookahead 0 (sample_cpu_profile [5]))
    as (_ & _ & events & Hev & Hne & Hnan).
  - discriminate.
  - simpl. lia.
  - apply sample_cpu_profile_walks_end.
  - exists events. split; [done|]. split; [done|].
    intros e He. by destruct (Hnan e He).
Defined.

(** The events of the three samples of [sample_cpu_profile]: the stacks
    [root > foo > bar], [root > (unknown)] and [root > foo]. *)
Example sample_cpu_profile_locations :
  let events := _marshalCpuProfileToEvents 3 (sample_cpu_profile [5; 10; 20]) in
  (attr events 0 "location.0", attr events 0 "location.1",
   attr events 0 "location.2", attr events 0 "location.3")
  = (Some (VStr "root:0"), Some (VStr "foo:10"), Some (VStr "bar:22"), None) /\
  (attr events 1 "location.0", attr events 1 "location.1",
   attr events 1 "location.2")
  = (Some (VStr "root:0"), Some (VStr "(unknown):7"), None) /\
  (attr events 2 "location.0", attr events 2 "location.1",
   attr events 2 "location.2")
  = (Some (VStr "root:0"), Some (VStr "foo:10"), None) /\
  (attr events 2 "harvest_seq", attr events 2 "sample_seq",
   attr events 2 "cpu_nanoseconds", attr events 2 "duration_ns")
  = (Some (VInt 3), Some (VInt 2), Some (VInt 15000), Some (VInt 60000)).
Proof. vm_compute. repeat split. Qed.

End CpuTheorems.

(** ** The heap marshaller *)

Section HeapFacts.
Import Inspector.

(** Induction over the allocation tree. *)
Lemma heap_node_ind (P : Heap.Node -> Prop) :
  (forall i s c cs, Forall P cs -> P (Heap.mkNode i s c cs)) ->
  forall n, P n.
Proof.
  intros Hnode. fix IH 1. intros [i s c cs]. apply Hnode.
  induction cs as [|child cs IHcs]; constructor; [apply IH|apply IHcs].
Qed.

(** Induction along the parent links of a linked object. *)
Lemma heap_linked_ind (P : Heap.Linked -> Prop) :
  (forall n, P (Heap.mkLinked n None)) ->
  (forall n p, P p -> P (Heap.mkLinked n (Some p))) ->
  forall l, P l.
Proof.
  intros Hhead Hchild. fix IH 1. intros [n [p|]]; [apply Hchild, IH|apply Hhead].
Qed.

Lemma heap_depth_chain l : Heap.depth l = length (linked_chain l).
Proof. induction l using heap_linked_ind; simpl; congruence. Qed.

(** The walk from a linked object always ends: it visits [linked_chain]. *)
Lemma heap_parent_chain (g : gmap Z Heap.Linked) l :
  parent_chain g (Some l) (linked_chain l).
Proof.
  induction l as [n|n p IH] using heap_linked_ind; simpl.
  - constructor. simpl. constructor.
  - constructor. simpl. exact IH.
Qed.

Lemma heap_walk (g : gmap Z Heap.Linked) nodeId :
  parent_walk (walk_fuel g nodeId) g (node_at g nodeId)
  = Some (from_option linked_chain [] (g !! nodeId)).
Proof.
  simpl. destruct (g !! nodeId) as [l|] eqn:Hl; simpl.
  - apply parent_walk_complete; [apply heap_parent_chain|].
    by rewrite heap_depth_chain.
  - done.
Qed.

Lemma sum_list_cons x l : sum_list (x :: l) = x + sum_list l.
Proof. done. Qed.

Lemma foldl_selfSize (nodes : list Heap.Linked) acc :
  foldl (λ size node, size + Heap.selfSize (Heap.node node)) acc nodes
  = acc + sum_list (Heap.selfSize <$> (Heap.node <$> nodes)).
Proof.
  revert acc. induction nodes as [|n nodes IH]; intros acc.
  - unfold sum_list. simpl. lia.
  - rewrite !fmap_cons, sum_list_cons. simpl. rewrite IH. lia.
Qed.

(** The inclusive size is the sum of the self sizes along the parent links;
    it is [0] for an id that the map does not know. *)
Lemma calculateInclusiveSize_spec nodeId (g : gmap Z Heap.Linked) :
  _calculateInclusiveSize nodeId g
  = Some (sum_list (Heap.selfSize <$> from_option chain_nodes [] (g !! nodeId))).
Proof.
  unfold _calculateInclusiveSize. rewrite heap_walk. simpl.
  rewrite foldl_selfSize. f_equal.
  destruct (g !! nodeId); simpl; [|done]. unfold chain_nodes. lia.
Qed.

End HeapFacts.

Section HeapLinking.
Import Inspector.

(** [_buildHeapNodeMap] as a loop over the children of [self]. *)
Lemma buildHeapNodeMap_unfold self selfParent (nodeMap : gmap Z Heap.Linked) :
  _buildHeapNodeMap self selfParent nodeMap
  = foldl (λ nodeMap child,
             _buildHeapNodeMap child (Some (Heap.mkLinked self selfParent))
               (<[Heap.id child :=
                    Heap.mkLinked child (Some (Heap.mkLinked self selfParent))]>
                  nodeMap))
      nodeMap (Heap.children self).
Proof.
  destruct self as [i s c cs]. simpl.
  generalize (Heap.mkLinked (Heap.mkNode i s c cs) selfParent) as parent.
  intros parent. revert nodeMap.
  induction cs as [|child cs IH]; intros nodeMap; simpl; [done|]. apply IH.
Qed.

Lemma buildHeapNodeMap_linked head : forall self selfParent nodeMap,
  tree_chain head (Heap.mkLinked self selfParent) ->
  map_Forall (linked_in head) nodeMap ->
  map_Forall (linked_in head) (_buildHeapNodeMap self selfParent nodeMap).
Proof.
  induction self as [i s c cs IH] using heap_node_ind.
  intros selfParent nodeMap Hself Hmap. rewrite buildHeapNodeMap_unfold.
  simpl Heap.children.
  set (parent := Heap.mkLinked (Heap.mkNode i s c cs) selfParent) in *.
  assert (forall cs' nodeMap,
    Forall (λ child, child ∈ cs) cs' ->
    map_Forall (linked_in head) nodeMap ->
    map_Forall (linked_in head)
      (foldl (λ nodeMap child,
                _buildHeapNodeMap child (Some parent)
                  (<[Heap.id child := Heap.mkLinked child (Some parent)]> nodeMap))
         nodeMap cs')) as Hloop.
  { induction cs' as [|child cs' IHcs']; intros m Hin Hm; simpl; [done|].
    apply Forall_cons in Hin as [Hchild Hin]. apply IHcs'; [done|].
    assert (tree_chain head (Heap.mkLinked child (Some parent))) as Hc
      by (by constructor).
    rewrite Forall_forall in IH. apply IH; [done|done|].
    apply map_Forall_insert_2; [by split|done]. }
  apply Hloop; [|done]. by apply Forall_forall.
Qed.

Lemma heap_node_map_linked head k l :
  heap_node_map head !! k = Some l -> linked_in head k l.
Proof.
  revert k l. apply buildHeapNodeMap_linked; [constructor|].
  apply map_Forall_insert_2; [by split; [constructor|]|].
  apply map_Forall_empty.
Qed.








End HeapLinking.

Section HeapTheorems.
Import Inspector.

Lemma heap_addLocation_total (event : Event) s (g : gmap Z Heap.Linked) :
  is_Some (_addLocation event s g).
Proof. unfold _addLocation. rewrite heap_walk. simpl. eauto. Qed.

(** The sample loop always returns, with one event per sample. *)
Lemma heap_sample_loop_spec harvestSeq start profile now
  (g : gmap Z Heap.Linked) rest : forall i,
  exists events,
    heap_sample_loop harvestSeq start profile now g rest i = Some events /\
    length events = length rest /\
    forall m sample, rest !! m = Some sample ->
      exists e, events !! m = Some e /\
        _addLocation
          (heap_event harvestSeq start profile (i + m)
             (inclusive_size g (Heap.nodeId sample)) (now (i + m)%nat))
          (Heap.nodeId sample) g = Some e.
Proof.
  induction rest as [|sample rest IH]; intros i.
  - exists []. by repeat split.
  - simpl. rewrite calculateInclusiveSize_spec. simpl.
    fold (inclusive_size g (Heap.nodeId sample)).
    destruct (heap_addLocation_total
                (heap_event harvestSeq start profile i
                   (inclusive_size g (Heap.nodeId sample)) (now i))
                (Heap.nodeId sample) g) as [e He].
    rewrite He. simpl.
    destruct (IH (S i)) as (events & -> & Hlen & Hev). simpl.
    eexists. split; [done|]. split; [simpl; lia|].
    intros [|m] sample' Hm; simplify_eq/=.
    + exists e. split; [done|]. by replace (i + 0)%nat with i by lia.
    + destruct (Hev m sample' Hm) as (e' & ? & ?). exists e'. split; [done|].
      by replace (i + S m)%nat with (S i + m)%nat by lia.
Qed.

Lemma heap_event_size harvestSeq start profile i size endTime :
  heap_event harvestSeq start profile i size endTime !! "inuse_space_bytes"
    = Some (VInt size) /\
  heap_event harvestSeq start profile i size endTime
    !! "sample_period_inuse_space_bytes" = Some (VInt size).
Proof.
  unfold heap_event. split.
  - repeat (rewrite lookup_insert_ne by discriminate). apply lookup_insert_eq.
  - repeat (rewrite lookup_insert_ne by discriminate). apply lookup_insert_eq.
Qed.

(** The size attributes of the events of a marshalled heap profile. *)
Lemma heap_marshal_size harvestSeq start profile now :
  exists events,
    _marshalHeapSamplingProfileToEvents harvestSeq start profile now
      = Some events /\
    length events = length (Heap.samples profile) /\
    forall i sample, Heap.samples profile !! i = Some sample ->
      exists e, events !! i = Some e /\
        e !! "inuse_space_bytes"
          = Some (VInt (inclusive_size (heap_node_map (Heap.head profile))
                          (Heap.nodeId sample))) /\
        e !! "sample_period_inuse_space_bytes"
          = Some (VInt (inclusive_size (heap_node_map (Heap.head profile))
                          (Heap.nodeId sample))).
Proof.
  unfold _marshalHeapSamplingProfileToEvents.
  destruct (heap_sample_loop_spec harvestSeq start profile now
              (heap_node_map (Heap.head profile)) (Heap.samples profile) 0%nat)
    as (events & Hev & Hlen & Hspec).
  exists events. split; [done|]. split; [done|].
  intros i sample Hs. destruct (Hspec i sample Hs) as (e & He & Hadd).
  exists e. split; [done|].
  apply addLocation_inv in Hadd as (l & _ & _ & Hother).
  rewrite !Hother by (intros; by apply fixed_key_not_location).
  apply heap_event_size.
Qed.



(** The sizes and stacks of the three samples of [sample_heap_profile], and
    the size of the first sample once the self size of node 2 has grown by
    1000. *)
Example sample_heap_profile_events :
  let events :=
    _marshalHeapSamplingProfileToEvents 4 1000 sample_heap_profile (λ _, 2500) in
  let bumped :=
    _marshalHeapSamplingProfileToEvents 4 1000
      (bump_profile 2 1000 sample_heap_profile) (λ _, 2500) in
  (attr events 0 "inuse_space_bytes", attr events 1 "inuse_space_bytes",
   attr events 2 "inuse_space_bytes", attr bumped 0 "inuse_space_bytes")
  = (Some (VInt 121), Some (VInt 127), Some (VInt 120), Some (VInt 1121)) /\
  (attr events 0 "location.0", attr events 0 "location.1",
   attr events 0 "location.2", attr events 0 "location.3")
  = (Some (VStr "(root):0"), Some (VStr "alloc:3"),
     Some (VStr "(unknown):11"), None) /\
  (attr events 0 "duration_ns", attr events 0 "time_ns",
   attr events 0 "samples_count", attr events 2 "sample_seq")
  = (Some (VInt 1500000), Some (VInt 1000000), Some (VInt 3), Some (VInt 2)).
Proof. vm_compute. repeat split. Qed.

End HeapTheorems.

(** ** The names of the metric attributes *)

Section KeyFacts.
Import Pprof.

Lemma occurs_app c s1 s2 : occurs c (s1 +:+ s2) = occurs c s1 || occurs c s2.
Proof.
  induction s1 as [|c1 s1 IH]; [done|].
  change (String c1 s1 +:+ s2) with (String c1 (s1 +:+ s2)).
  simpl. rewrite IH. by rewrite orb_assoc.
Qed.

Lemma pretty_N_char_digit d : pretty_N_char d ≠ "_"%char.
Proof. unfold pretty_N_char. by repeat case_match. Qed.

Lemma pretty_N_go_occurs x : forall s,
  occurs "_" s = false -> occurs "_" (pretty_N_go x s) = false.
Proof.
  induction (N.lt_wf_0 x) as [x _ IH]; intros s Hs.
  destruct (decide (x = 0)%N) as [->|Hx]; [by rewrite pretty_N_go_0|].
  rewrite pretty_N_go_step by lia. apply IH.
  - apply N.div_lt; lia.
  - simpl. rewrite Hs.
    by rewrite bool_decide_eq_false_2 by apply pretty_N_char_digit.
Qed.

(** A location key has no underscore. *)
Lemma location_key_occurs i : occurs "_" (location_key i) = false.
Proof.
  unfold location_key. rewrite occurs_app. simpl.
  unfold pretty, pretty_nat, pretty, pretty_N.
  case_decide; [done|]. by apply pretty_N_go_occurs.
Qed.

Lemma regex_match_None c :
  regex_match c = None -> c ≠ "_"%char.
Proof.
  unfold regex_match. intros Hm ->. by vm_compute in Hm.
Qed.

(** The replacement keeps an underscore that the string has. *)
Lemma replace_occurs s : occurs "_" s = true -> occurs "_" (replace s) = true.
Proof.
  induction s as [|c s IH]; [done|]. simpl.
  unfold regex_match.
  destruct (White_Space c) eqn:Hw; [by rewrite occurs_app|].
  destruct (L c) eqn:Hl.
  { rewrite occurs_app. simpl. by rewrite orb_false_r. }
  case_bool_decide as Hc.
  - subst c. by rewrite occurs_app.
  - simpl. rewrite bool_decide_eq_false_2 by done. simpl. apply IH.
Qed.

(** A metric name has an underscore: the one between type and unit. *)
Lemma normalize_occurs typeName unitName :
  occurs "_" (_normalizeAttrNameFromSampleValueType typeName unitName) = true.
Proof.
  apply replace_occurs. rewrite !occurs_app. simpl. by rewrite orb_true_r.
Qed.

(** So a metric key is never a location key. *)
Lemma metric_key_not_location profile sampleType i :
  metric_key profile sampleType ≠ location_key i.
Proof.
  intros Heq. pose proof (location_key_occurs i) as Hloc.
  rewrite <- Heq in Hloc. unfold metric_key in Hloc.
  by rewrite normalize_occurs in Hloc.
Qed.

(** A name that starts with a letter is left as it is. *)
Lemma normalize_letter_first c typeName unitName :
  White_Space c = false -> L c = true ->
  _normalizeAttrNameFromSampleValueType (String c typeName) unitName
  = String c typeName +:+ "_" +:+ unitName.
Proof.
  intros Hw Hl. unfold _normalizeAttrNameFromSampleValueType.
  change (String c typeName +:+ "_" +:+ unitName)
    with (String c (typeName +:+ "_" +:+ unitName)).
  simpl. unfold regex_match. by rewrite Hw, Hl.
Qed.

End KeyFacts.

(** C9. The naming function is a pure function of its two strings, but it
    does not normalize every character: the regular expression has no [g]
    flag, so only the first white space, letter or underscore is replaced
    (a letter or an underscore by itself), and it matches no other
    character, so none is removed.  On the type ["alloc space"] and the unit
    ["bytes-per-op"] the code keeps the space and the hyphens; the
    normalisation of the claim gives ["alloc_space_bytesperop"]. *)
Theorem normalize_replaces_first_match_only :
  Pprof._normalizeAttrNameFromSampleValueType "alloc space" "bytes-per-op"
  = "alloc space_bytes-per-op" /\
  claimed_normalize "alloc space" "bytes-per-op" = "alloc_space_bytesperop" /\
  Pprof._normalizeAttrNameFromSampleValueType " wall" "nano seconds"
  = "_wall_nano seconds".
Proof. vm_compute. repeat split. Qed.

(** ** Recording the samples of a pprof profile *)

Section RecordFacts.
Import Pprof.

(** [_cleanupKeys] removes exactly the stale keys, from the attributes and
    from the marks, and flips the mark. *)
Lemma cleanupKeys_spec (attrs : Event) (keys : gmap string Z) val :
  exists attrs' keys',
    _cleanupKeys attrs keys val = (attrs', keys', 1 - val) /\
    forall k,
      attrs' !! k = (if stale keys val k then None else attrs !! k) /\
      keys' !! k = (if stale keys val k then None else keys !! k).
Proof.
  unfold _cleanupKeys.
  set (f := λ (key : string) (mark : Z) '(attrs, keys'),
              if bool_decide (mark ≠ val)
              then (delete key attrs, delete key (keys' : gmap string Z))
              else ((attrs : Event), keys')).
  assert (forall (keys0 m : gmap string Z),
    let r := map_fold f (attrs, keys0) m in
    forall k,
      r.1 !! k = (if stale m val k then None else attrs !! k) /\
      r.2 !! k = (if stale m val k then None else keys0 !! k)) as Hfold.
  { intros keys0. apply (map_fold_weak_ind (λ r m, forall k,
      r.1 !! k = (if stale m val k then None else attrs !! k) /\
      r.2 !! k = (if stale m val k then None else keys0 !! k))).
    - intros k. unfold stale. by rewrite lookup_empty.
    - intros i x m [a b] Hi IH k. specialize (IH k). unfold stale in *.
      simpl in *. destruct (decide (k = i)) as [->|Hne].
      + rewrite lookup_insert_eq, Hi in *. case_bool_decide; simpl.
        * by rewrite !lookup_delete_eq.
        * done.
      + rewrite lookup_insert_ne by done. case_bool_decide; simpl; [|done].
        by rewrite !lookup_delete_ne by done. }
  specialize (Hfold keys keys). simpl in Hfold.
  destruct (map_fold f (attrs, keys) keys) as [attrs' keys'].
  by exists attrs', keys'.
Qed.

(** The value loop writes the metric keys of the sample and marks them
    with [v]; nothing else changes. *)
Lemma value_loop_spec profile values : forall j v (attrs : Event) u attrs' u',
  value_loop profile values j v attrs u = Some (attrs', u') ->
  let keys := metric_key profile
                <$> take (length values) (drop j (sampleType profile)) in
  length keys = length values /\
  (forall k, k ∈ keys -> is_Some (attrs' !! k) /\ u' !! k = Some v) /\
  (forall k, k ∉ keys -> attrs' !! k = attrs !! k /\ u' !! k = u !! k).
Proof.
  induction values as [|x values IH]; intros j v attrs u attrs' u' Hloop.
  - simpl in *. simplify_eq. split; [done|]. split; [|done].
    intros k Hk. by apply elem_of_nil in Hk.
  - simpl in Hloop.
    destruct (sampleType profile !! j) as [st|] eqn:Hst; [|done].
    simpl in Hloop. apply IH in Hloop as (Hlen & Hin & Hout).
    rewrite (drop_S _ _ _ Hst). simpl take. rewrite fmap_cons.
    set (key := metric_key profile st) in *.
    set (keys := metric_key profile
                   <$> take (length values) (drop (S j) (sampleType profile))) in *.
    split; [simpl; by rewrite Hlen|]. split.
    + intros k [->|Hk]%elem_of_cons; [|by apply Hin].
      destruct (decide (key ∈ keys)) as [Hkey|Hkey]; [by apply Hin|].
      destruct (Hout key Hkey) as [-> ->].
      rewrite !lookup_insert_eq. eauto.
    + intros k [Hne Hk]%not_elem_of_cons.
      destruct (Hout k Hk) as [-> ->].
      by rewrite !lookup_insert_ne by done.
Qed.

(** The location loop touches the keys [location.j] of its own indices
    only. *)
Lemma location_loop_other profile ids : forall j (attrs : Event) k,
  (forall m, (j <= m < j + length ids)%nat -> k ≠ location_key m) ->
  location_loop profile ids j attrs !! k = attrs !! k.
Proof.
  induction ids as [|locId ids IH]; intros j attrs k Hk; [done|].
  simpl. rewrite IH by (intros m Hm; apply Hk; simpl; lia).
  assert (k ≠ location_key j) as Hj by (apply Hk; simpl; lia).
  assert ((if truthy (attrs !! location_key j)
           then delete (location_key j) attrs else attrs) !! k = attrs !! k)
    as Hstale.
  { destruct (truthy _); [|done]. by rewrite lookup_delete_ne. }
  destruct (_getLocation profile locId) as [loc|]; [|done].
  destruct (Location.line loc); [done|]. by rewrite lookup_insert_ne.
Qed.

Lemma foldl_delete_lookup (keys : list string) : forall (attrs : Event) k,
  foldl (λ attrs key, delete key attrs) attrs keys !! k
  = if decide (k ∈ keys) then None else attrs !! k.
Proof.
  induction keys as [|key keys IH]; intros attrs k; cbn [foldl].
  - rewrite decide_False; [done|]. apply not_elem_of_nil.
  - rewrite IH. destruct (decide (k ∈ keys)) as [Hk|Hk].
    + rewrite decide_True; [done|]. by right.
    + destruct (decide (k = key)) as [->|Hne].
      * rewrite decide_True by left. apply lookup_delete_eq.
      * rewrite decide_False by (by intros [?|?]%elem_of_cons).
        by rewrite lookup_delete_ne.
Qed.

(** The clearing loop deletes [location.len .. location.(prevLoc - 1)]. *)
Lemma clear_loop_lookup len prevLoc (attrs : Event) k :
  clear_loop len prevLoc attrs !! k
  = if decide (k ∈ location_key <$> seq len (prevLoc - len))
    then None else attrs !! k.
Proof.
  unfold clear_loop.
  rewrite <- (foldl_delete_lookup (location_key <$> seq len (prevLoc - len))).
  by rewrite foldl_fmap.
Qed.

Lemma clear_loop_cleared len prevLoc (attrs : Event) m :
  (len <= m < prevLoc)%nat ->
  clear_loop len prevLoc attrs !! location_key m = None.
Proof.
  intros Hm. rewrite clear_loop_lookup, decide_True; [done|].
  apply list_elem_of_fmap. exists m. split; [done|]. apply elem_of_seq. lia.
Qed.

Lemma clear_loop_None len prevLoc (attrs : Event) k :
  attrs !! k = None -> clear_loop len prevLoc attrs !! k = None.
Proof. intros Hk. rewrite clear_loop_lookup. by case_decide. Qed.

Lemma clear_loop_other len prevLoc (attrs : Event) k :
  (forall m, k ≠ location_key m) ->
  clear_loop len prevLoc attrs !! k = attrs !! k.
Proof.
  intros Hk. rewrite clear_loop_lookup, decide_False; [done|].
  intros (m & -> & _)%list_elem_of_fmap. by apply (Hk m).
Qed.

Lemma metric_keys_not_location profile sample k m :
  k ∈ metric_keys profile sample -> k ≠ location_key m.
Proof.
  intros (st & -> & _)%list_elem_of_fmap. apply metric_key_not_location.
Qed.

End RecordFacts.

Section RecordLoop.
Import Pprof.

(** One sample: how the state after it reads, key by key. *)
Lemma sample_step_spec profile i sample st st' :
  sample_step profile i sample st = Some st' ->
  prevLoc st' = length (Sample.locationId sample) /\
  v st' = 1 - v st /\
  (forall k, k ∈ metric_keys profile sample ->
     u st' !! k = Some (v st) /\ is_Some (attrs st' !! k)) /\
  (forall k, k ∉ metric_keys profile sample ->
     u st' !! k = (if stale (u st) (v st) k then None else u st !! k)) /\
  (forall k, k ∉ metric_keys profile sample ->
     (forall m, k ≠ location_key m) ->
     attrs st' !! k
     = if stale (u st) (v st) k then None
       else <["sample_seq" := VInt (Z.of_nat i)]> (attrs st) !! k) /\
  (forall N, (length (Sample.locationId sample) <= N)%nat ->
     (prevLoc st <= N)%nat -> attrs st !! location_key N = None ->
     attrs st' !! location_key N = None) /\
  (forall N, (length (Sample.locationId sample) <= N < prevLoc st)%nat ->
     attrs st' !! location_key N = None).
Proof.
  unfold sample_step. intros Hstep.
  destruct (value_loop profile (Sample.value sample) 0 (v st)
              (<["sample_seq" := VInt (Z.of_nat i)]> (attrs st)) (u st))
    as [[attrs2 u2]|] eqn:Hvalues; [|done].
  simpl in Hstep.
  apply value_loop_spec in Hvalues as (_ & Hin & Hout).
  rewrite drop_0 in Hin, Hout. fold (metric_keys profile sample) in Hin, Hout.
  destruct (cleanupKeys_spec attrs2 u2 (v st))
    as (attrs3 & u3 & Hclean & Hlookup).
  rewrite Hclean in Hstep. simplify_eq. simpl.
  assert (forall k, k ∈ metric_keys profile sample -> stale u2 (v st) k = false)
    as Hfresh.
  { intros k Hk. destruct (Hin k Hk) as [_ Hu]. unfold stale. rewrite Hu.
    by rewrite bool_decide_eq_false_2 by (by intros ?). }
  assert (forall k, k ∉ metric_keys profile sample ->
            stale u2 (v st) k = stale (u st) (v st) k) as Hsame.
  { intros k Hk. destruct (Hout k Hk) as [_ Hu]. unfold stale. by rewrite Hu. }
  split; [done|]. split; [done|]. split; [|split; [|split; [|split]]].
  - intros k Hk. destruct (Hin k Hk) as [Ha Hu].
    destruct (Hlookup k) as [Ha3 Hu3]. rewrite (Hfresh k Hk) in Ha3, Hu3.
    split; [congruence|].
    rewrite clear_loop_other by (intros m; by eapply metric_keys_not_location).
    rewrite location_loop_other
      by (intros m _; by eapply metric_keys_not_location).
    by rewrite Ha3.
  - intros k Hk. destruct (Hlookup k) as [_ ->]. rewrite (Hsame k Hk).
    by destruct (Hout k Hk) as [_ ->].
  - intros k Hk Hloc. rewrite clear_loop_other by done.
    rewrite location_loop_other by (intros m _; apply Hloc).
    destruct (Hlookup k) as [-> _]. rewrite (Hsame k Hk).
    by destruct (Hout k Hk) as [-> _].
  - intros N Hlen Hprev Hnone. apply clear_loop_None.
    rewrite location_loop_other.
    2:{ intros m Hm Heq%location_key_inj. simpl in Hm. lia. }
    destruct (Hlookup (location_key N)) as [-> _].
    destruct (stale u2 (v st) (location_key N)); [done|].
    assert (location_key N ∉ metric_keys profile sample) as Hk.
    { intros Hk. by eapply metric_keys_not_location. }
    destruct (Hout _ Hk) as [-> _].
    destruct (location_key_head N) as [s Hs]. rewrite Hs in *.
    by rewrite lookup_insert_ne by discriminate.
  - intros N HN. by apply clear_loop_cleared.
Qed.

(** An invariant of the sample loop holds of the attributes of every
    call. *)
Lemma sample_loop_inv (Inv : nat -> State -> Prop) eventType profile
  destination :
  (forall j s st st',
     sample profile !! j = Some s -> Inv j st ->
     sample_step profile j s st = Some st' -> Inv (S j) st') ->
  forall rest i st,
    drop i (sample profile) = rest -> Inv i st ->
    forall m ty e,
      (sample_loop eventType profile destination rest i st).1 !! m
        = Some (ty, e) ->
      ty = eventType /\ destination = DESTINATION_TYPE_INGEST_MELT /\
      exists st', Inv (S (i + m)) st' /\ e = attrs st'.
Proof.
  intros Hstep. induction rest as [|s rest IH]; intros i st Hdrop Hinv m ty e He.
  - done.
  - assert (sample profile !! i = Some s) as Hs.
    { pose proof (lookup_drop (sample profile) i 0) as Hl.
      rewrite Hdrop, Nat.add_0_r in Hl. done. }
    assert (drop (S i) (sample profile) = rest) as Hdrop'.
    { replace (S i) with (i + 1)%nat by lia.
      rewrite <- drop_drop, Hdrop. done. }
    simpl in He.
    destruct (sample_step profile i s st) as [st'|] eqn:Hst; [|done].
    pose proof (Hstep i s st st' Hs Hinv Hst) as Hinv'.
    specialize (IH (S i) st' Hdrop' Hinv').
    destruct (sample_loop eventType profile destination rest (S i) st')
      as [calls c] eqn:Hloop.
    simpl in *.
    destruct (Z.eqb_spec destination DESTINATION_TYPE_INGEST_MELT) as [->|Hd].
    + destruct m as [|m]; simpl in He.
      * simplify_eq. split; [done|]. split; [done|]. exists st'.
        by rewrite Nat.add_0_r.
      * destruct (IH m ty e He) as (? & ? & st'' & ? & ?).
        split; [done|]. split; [done|]. exists st''.
        by replace (i + S m)%nat with (S i + m)%nat by lia.
    + simpl in He. by destruct (IH m ty e He) as (_ & ? & _).
Qed.

Lemma initial_attrs_location harvestSeq profile periodType N :
  initial_attrs harvestSeq profile periodType !! location_key N = None.
Proof.
  unfold initial_attrs. destruct (location_key_head N) as [s ->].
  change ("sample_period_" +:+ metric_key profile periodType)
    with (String "s" ("ample_period_" +:+ metric_key profile periodType)).
  by repeat (rewrite lookup_insert_ne by discriminate).
Qed.

Lemma width_bounded_step profile j s st st' :
  sample profile !! j = Some s -> width_bounded profile j st ->
  sample_step profile j s st = Some st' ->
  width_bounded profile (S j) st'.
Proof.
  intros Hs [Hnone _] Hstep.
  apply sample_step_spec in Hstep as (Hlen & _ & _ & _ & _ & Hkeep & Hclear).
  split.
  - intros N HN. rewrite Hlen in HN.
    destruct (decide (prevLoc st <= N)%nat) as [Hle|Hgt].
    + apply Hkeep; [done|done|]. by apply Hnone.
    + apply Hclear. lia.
  - simpl. intros s' Hs' _. by simplify_eq.
Qed.

Lemma keys_tracked_step profile j s st st' :
  sample profile !! j = Some s -> keys_tracked profile j st ->
  sample_step profile j s st = Some st' ->
  keys_tracked profile (S j) st'.
Proof.
  intros Hs (Hmarks & Hprev & Hold) Hstep.
  apply sample_step_spec in Hstep as (_ & Hv & Hin & Hu & Hattrs & _ & _).
  unfold keys_tracked. simpl prev_keys. rewrite Hs. simpl.
  assert (forall k, k ∈ prev_keys profile j ->
            k ∉ metric_keys profile s -> stale (u st) (v st) k = true)
    as Hstale.
  { intros k Hk _. destruct (Hprev k Hk) as [[mark Hmark] _].
    destruct (Hmarks k mark Hmark) as [-> _]. unfold stale. rewrite Hmark.
    apply bool_decide_eq_true_2. lia. }
  split; [|split].
  - intros k mark Hmark.
    destruct (decide (k ∈ metric_keys profile s)) as [Hk|Hk].
    + destruct (Hin k Hk) as [Hk' _]. split; [|done].
      rewrite Hk' in Hmark. simplify_eq. lia.
    + rewrite (Hu k Hk) in Hmark. unfold stale in Hmark.
      destruct (u st !! k) as [mark'|] eqn:Hmark'; [|done].
      destruct (Hmarks k mark' Hmark') as [-> _].
      rewrite bool_decide_eq_true_2 in Hmark by lia. done.
  - intros k Hk. destruct (Hin k Hk) as [-> ?]. eauto.
  - intros m other k Hm Hother Hk Hnot.
    rewrite Hattrs; [|done|intros m'; by eapply metric_keys_not_location].
    destruct (stale (u st) (v st) k) eqn:Hst; [by left|].
    destruct (decide (k = "sample_seq")) as [->|Hne].
    { right. split; [done|]. by rewrite lookup_insert_eq. }
    left. rewrite lookup_insert_ne by done.
    destruct (decide (m = j)) as [->|Hmj]; [by simplify_eq|].
    destruct (decide (k ∈ prev_keys profile j)) as [Hp|Hp].
    { by rewrite (Hstale k Hp Hnot) in Hst. }
    destruct (Hold m other k) as [?|[? _]]; [lia|done..].
Qed.

End RecordLoop.

Section RecordTheorems.
Import Pprof.

(** The value loop returns when the profile declares a type for every
    value. *)
Lemma value_loop_total profile values : forall j val (attrs : Event) u,
  (j + length values <= length (sampleType profile))%nat ->
  is_Some (value_loop profile values j val attrs u).
Proof.
  induction values as [|x values IH]; intros j val attrs u Hlen; simpl.
  - eauto.
  - simpl in Hlen.
    destruct (lookup_lt_is_Some_2 (sampleType profile) j) as [st ->]; [lia|].
    simpl. apply IH. lia.
Qed.

(** With the ingest destination and a type for every value, every sample
    is recorded by one call. *)
Lemma sample_loop_complete eventType profile rest : forall i st,
  Forall (λ s, (length (Sample.value s) <= length (sampleType profile))%nat)
         rest ->
  exists calls,
    sample_loop eventType profile DESTINATION_TYPE_INGEST_MELT rest i st
      = (calls, Returned) /\
    length calls = length rest.
Proof.
  induction rest as [|s rest IH]; intros i st Hall; simpl.
  - by exists [].
  - apply Forall_cons in Hall as [Hs Hall]. unfold sample_step.
    destruct (value_loop_total profile (Sample.value s) 0 (v st)
                (<["sample_seq" := VInt (Z.of_nat i)]> (attrs st)) (u st))
      as [[attrs2 u2] ->]; [simpl; lia|].
    simpl.
    destruct (cleanupKeys_spec attrs2 u2 (v st)) as (attrs3 & u3 & -> & _).
    match goal with
    | |- context [sample_loop _ _ _ rest (S i) ?st'] =>
        destruct (IH (S i) st' Hall) as (calls & -> & Hlen)
    end.
    eexists. split; [done|]. simpl. by rewrite Hlen.
Qed.

Lemma recordSamples_complete eventType harvestSeq profile pt :
  periodType profile = Some pt ->
  Forall (λ s, (length (Sample.value s) <= length (sampleType profile))%nat)
         (sample profile) ->
  exists calls,
    _recordSamples eventType harvestSeq profile DESTINATION_TYPE_INGEST_MELT
      = (calls, Returned) /\
    length calls = length (sample profile).
Proof.
  intros Hpt Hall. unfold _recordSamples. rewrite Hpt.
  by apply sample_loop_complete.
Qed.

(** The records of [sample_pprof_profile]: the second record has lost the
    locations 1 and 2 and the second metric of the first; the third has no
    location 0, whose location id the profile does not know. *)
Example sample_pprof_profile_records :
  let calls := (_recordSamples "ProfileCPU" 3 sample_pprof_profile
                  DESTINATION_TYPE_INGEST_MELT).1 in
  length calls = 3%nat /\
  (recorded calls 0 "location.0", recorded calls 0 "location.1",
   recorded calls 0 "location.2", recorded calls 0 "samples_count",
   recorded calls 0 "wall_nanoseconds")
  = (Some (VStr "main:10"), Some (VStr "work:20"), Some (VStr "(unknown):30"),
     Some (VInt 10), Some (VInt 20)) /\
  (recorded calls 1 "location.0", recorded calls 1 "location.1",
   recorded calls 1 "location.2", recorded calls 1 "samples_count",
   recorded calls 1 "wall_nanoseconds")
  = (Some (VStr "work:20"), None, None, Some (VInt 7), None) /\
  (recorded calls 2 "location.0", recorded calls 2 "location.1",
   recorded calls 2 "location.2", recorded calls 2 "samples_count",
   recorded calls 2 "wall_nanoseconds")
  = (None, Some (VStr "main:10"), None, Some (VInt 5), Some (VInt 6)) /\
  (recorded calls 2 "harvest_seq", recorded calls 2 "sample_seq",
   recorded calls 2 "time_ns", recorded calls 2 "duration_ns",
   recorded calls 2 "sample_period_wall_nanoseconds")
  = (Some (VInt 3), Some (VInt 2), Some (VInt 111), Some (VInt 222),
     Some (VInt 1000)).
Proof. vm_compute. repeat split. Qed.

(** A marshalled CPU profile is one whose walks all end. *)
Lemma cpu_sample_loop_walks_end harvestSeq profile (g : gmap Z Inspector.Node)
  rest : forall i count sum events,
  Inspector.cpu_sample_loop harvestSeq profile g rest i count sum = Some events ->
  Forall (λ s, exists l, Inspector.parent_chain g (g !! s) l) rest.
Proof.
  induction rest as [|s rest IH]; intros i count sum events Hloop;
    [constructor|].
  simpl in Hloop.
  destruct (Inspector.cpu_delta _ i count sum) as [[delta count'] sum'].
  destruct (Inspector._addLocation _ s g) as [e|] eqn:Hadd; [|done].
  simpl in Hloop.
  destruct (Inspector.cpu_sample_loop harvestSeq profile g rest (S i) count' sum')
    as [events'|] eqn:Hrest; [|done].
  constructor; [|by eapply IH].
  apply addLocation_inv in Hadd as (l & Hl & _). by exists l.
Qed.

Lemma width_bounded_initial harvestSeq profile pt :
  width_bounded profile 0
    (mkState (initial_attrs harvestSeq profile pt) ∅ 0 0).
Proof.
  split; simpl.
  - intros N _. apply initial_attrs_location.
  - intros s _ H. lia.
Qed.

Lemma keys_tracked_initial harvestSeq profile pt :
  keys_tracked profile 0
    (mkState (initial_attrs harvestSeq profile pt) ∅ 0 0).
Proof.
  split; [|split]; simpl.
  - intros k mark Hk. by rewrite lookup_empty in Hk.
  - intros k Hk. by apply elem_of_nil in Hk.
  - intros m other k Hm. lia.
Qed.

(** An invariant of the state holds of the attributes of every call of
    [_recordSamples]. *)
Lemma recordSamples_inv (Inv : nat -> State -> Prop) eventType harvestSeq
  profile destination i ty e :
  (forall pt, Inv 0%nat (mkState (initial_attrs harvestSeq profile pt) ∅ 0 0)) ->
  (forall j s st st',
     sample profile !! j = Some s -> Inv j st ->
     sample_step profile j s st = Some st' -> Inv (S j) st') ->
  (_recordSamples eventType harvestSeq profile destination).1 !! i
    = Some (ty, e) ->
  ty = eventType /\ destination = DESTINATION_TYPE_INGEST_MELT /\
  exists st', Inv (S i) st' /\ e = attrs st'.
Proof.
  intros Hinit Hstep He. unfold _recordSamples in He.
  destruct (periodType profile) as [pt|]; [|done].
  exact (sample_loop_inv Inv eventType profile destination Hstep
           (sample profile) 0%nat _ (drop_0 _) (Hinit pt) i ty e He).
Qed.

(** C4. No record carries a location key at or beyond the depth of its own
    stack.  In the pprof profiler, where one attribute object is reused for
    all samples of a profile, this holds of the attributes at the moment of
    every call of [recordCustomEvent], however deep the stack of the sample
    before was: the keys from the own depth up to the previous depth are
    deleted before the call.  In the inspector profiler every event is a
    new object, and [_addLocation] writes the keys below the depth only. *)
Theorem record_width_bound :
  (forall eventType harvestSeq profile destination i ty e s,
     (_recordSamples eventType harvestSeq profile destination).1 !! i
       = Some (ty, e) ->
     sample profile !! i = Some s ->
     forall N, (length (Sample.locationId s) <= N)%nat ->
       e !! location_key N = None) /\
  (forall harvestSeq profile events i s e,
     Inspector._marshalCpuProfileToEvents harvestSeq profile = Some events ->
     Inspector.samples profile !! i = Some s ->
     events !! i = Some e ->
     exists l,
       Inspector.parent_chain (Inspector.cpu_node_map profile)
         (Inspector.cpu_node_map profile !! s) l /\
       forall N, (length l <= N)%nat -> e !! location_key N = None).
Proof.
  split.
  - intros eventType harvestSeq profile destination i ty e s He Hs N HN.
    destruct (recordSamples_inv (width_bounded profile) eventType harvestSeq
                profile destination i ty e
                (width_bounded_initial harvestSeq profile)
                (width_bounded_step profile) He)
      as (_ & _ & st' & [Hnone Hdepth] & ->).
    apply Hnone. rewrite (Hdepth s); [done|done|simpl; lia].
  - intros harvestSeq profile events i s e Hev Hs He.
    assert (cpu_walks_end profile) as Hfin
      by (by eapply cpu_sample_loop_walks_end).
    destruct (cpu_marshal_spec harvestSeq profile Hfin)
      as (events' & Hev' & _ & Hspec).
    simplify_eq. destruct (Hspec i s Hs) as (e' & He' & Hadd). simplify_eq.
    apply addLocation_inv in Hadd as (l & Hl & _ & Hother).
    exists l. split; [done|]. intros N HN. rewrite Hother.
    + apply cpu_event_location.
    + intros m Hm Heq%location_key_inj. lia.
Qed.

Lemma record_width_bound_witness :
  exists e,
    (_recordSamples "ProfileCPU" 0 sample_pprof_profile
       DESTINATION_TYPE_INGEST_MELT).1 !! 1%nat = Some ("ProfileCPU", e) /\
    e !! location_key 1 = None /\ e !! location_key 2 = None.
Proof.
  destruct (recordSamples_complete "ProfileCPU" 0 sample_pprof_profile
              (ValueType.mk 3 4) eq_refl) as (calls & Hcalls & Hlen).
  { repeat constructor. }
  destruct calls as [|c0 [|[ty e] calls]]; [done..|].
  assert ((_recordSamples "ProfileCPU" 0 sample_pprof_profile
             DESTINATION_TYPE_INGEST_MELT).1 !! 1%nat = Some (ty, e)) as He
    by (by rewrite Hcalls).
  destruct (recordSamples_inv (λ _ _, True) "ProfileCPU" 0
              sample_pprof_profile DESTINATION_TYPE_INGEST_MELT 1%nat ty e
              (λ _, I) (λ _ _ _ _ _ _ _, I) He)
    as (-> & _).
  exists e. split; [done|].
  destruct record_width_bound as [Hpprof _].
  split; eapply (Hpprof _ _ _ _ 1%nat _ e (Sample.mk [2] [7]) He eq_refl);
    simpl; lia.
Defined.

(** C7. At the moment of every call of [recordCustomEvent], the metric
    keys on the reused attribute object are those written for the current
    sample: each of them is an attribute, and a metric key written for an
    earlier sample that is not a metric key of the current one is no
    attribute of the record ([_cleanupKeys] has deleted it, by its stale
    mark).  The one name under which such a key can be met again is
    ["sample_seq"], which every iteration sets to the index of its sample
    before the metric keys are written: it then holds that index, not the
    old metric. *)
Theorem no_stale_metric_key eventType harvestSeq profile destination i ty e s :
  (_recordSamples eventType harvestSeq profile destination).1 !! i
    = Some (ty, e) ->
  sample profile !! i = Some s ->
  (forall k, k ∈ metric_keys profile s -> is_Some (e !! k)) /\
  (forall m other k,
     (m < i)%nat -> sample profile !! m = Some other ->
     k ∈ metric_keys profile other -> k ∉ metric_keys profile s ->
     e !! k = None \/
     (k = "sample_seq" /\ e !! k = Some (VInt (Z.of_nat i)))).
Proof.
  intros He Hs.
  destruct (recordSamples_inv (keys_tracked profile) eventType harvestSeq
              profile destination i ty e
              (keys_tracked_initial harvestSeq profile)
              (keys_tracked_step profile) He)
    as (_ & _ & st' & (_ & Hcur & Hold) & ->).
  simpl in Hcur, Hold. rewrite Hs in Hcur, Hold. simpl in Hcur, Hold.
  split.
  - intros k Hk. by destruct (Hcur k Hk).
  - intros m other k Hm Hother Hk Hnot.
    apply (Hold m other k); [lia|done..].
Qed.

Lemma no_stale_metric_key_witness :
  exists e,
    (_recordSamples "ProfileCPU" 0 sample_pprof_profile
       DESTINATION_TYPE_INGEST_MELT).1 !! 1%nat = Some ("ProfileCPU", e) /\
    is_Some (e !! "samples_count") /\
    e !! "wall_nanoseconds" = None.
Proof.
  destruct (recordSamples_complete "ProfileCPU" 0 sample_pprof_profile
              (ValueType.mk 3 4) eq_refl) as (calls & Hcalls & Hlen).
  { repeat constructor. }
  destruct calls as [|c0 [|[ty e] calls]]; [done..|].
  assert ((_recordSamples "ProfileCPU" 0 sample_pprof_profile
             DESTINATION_TYPE_INGEST_MELT).1 !! 1%nat = Some (ty, e)) as He
    by (by rewrite Hcalls).
  destruct (no_stale_metric_key "ProfileCPU" 0 sample_pprof_profile
              DESTINATION_TYPE_INGEST_MELT 1%nat ty e (Sample.mk [2] [7])
              He eq_refl) as [Hcur Hold].
  destruct (recordSamples_inv (λ _ _, True) "ProfileCPU" 0
              sample_pprof_profile DESTINATION_TYPE_INGEST_MELT 1%nat ty e
              (λ _, I) (λ _ _ _ _ _ _ _, I) He)
    as (-> & _).
  exists e. split; [done|]. split.
  - apply Hcur. vm_compute. left.
  - destruct (Hold 0%nat (Sample.mk [1; 2; 3] [10; 20]) "wall_nanoseconds")
      as [Hnone|[Hseq _]]; [lia|done|..|done|done].
    + vm_compute. right. left.
    + vm_compute. intros [Heq|Hin]%elem_of_cons; [done|].
      by apply elem_of_nil in Hin.
Defined.

End RecordTheorems.

(** ** The harvest sequence of the pprof profiler *)

Section PprofHarvest.
Import Pprof.

Lemma keeps_ret {A} (a : A) : keeps_seq (mret a).
Proof. by intros w. Qed.

Lemma keeps_throw {A} : keeps_seq (@throw A).
Proof. by intros w. Qed.

Lemma keeps_this : keeps_seq this.
Proof. by intros w. Qed.

Lemma keeps_call e : keeps_seq (call e).
Proof. by intros w. Qed.

Lemma keeps_bind {A B} (m : M A) (f : A -> M B) :
  keeps_seq m -> (forall a, keeps_seq (f a)) -> keeps_seq (m ≫= f).
Proof.
  intros Hm Hf w. unfold mbind, M_bind. specialize (Hm w).
  destruct (m w) as [[a|] w']; simpl in *; [|done].
  by rewrite Hf.
Qed.

Lemma keeps_call_if ok e : keeps_seq (call_if ok e).
Proof.
  unfold call_if. destruct ok; [apply keeps_call|].
  apply keeps_bind; [apply keeps_call|intros; apply keeps_throw].
Qed.

Lemma keeps_update f :
  (forall p, harvestSeq (f p) = harvestSeq p) -> keeps_seq (update f).
Proof. intros Hf w. simpl. apply Hf. Qed.

Lemma keeps_when c m : keeps_seq m -> keeps_seq (when c m).
Proof. intros Hm. destruct c; [done|apply keeps_ret]. Qed.

Lemma keeps_file ok file :
  keeps_seq (write_file ok file) /\ keeps_seq (close_file ok file).
Proof.
  split; destruct file; simpl; try apply keeps_call_if; apply keeps_throw.
Qed.

Lemma keeps_take_snapshot e env : keeps_seq (take_snapshot e env).
Proof.
  unfold take_snapshot. destruct (snapshot env).
  - apply keeps_bind; [apply keeps_call|intros; apply keeps_ret].
  - apply keeps_bind; [apply keeps_call|intros; apply keeps_throw].
Qed.

Lemma keeps_record_samples eventType h profile dest :
  keeps_seq (record_samples eventType h profile dest).
Proof.
  unfold record_samples.
  destruct (_recordSamples eventType h profile dest) as [calls c].
  induction calls as [|[ty e] calls IH]; simpl.
  - destruct c; [apply keeps_ret|apply keeps_throw].
  - apply keeps_bind; [apply keeps_call|intros; apply IH].
Qed.

Ltac keeps :=
  repeat first
    [ apply keeps_ret | apply keeps_throw | apply keeps_this
    | apply keeps_call | apply keeps_call_if | apply keeps_take_snapshot
    | apply keeps_record_samples
    | apply (proj1 (keeps_file _ _)) | apply (proj2 (keeps_file _ _))
    | apply keeps_update; intros; reflexivity
    | apply keeps_bind; [|intros]
    | match goal with
      | |- keeps_seq (if ?c then _ else _) => destruct c
      | |- keeps_seq (match ?x with _ => _ end) => destruct x
      end ].

(** A harvest, successful or not, leaves the sequence number as it is; the
    timer callback is what increments it. *)
Lemma collect_keeps_seq t : keeps_seq (collect t).
Proof.
  destruct t as [env|env]; simpl;
    [unfold _collectCpuSamples|unfold _collectHeapSamples]; keeps.
Qed.

Lemma fire_unfold t :
  fire t = try_catch (collect t ;; update (λ p, set_harvestSeq (harvestSeq p + 1) p))
             (call LogError).
Proof. by destruct t. Qed.

(** One firing of a timer: the callback never throws, and the sequence
    number grows by one exactly when the harvest succeeds. *)
Lemma fire_spec t w :
  (fire t w).1 = Ok () /\
  harvestSeq (profiler (fire t w).2)
  = harvestSeq (profiler w) + (if succeeds t w then 1 else 0).
Proof.
  rewrite fire_unfold. unfold succeeds, try_catch, mbind, M_bind.
  pose proof (collect_keeps_seq t w) as Hkeep.
  destruct (collect t w) as [[[]|] w']; simpl in *.
  - split; [done|]. by rewrite Hkeep.
  - split; [done|]. rewrite Hkeep. lia.
Qed.

Lemma run_harvestSeq ts : forall w,
  harvestSeq (profiler (run ts w))
  = harvestSeq (profiler w) + Z.of_nat (successes (λ _, true) ts w).
Proof.
  induction ts as [|t ts IH]; intros w; simpl; [lia|].
  rewrite IH. destruct (fire_spec t w) as [_ ->].
  destruct (succeeds t w); lia.
Qed.

Lemma successes_split ts : forall w,
  successes (λ _, true) ts w
  = (successes is_cpu ts w + successes is_heap ts w)%nat.
Proof.
  induction ts as [|t ts IH]; intros w; simpl; [done|].
  rewrite IH. unfold is_heap. destruct (is_cpu t), (succeeds t w); simpl; lia.
Qed.

End PprofHarvest.

Section PprofRecords.
Import Pprof.

(** [record_samples] appends the calls of [_recordSamples] to the trace and
    ends as it ends. *)
Lemma record_samples_run eventType h profile dest w :
  record_samples eventType h profile dest w
  = (match (_recordSamples eventType h profile dest).2 with
     | Returned => Ok ()
     | Thrown => Throw
     end,
     mkWorld (profiler w) (engines w)
       (trace w ++ (as_effect <$> (_recordSamples eventType h profile dest).1))).
Proof.
  unfold record_samples.
  destruct (_recordSamples eventType h profile dest) as [calls c]. simpl.
  revert w. induction calls as [|[ty e] calls IH]; intros [p en t]; simpl.
  - rewrite app_nil_r. by destruct c.
  - unfold mbind, M_bind, call at 1. simpl. rewrite IH. simpl.
    by rewrite <- app_assoc.
Qed.

(** As long as no metric is named [harvest_seq], every record carries the
    sequence number that [_recordSamples] was called with. *)
Lemma recordSamples_harvest_seq eventType h profile dest ty e :
  (forall s, s ∈ sample profile -> "harvest_seq" ∉ metric_keys profile s) ->
  (ty, e) ∈ (_recordSamples eventType h profile dest).1 ->
  ty = eventType /\ e !! "harvest_seq" = Some (VInt h).
Proof.
  intros Hkeys [i Hi]%list_elem_of_lookup.
  destruct (recordSamples_inv
              (λ _ st, attrs st !! "harvest_seq" = Some (VInt h) /\
                       u st !! "harvest_seq" = None)
              eventType h profile dest i ty e) as (-> & _ & st' & [Hst' _] & ->);
    [..|done|done].
  - intros pt. simpl. split; [|done]. unfold initial_attrs.
    apply lookup_insert_eq.
  - intros j s st st' Hs [Ha Hu] Hstep.
    apply sample_step_spec in Hstep as (_ & _ & _ & Hu' & Hattrs & _).
    assert ("harvest_seq" ∉ metric_keys profile s) as Hk.
    { apply Hkeys. by eapply list_elem_of_lookup_2. }
    assert (stale (u st) (v st) "harvest_seq" = false) as Hstale
      by (unfold stale; by rewrite Hu).
    rewrite (Hu' _ Hk), Hattrs, Hstale; [|done|].
    + by rewrite lookup_insert_ne.
    + intros m. destruct (location_key_head m) as [x ->]. discriminate.
Qed.

Lemma recorded_seqs_app eventType t1 t2 :
  recorded_seqs eventType (t1 ++ t2)
  = recorded_seqs eventType t1 ++ recorded_seqs eventType t2.
Proof. apply omap_app. Qed.

Lemma recorded_seqs_calls eventType h (calls : list (string * Event)) :
  (forall ty e, (ty, e) ∈ calls ->
     ty = eventType /\ e !! "harvest_seq" = Some (VInt h)) ->
  recorded_seqs eventType (as_effect <$> calls)
  = replicate (length calls) (Some (VInt h)).
Proof.
  induction calls as [|[ty e] calls IH]; intros Hcalls; [done|].
  destruct (Hcalls ty e) as [-> He]; [left|].
  unfold recorded_seqs in *. simpl. rewrite String.eqb_refl, He. f_equal.
  apply IH. intros ty' e' Hin. apply Hcalls. by right.
Qed.

(** The events of a CPU harvest to the ingest destination carry the
    sequence number that the profiler has when the timer fires. *)
Lemma cpu_harvest_seqs env profile w :
  selected (selectedProfiles (profiler w)) PROFILING_TYPE_CPU = true ->
  destination (profiler w) = DESTINATION_TYPE_INGEST_MELT ->
  snapshot env = Some profile ->
  (forall s, s ∈ sample profile -> "harvest_seq" ∉ metric_keys profile s) ->
  recorded_seqs "ProfileCPU" (trace (fire (CpuTrigger env) w).2)
  = recorded_seqs "ProfileCPU" (trace w)
    ++ replicate
         (length (_recordSamples "ProfileCPU" (harvestSeq (profiler w)) profile
                    DESTINATION_TYPE_INGEST_MELT).1)
         (Some (VInt (harvestSeq (profiler w)))).
Proof.
  intros Hsel Hdest Hsnap Hkeys. simpl.
  unfold _harvestCpuSamples, try_catch, _collectCpuSamples, take_snapshot.
  unfold mbind, M_bind, this. simpl. rewrite Hsel, Hdest, Hsnap. simpl.
  rewrite record_samples_run. simpl.
  set (r := _recordSamples "ProfileCPU" (harvestSeq (profiler w)) profile
              DESTINATION_TYPE_INGEST_MELT).
  assert (recorded_seqs "ProfileCPU" (as_effect <$> r.1)
          = replicate (length r.1) (Some (VInt (harvestSeq (profiler w)))))
    as Hrec.
  { apply recorded_seqs_calls. intros ty e Hin.
    by eapply recordSamples_harvest_seq. }
  destruct r.2; simpl; rewrite !recorded_seqs_app, Hrec; simpl;
    by rewrite !app_nil_r.
Qed.

End PprofRecords.

(** ** The harvest sequence of the inspector profiler *)

Section InspectorHarvest.
Import Inspector.

Lemma cpu_event_harvest_seq harvestSeq profile i delta :
  cpu_event harvestSeq profile i delta !! "harvest_seq" = Some (VInt harvestSeq).
Proof. unfold cpu_event. apply lookup_insert_eq. Qed.

Lemma heap_event_harvest_seq harvestSeq start profile i size endTime :
  heap_event harvestSeq start profile i size endTime !! "harvest_seq"
  = Some (VInt harvestSeq).
Proof. unfold heap_event. apply lookup_insert_eq. Qed.

(** Every event of a marshalled CPU profile carries the sequence number
    that the marshaller was called with. *)
Lemma cpu_marshal_harvest_seq harvestSeq profile events e :
  _marshalCpuProfileToEvents harvestSeq profile = Some events ->
  e ∈ events -> e !! "harvest_seq" = Some (VInt harvestSeq).
Proof.
  intros Hev [i He]%list_elem_of_lookup.
  assert (cpu_walks_end profile) as Hfin
    by (by eapply cpu_sample_loop_walks_end).
  destruct (cpu_marshal_spec harvestSeq profile Hfin)
    as (events' & Hev' & Hlen & Hspec).
  simplify_eq.
  destruct (lookup_lt_is_Some_2 (samples profile) i) as [s Hs].
  { rewrite <- Hlen. by eapply lookup_lt_Some. }
  destruct (Hspec i s Hs) as (e' & He' & Hadd). simplify_eq.
  apply addLocation_inv in Hadd as (l & _ & _ & Hother).
  rewrite Hother by (intros; by apply fixed_key_not_location).
  apply cpu_event_harvest_seq.
Qed.

Lemma heap_marshal_harvest_seq harvestSeq start profile now events e :
  _marshalHeapSamplingProfileToEvents harvestSeq start profile now
    = Some events ->
  e ∈ events -> e !! "harvest_seq" = Some (VInt harvestSeq).
Proof.
  intros Hev [i He]%list_elem_of_lookup.
  unfold _marshalHeapSamplingProfileToEvents in Hev.
  destruct (heap_sample_loop_spec harvestSeq start profile now
              (heap_node_map (Heap.head profile)) (Heap.samples profile) 0%nat)
    as (events' & Hev' & Hlen & Hspec).
  simplify_eq.
  destruct (lookup_lt_is_Some_2 (Heap.samples profile) i) as [s Hs].
  { rewrite <- Hlen. by eapply lookup_lt_Some. }
  destruct (Hspec i s Hs) as (e' & He' & Hadd). simplify_eq.
  apply addLocation_inv in Hadd as (l & _ & _ & Hother).
  rewrite Hother by (intros; by apply fixed_key_not_location).
  apply heap_event_harvest_seq.
Qed.

Lemma inspector_recorded_seqs_app eventType t1 t2 :
  inspector_recorded_seqs eventType (t1 ++ t2)
  = inspector_recorded_seqs eventType t1 ++ inspector_recorded_seqs eventType t2.
Proof. apply omap_app. Qed.

(** Recording a list of events appends one effect per event. *)
Lemma record_events_run eventType events w :
  record_events eventType events w
  = mkWorld (profiler w) (engines w)
      (trace w ++ (RecordCustomEvent eventType <$> events)).
Proof.
  unfold record_events. revert w.
  induction events as [|e events IH]; intros [p en t]; simpl.
  - by rewrite app_nil_r.
  - rewrite IH. simpl. by rewrite <- app_assoc.
Qed.

Lemma inspector_recorded_seqs_events eventType h (events : list Event) :
  (forall e, e ∈ events -> e !! "harvest_seq" = Some (VInt h)) ->
  inspector_recorded_seqs eventType (RecordCustomEvent eventType <$> events)
  = replicate (length events) (Some (VInt h)).
Proof.
  induction events as [|e events IH]; intros Hall; [done|].
  unfold inspector_recorded_seqs in *. simpl.
  rewrite String.eqb_refl, (Hall e) by left. f_equal.
  apply IH. intros e' Hin. apply Hall. by right.
Qed.

(** One CPU harvest of the inspector profiler: the sequence number grows by
    one exactly when the profile was handed out and the engine started
    again, and the events carry the number from before the harvest. *)
Lemma inspector_cpu_harvest env w w' :
  _collectCpuSamples env w = Some w' ->
  harvestSeq (profiler w')
  = harvestSeq (profiler w)
    + (if bool_decide (is_Some (cpu_profile env)) && negb (restart_fails env)
       then 1 else 0) /\
  exists n,
    inspector_recorded_seqs "ProfileCPU" (trace w')
    = inspector_recorded_seqs "ProfileCPU" (trace w)
      ++ replicate n (Some (VInt (harvestSeq (profiler w)))).
Proof.
  unfold _collectCpuSamples. intros Hcollect.
  destruct (cpu_profile env) as [profile|]; simpl in *.
  - destruct (_marshalCpuProfileToEvents (harvestSeq (profiler w)) profile)
      as [events|] eqn:Hev; [|done].
    simpl in Hcollect. rewrite record_events_run in Hcollect.
    unfold post in Hcollect. simpl in Hcollect.
    assert (inspector_recorded_seqs "ProfileCPU"
              (RecordCustomEvent "ProfileCPU" <$> events)
            = replicate (length events) (Some (VInt (harvestSeq (profiler w)))))
      as Hrec.
    { apply inspector_recorded_seqs_events. intros e He.
      by eapply cpu_marshal_harvest_seq. }
    destruct (restart_fails env); simplify_eq; simpl.
    + split; [lia|]. exists (length events).
      rewrite !inspector_recorded_seqs_app, Hrec. simpl.
      by rewrite !app_nil_r.
    + split; [done|]. exists (length events).
      rewrite !inspector_recorded_seqs_app, Hrec. simpl.
      by rewrite !app_nil_r.
  - simplify_eq. simpl. split; [lia|]. exists 0%nat.
    rewrite !inspector_recorded_seqs_app. simpl. by rewrite !app_nil_r.
Qed.

(** One heap harvest of the inspector profiler. *)
Lemma inspector_heap_harvest env w w' :
  _collectHeapSamples env w = Some w' ->
  harvestSeq (profiler w')
  = harvestSeq (profiler w)
    + (if bool_decide (is_Some (heap_profile env)) then 1 else 0) /\
  exists n,
    inspector_recorded_seqs "ProfileHeap" (trace w')
    = inspector_recorded_seqs "ProfileHeap" (trace w)
      ++ replicate n (Some (VInt (harvestSeq (profiler w)))).
Proof.
  unfold _collectHeapSamples. intros Hcollect.
  destruct (heap_profile env) as [profile|]; simpl in *.
  - destruct (_marshalHeapSamplingProfileToEvents (harvestSeq (profiler w))
                (heapSampleStartTime (profiler w)) profile (clock env))
      as [events|] eqn:Hev; [|done].
    simpl in Hcollect. rewrite record_events_run in Hcollect.
    simplify_eq. simpl. split; [done|]. exists (length events).
    rewrite !inspector_recorded_seqs_app. simpl. rewrite app_nil_r.
    f_equal. apply inspector_recorded_seqs_events. intros e He.
    by eapply heap_marshal_harvest_seq.
  - simplify_eq. simpl. split; [lia|]. exists 0%nat.
    rewrite !inspector_recorded_seqs_app. simpl. by rewrite !app_nil_r.
Qed.

End InspectorHarvest.

(** ** The harvest sequence number *)

Section HarvestTheorems.

(** C5, as the code has it.  Both profilers keep one sequence number for
    the two engines.  In the pprof profiler a firing of a timer never
    throws, and the number grows by one exactly when the harvest of that
    firing completes without throwing, so after any run it has grown by the
    number of successful harvests of either engine.  From one successful
    CPU harvest to the next the number therefore grows by one plus the
    number of heap harvests that succeeded in between (by exactly one when
    there was none), and the events of a CPU harvest carry the number that
    the profiler has when its timer fires.  In the inspector profiler a CPU
    harvest increments the number exactly when the profile was handed out
    and the engine started again, a heap harvest exactly when the profile
    was handed out, and the events carry the number from before the
    harvest. *)
Theorem harvest_sequence_shared :
  (forall t w,
     (fire t w).1 = Pprof.Ok () /\
     Pprof.harvestSeq (Pprof.profiler (fire t w).2)
     = Pprof.harvestSeq (Pprof.profiler w) + (if succeeds t w then 1 else 0)) /\
  (forall ts w,
     Pprof.harvestSeq (Pprof.profiler (run ts w))
     = Pprof.harvestSeq (Pprof.profiler w)
       + Z.of_nat (successes (λ _, true) ts w)) /\
  (forall env between w,
     succeeds (CpuTrigger env) w = true ->
     successes is_cpu between (fire (CpuTrigger env) w).2 = 0%nat ->
     Pprof.harvestSeq (Pprof.profiler (run (CpuTrigger env :: between) w))
     = Pprof.harvestSeq (Pprof.profiler w) + 1
       + Z.of_nat (successes is_heap between (fire (CpuTrigger env) w).2)) /\
  (forall env profile w,
     Pprof.selected (Pprof.selectedProfiles (Pprof.profiler w))
       Pprof.PROFILING_TYPE_CPU = true ->
     Pprof.destination (Pprof.profiler w) = Pprof.DESTINATION_TYPE_INGEST_MELT ->
     Pprof.snapshot env = Some profile ->
     (forall s, s ∈ Pprof.sample profile ->
        "harvest_seq" ∉ metric_keys profile s) ->
     exists n,
       recorded_seqs "ProfileCPU" (Pprof.trace (fire (CpuTrigger env) w).2)
       = recorded_seqs "ProfileCPU" (Pprof.trace w)
         ++ replicate n (Some (VInt (Pprof.harvestSeq (Pprof.profiler w))))) /\
  (forall env w w',
     Inspector._collectCpuSamples env w = Some w' ->
     Inspector.harvestSeq (Inspector.profiler w')
     = Inspector.harvestSeq (Inspector.profiler w)
       + (if bool_decide (is_Some (Inspector.cpu_profile env))
             && negb (Inspector.restart_fails env)
          then 1 else 0) /\
     exists n,
       inspector_recorded_seqs "ProfileCPU" (Inspector.trace w')
       = inspector_recorded_seqs "ProfileCPU" (Inspector.trace w)
         ++ replicate n
              (Some (VInt (Inspector.harvestSeq (Inspector.profiler w))))) /\
  (forall env w w',
     Inspector._collectHeapSamples env w = Some w' ->
     Inspector.harvestSeq (Inspector.profiler w')
     = Inspector.harvestSeq (Inspector.profiler w)
       + (if bool_decide (is_Some (Inspector.heap_profile env)) then 1 else 0)).
Proof.
  split; [apply fire_spec|]. split; [apply run_harvestSeq|].
  split; [|split; [|split]].
  - intros env between w Hok Hnone.
    change (run (CpuTrigger env :: between) w)
      with (run between (fire (CpuTrigger env) w).2).
    rewrite run_harvestSeq, successes_split, Hnone.
    destruct (fire_spec (CpuTrigger env) w) as [_ Hseq].
    rewrite Hseq, Hok. lia.
  - intros env profile w Hsel Hdest Hsnap Hkeys. eexists.
    by apply cpu_harvest_seqs.
  - apply inspector_cpu_harvest.
  - intros env w w' Hcollect. by apply inspector_heap_harvest in Hcollect as [? _].
Qed.

Lemma harvest_sequence_shared_witness :
  succeeds cpu_ok both_engines_started = true /\
  Pprof.harvestSeq (Pprof.profiler (run [cpu_ok; heap_ok] both_engines_started))
  = 2.
Proof.
  split; [vm_compute; reflexivity|].
  destruct harvest_sequence_shared as (_ & _ & Hnext & _).
  unfold cpu_ok.
  rewrite (Hnext (harvest_ok sample_pprof_profile) [heap_ok]
             both_engines_started).
  - vm_compute. reflexivity.
  - vm_compute. reflexivity.
  - vm_compute. reflexivity.
Defined.

(** C5 as stated fails: with both engines selected, a CPU harvest, a heap
    harvest and a CPU harvest, all successful, record CPU events with the
    sequence numbers 0 and 2.  The two consecutive successful CPU harvests
    differ by two, in either profiler. *)
Lemma consecutive_cpu_harvests_differ_by_two :
  ~ consecutive_cpu_differ_by_one /\
  successes is_cpu [cpu_ok; heap_ok; cpu_ok] both_engines_started = 2%nat /\
  recorded_seqs "ProfileCPU"
    (Pprof.trace (run [cpu_ok; heap_ok; cpu_ok] both_engines_started))
  = [Some (VInt 0); Some (VInt 0); Some (VInt 0);
     Some (VInt 2); Some (VInt 2); Some (VInt 2)] /\
  (λ w, inspector_recorded_seqs "ProfileCPU" (Inspector.trace w))
    <$> inspector_run [InspectorCpu inspector_ok; InspectorHeap inspector_ok;
                       InspectorCpu inspector_ok] inspector_started
  = Some [Some (VInt 0); Some (VInt 0); Some (VInt 0);
          Some (VInt 2); Some (VInt 2); Some (VInt 2)].
Proof.
  split.
  - intros Hclaim.
    assert (Pprof.harvestSeq
              (Pprof.profiler (run [cpu_ok; heap_ok] both_engines_started))
            = Pprof.harvestSeq (Pprof.profiler both_engines_started) + 1)
      as Hone.
    { apply (Hclaim (harvest_ok sample_pprof_profile) [heap_ok]
               (harvest_ok sample_pprof_profile) both_engines_started);
        vm_compute; reflexivity. }
    vm_compute in Hone. discriminate.
  - vm_compute. repeat split.
Qed.

End HarvestTheorems.

(** ** The names of the local profile files *)

Section FileNames.
Import Pprof.

Lemma opened_app t1 t2 : opened (t1 ++ t2) = opened t1 ++ opened t2.
Proof. apply omap_app. Qed.

Ltac run_harvest H :=
  unfold take_snapshot, write_file, close_file, call_if, call, update, throw,
    this, mbind, M_bind, mret, M_ret in H;
  simpl in H.

(** [_openLocalFiles] opens the base names. *)
Lemma openLocalFiles_names env w w' :
  _openLocalFiles env w = (Ok (), w') ->
  opened (trace w')
  = opened (trace w)
    ++ (if selected (selectedProfiles (profiler w)) PROFILING_TYPE_CPU
        then [mkFile (outputDirectory (profiler w)) "cpu.pprof"] else [])
    ++ (if selected (selectedProfiles (profiler w)) PROFILING_TYPE_HEAP
        then [mkFile (outputDirectory (profiler w)) "heap.pprof"] else []).
Proof.
  unfold _openLocalFiles, when. intros H. run_harvest H.
  destruct (selected (selectedProfiles (profiler w)) PROFILING_TYPE_CPU),
    (selected (selectedProfiles (profiler w)) PROFILING_TYPE_HEAP),
    (open_cpu_ok env), (open_heap_ok env);
    simpl in H; simplify_eq; simpl; rewrite ?opened_app; simpl;
    by rewrite ?app_nil_r, <- ?app_assoc.
Qed.

(** A CPU harvest to the local file that completes opens one file: the
    base name with the sequence number of this harvest. *)
Lemma collectCpuSamples_file env w w' :
  selected (selectedProfiles (profiler w)) PROFILING_TYPE_CPU = true ->
  destination (profiler w) = DESTINATION_TYPE_LOCAL_FILE ->
  _collectCpuSamples env w = (Ok (), w') ->
  opened (trace w')
  = opened (trace w)
    ++ [mkFile (outputDirectory (profiler w))
          ("cpu.pprof" +:+ pretty (harvestSeq (profiler w)))] /\
  is_Some (cpuFile (profiler w')) /\
  selectedProfiles (profiler w') = selectedProfiles (profiler w) /\
  destination (profiler w') = destination (profiler w) /\
  outputDirectory (profiler w') = outputDirectory (profiler w).
Proof.
  unfold _collectCpuSamples. intros Hsel Hdest H. run_harvest H.
  rewrite Hsel, Hdest in H. simpl in H.
  destruct (snapshot env), (cpuFile (profiler w)), (encode_ok env),
    (write_ok env), (close_ok env), (open_ok env);
    simpl in H; simplify_eq; simpl.
  rewrite !opened_app. simpl. rewrite !app_nil_r. eauto.
Qed.

Lemma collectHeapSamples_file env w w' :
  selected (selectedProfiles (profiler w)) PROFILING_TYPE_HEAP = true ->
  destination (profiler w) = DESTINATION_TYPE_LOCAL_FILE ->
  _collectHeapSamples env w = (Ok (), w') ->
  opened (trace w')
  = opened (trace w)
    ++ [mkFile (outputDirectory (profiler w))
          ("heap.pprof" +:+ pretty (harvestSeq (profiler w)))].
Proof.
  unfold _collectHeapSamples. intros Hsel Hdest H. run_harvest H.
  rewrite Hsel, Hdest in H. simpl in H.
  destruct (snapshot env), (heapFile (profiler w)), (encode_ok env),
    (write_ok env), (close_ok env), (open_ok env);
    simpl in H; simplify_eq; simpl.
  rewrite !opened_app. simpl. by rewrite !app_nil_r.
Qed.

(** A CPU harvest to the local file during which nothing fails
    completes. *)
Lemma collectCpuSamples_file_ok profile w :
  selected (selectedProfiles (profiler w)) PROFILING_TYPE_CPU = true ->
  destination (profiler w) = DESTINATION_TYPE_LOCAL_FILE ->
  is_Some (cpuFile (profiler w)) ->
  exists w', _collectCpuSamples (harvest_ok profile) w = (Ok (), w').
Proof.
  unfold _collectCpuSamples. intros Hsel Hdest [f Hf].
  unfold take_snapshot, write_file, close_file, call_if, call, update, throw,
    this, mbind, M_bind, mret, M_ret.
  simpl. rewrite Hsel, Hdest, Hf. simpl. eauto.
Qed.

(** The files of [n] CPU harvests in a row during which nothing fails. *)
Lemma cpu_file_series profiles : forall w,
  selected (selectedProfiles (profiler w)) PROFILING_TYPE_CPU = true ->
  destination (profiler w) = DESTINATION_TYPE_LOCAL_FILE ->
  is_Some (cpuFile (profiler w)) ->
  opened (trace (run (CpuTrigger ∘ harvest_ok <$> profiles) w))
  = opened (trace w)
    ++ ((λ k : nat, mkFile (outputDirectory (profiler w))
                      ("cpu.pprof" +:+ pretty (harvestSeq (profiler w)
                                                 + Z.of_nat k)))
          <$> seq 0 (length profiles)).
Proof.
  induction profiles as [|profile profiles IH]; intros w Hsel Hdest Hfile.
  - simpl. by rewrite app_nil_r.
  - rewrite fmap_cons.
    change (run ((CpuTrigger ∘ harvest_ok) profile ::
                 (CpuTrigger ∘ harvest_ok <$> profiles)) w)
      with (run (CpuTrigger ∘ harvest_ok <$> profiles)
              (fire (CpuTrigger (harvest_ok profile)) w).2).
    destruct (collectCpuSamples_file_ok profile w Hsel Hdest Hfile)
      as [w1 Hw1].
    destruct (collectCpuSamples_file _ _ _ Hsel Hdest Hw1)
      as (Hopen & Hfile1 & Hsel1 & Hdest1 & Hdir1).
    assert (fire (CpuTrigger (harvest_ok profile)) w
            = (Ok (), mkWorld (set_harvestSeq (harvestSeq (profiler w1) + 1)
                                 (profiler w1)) (engines w1) (trace w1)))
      as Hfire.
    { simpl. unfold _harvestCpuSamples, try_catch, mbind, M_bind.
      by rewrite Hw1. }
    rewrite Hfire. simpl snd.
    pose proof (collect_keeps_seq (CpuTrigger (harvest_ok profile)) w)
      as Hkeep.
    simpl in Hkeep. rewrite Hw1 in Hkeep. simpl in Hkeep.
    rewrite IH; simpl; [|congruence..].
    rewrite Hopen, Hdir1, Hkeep, <- app_assoc. f_equal. simpl. f_equal.
    + by rewrite Z.add_0_r.
    + rewrite <- fmap_S_seq, <- list_fmap_compose. apply list_fmap_ext.
      intros _ k _. simpl. do 3 f_equal. lia.
Qed.

(** The same for the heap engine. *)
Lemma collectHeapSamples_file_keeps env w w' :
  selected (selectedProfiles (profiler w)) PROFILING_TYPE_HEAP = true ->
  destination (profiler w) = DESTINATION_TYPE_LOCAL_FILE ->
  _collectHeapSamples env w = (Ok (), w') ->
  is_Some (heapFile (profiler w')) /\
  selectedProfiles (profiler w') = selectedProfiles (profiler w) /\
  destination (profiler w') = destination (profiler w) /\
  outputDirectory (profiler w') = outputDirectory (profiler w).
Proof.
  unfold _collectHeapSamples. intros Hsel Hdest H. run_harvest H.
  rewrite Hsel, Hdest in H. simpl in H.
  destruct (snapshot env), (heapFile (profiler w)), (encode_ok env),
    (write_ok env), (close_ok env), (open_ok env);
    simpl in H; simplify_eq; simpl.
  eauto.
Qed.

Lemma collectHeapSamples_file_ok profile w :
  selected (selectedProfiles (profiler w)) PROFILING_TYPE_HEAP = true ->
  destination (profiler w) = DESTINATION_TYPE_LOCAL_FILE ->
  is_Some (heapFile (profiler w)) ->
  exists w', _collectHeapSamples (harvest_ok profile) w = (Ok (), w').
Proof.
  unfold _collectHeapSamples. intros Hsel Hdest [f Hf].
  unfold take_snapshot, write_file, close_file, call_if, call, update, throw,
    this, mbind, M_bind, mret, M_ret.
  simpl. rewrite Hsel, Hdest, Hf. simpl. eauto.
Qed.

(** The files of [n] heap harvests in a row during which nothing fails. *)
Lemma heap_file_series profiles : forall w,
  selected (selectedProfiles (profiler w)) PROFILING_TYPE_HEAP = true ->
  destination (profiler w) = DESTINATION_TYPE_LOCAL_FILE ->
  is_Some (heapFile (profiler w)) ->
  opened (trace (run (HeapTrigger ∘ harvest_ok <$> profiles) w))
  = opened (trace w)
    ++ ((λ k : nat, mkFile (outputDirectory (profiler w))
                      ("heap.pprof" +:+ pretty (harvestSeq (profiler w)
                                                  + Z.of_nat k)))
          <$> seq 0 (length profiles)).
Proof.
  induction profiles as [|profile profiles IH]; intros w Hsel Hdest Hfile.
  - simpl. by rewrite app_nil_r.
  - rewrite fmap_cons.
    change (run ((HeapTrigger ∘ harvest_ok) profile ::
                 (HeapTrigger ∘ harvest_ok <$> profiles)) w)
      with (run (HeapTrigger ∘ harvest_ok <$> profiles)
              (fire (HeapTrigger (harvest_ok profile)) w).2).
    destruct (collectHeapSamples_file_ok profile w Hsel Hdest Hfile)
      as [w1 Hw1].
    pose proof (collectHeapSamples_file _ _ _ Hsel Hdest Hw1) as Hopen.
    destruct (collectHeapSamples_file_keeps _ _ _ Hsel Hdest Hw1)
      as (Hfile1 & Hsel1 & Hdest1 & Hdir1).
    assert (fire (HeapTrigger (harvest_ok profile)) w
            = (Ok (), mkWorld (set_harvestSeq (harvestSeq (profiler w1) + 1)
                                 (profiler w1)) (engines w1) (trace w1)))
      as Hfire.
    { simpl. unfold _harvestHeapSamples, try_catch, mbind, M_bind.
      by rewrite Hw1. }
    rewrite Hfire. simpl snd.
    pose proof (collect_keeps_seq (HeapTrigger (harvest_ok profile)) w)
      as Hkeep.
    simpl in Hkeep. rewrite Hw1 in Hkeep. simpl in Hkeep.
    rewrite IH; simpl; [|congruence..].
    rewrite Hopen, Hdir1, Hkeep, <- app_assoc. f_equal. simpl. f_equal.
    + by rewrite Z.add_0_r.
    + rewrite <- fmap_S_seq, <- list_fmap_compose. apply list_fmap_ext.
      intros _ k _. simpl. do 3 f_equal. lia.
Qed.

End FileNames.

Section FileTheorems.
Import Pprof.

(** C8, as the code has it.  With the local file destination, the files
    that [start] opens carry the base names [cpu.pprof] and [heap.pprof].  A
    harvest that completes then opens one file, whose suffix is the harvest
    sequence number of that very harvest, read before the timer callback
    increments it: a new profiler with the CPU engine alone opens
    [cpu.pprof], [cpu.pprof0], [cpu.pprof1], ..., and a new profiler with the
    heap engine alone opens [heap.pprof], [heap.pprof0], [heap.pprof1],
    ... *)
Theorem rotated_file_names :
  (forall env w w',
     _openLocalFiles env w = (Ok (), w') ->
     opened (trace w')
     = opened (trace w)
       ++ (if selected (selectedProfiles (profiler w)) PROFILING_TYPE_CPU
           then [mkFile (outputDirectory (profiler w)) "cpu.pprof"] else [])
       ++ (if selected (selectedProfiles (profiler w)) PROFILING_TYPE_HEAP
           then [mkFile (outputDirectory (profiler w)) "heap.pprof"] else [])) /\
  (forall env w w',
     selected (selectedProfiles (profiler w)) PROFILING_TYPE_CPU = true ->
     destination (profiler w) = DESTINATION_TYPE_LOCAL_FILE ->
     _collectCpuSamples env w = (Ok (), w') ->
     opened (trace w')
     = opened (trace w)
       ++ [mkFile (outputDirectory (profiler w))
             ("cpu.pprof" +:+ pretty (harvestSeq (profiler w)))]) /\
  (forall env w w',
     selected (selectedProfiles (profiler w)) PROFILING_TYPE_HEAP = true ->
     destination (profiler w) = DESTINATION_TYPE_LOCAL_FILE ->
     _collectHeapSamples env w = (Ok (), w') ->
     opened (trace w')
     = opened (trace w)
       ++ [mkFile (outputDirectory (profiler w))
             ("heap.pprof" +:+ pretty (harvestSeq (profiler w)))]) /\
  (forall outputDirectory profiles,
     opened (trace (run (CpuTrigger ∘ harvest_ok <$> profiles)
                      (cpu_file_started outputDirectory)))
     = mkFile outputDirectory "cpu.pprof"
       :: ((λ k : nat, mkFile outputDirectory
                         ("cpu.pprof" +:+ pretty (Z.of_nat k)))
             <$> seq 0 (length profiles))) /\
  (forall outputDirectory profiles,
     opened (trace (run (HeapTrigger ∘ harvest_ok <$> profiles)
                      (heap_file_started outputDirectory)))
     = mkFile outputDirectory "heap.pprof"
       :: ((λ k : nat, mkFile outputDirectory
                         ("heap.pprof" +:+ pretty (Z.of_nat k)))
             <$> seq 0 (length profiles))).
Proof.
  split; [apply openLocalFiles_names|]. split; [|split; [|split]].
  - intros env w w' Hsel Hdest H.
    by destruct (collectCpuSamples_file env w w' Hsel Hdest H) as [? _].
  - apply collectHeapSamples_file.
  - intros dir profiles.
    rewrite cpu_file_series; [done|done|done|].
    simpl. eauto.
  - intros dir profiles.
    rewrite heap_file_series; [done|done|done|].
    simpl. eauto.
Qed.

Lemma rotated_file_names_witness :
  opened (trace (run (CpuTrigger ∘ harvest_ok
                        <$> [sample_pprof_profile; sample_pprof_profile])
                   (cpu_file_started "/var/profiles")))
  = [mkFile "/var/profiles" "cpu.pprof"; mkFile "/var/profiles" "cpu.pprof0";
     mkFile "/var/profiles" "cpu.pprof1"] /\
  opened (trace (run (HeapTrigger ∘ harvest_ok
                        <$> [sample_pprof_profile; sample_pprof_profile])
                   (heap_file_started "/var/profiles")))
  = [mkFile "/var/profiles" "heap.pprof"; mkFile "/var/profiles" "heap.pprof0";
     mkFile "/var/profiles" "heap.pprof1"].
Proof.
  destruct rotated_file_names as (_ & _ & _ & Hcpu & Hheap).
  rewrite (Hcpu "/var/profiles" [sample_pprof_profile; sample_pprof_profile]).
  rewrite (Hheap "/var/profiles" [sample_pprof_profile; sample_pprof_profile]).
  split; vm_compute; reflexivity.
Defined.

(** C8 as stated fails: the first rotation of a new profiler creates
    [cpu.pprof0], not [cpu.pprof1]; after two harvests the files are
    [cpu.pprof], [cpu.pprof0] and [cpu.pprof1], which is not the series
    [cpu.pprof], [cpu.pprof1], [cpu.pprof2] of the claim. *)
Lemma first_rotation_has_suffix_zero :
  name <$> opened (trace (run [CpuTrigger (harvest_ok sample_pprof_profile);
                               CpuTrigger (harvest_ok sample_pprof_profile)]
                            (cpu_file_started "/var/profiles")))
  ≠ claimed_series "cpu.pprof" 2 /\
  name <$> opened (trace (run [CpuTrigger (harvest_ok sample_pprof_profile);
                               CpuTrigger (harvest_ok sample_pprof_profile)]
                            (cpu_file_started "/var/profiles")))
  = ["cpu.pprof"; "cpu.pprof0"; "cpu.pprof1"] /\
  claimed_series "cpu.pprof" 2 = ["cpu.pprof"; "cpu.pprof1"; "cpu.pprof2"].
Proof. vm_compute. split; [discriminate|split; reflexivity]. Qed.

End FileTheorems.

(** ** Starting with a heap engine that fails *)

(** C6. What [start] does when the CPU engine starts and the heap engine
    does not.  The inspector profiler calls the callback with the error
    while the CPU engine still reports itself as running; only then does it
    call [stop], without a callback, so that the shutdown stops the CPU
    engine after the error was surfaced and ends in a [TypeError].  The
    pprof profiler has no rollback: [start] throws and the CPU engine keeps
    running. *)
Theorem start_surfaces_error_before_rollback :
  Inspector.trace (Inspector.start heap_enable_fails 1000 inspector_new)
  = [Inspector.Connect;
     Inspector.Post Inspector.Profiler_setSamplingInterval false;
     Inspector.Post Inspector.Profiler_enable false;
     Inspector.Post Inspector.Profiler_start false;
     Inspector.Post Inspector.HeapProfiler_enable true;
     Inspector.LogError;
     Inspector.Callback true (Inspector.mkEngines true false);
     Inspector.Post Inspector.Profiler_stop false;
     Inspector.Post Inspector.Profiler_disable false;
     Inspector.ClearInterval 1;
     Inspector.Post Inspector.HeapProfiler_stopSampling false;
     Inspector.Post Inspector.HeapProfiler_disable false;
     Inspector.ClearInterval 2;
     Inspector.Disconnect;
     Inspector.UncaughtTypeError] /\
  (let r := Pprof.start heap_start_fails
              (new_world 3 Pprof.DESTINATION_TYPE_INGEST_MELT "") in
   r.1 = Pprof.Throw /\
   Pprof.engines r.2 = Pprof.mkEngines true false /\
   Pprof.trace r.2
   = [Pprof.TimeStart; Pprof.Failed (Pprof.HeapStart 524288 64)]).
Proof. vm_compute. repeat split. Qed.

(** ** The parent links of a CPU profile *)

Section CpuLinking.
Import Inspector.

Lemma index_nodes_well_linked nodes : well_linked (index_nodes nodes).
Proof.
  unfold index_nodes.
  assert (forall g : gmap Z Node,
    (forall k n, g !! k = Some n -> id n = k /\ parent n = None) ->
    forall k n,
      foldl (λ nodeMap node, <[id node := set_parent None node]> nodeMap) g nodes
        !! k = Some n ->
      id n = k /\ parent n = None) as Hfold.
  { induction nodes as [|node nodes IH]; intros g Hg; [done|]. simpl.
    apply IH. intros k n Hk.
    destruct (decide (k = id node)) as [->|Hne].
    - rewrite lookup_insert_eq in Hk. by simplify_eq.
    - rewrite lookup_insert_ne in Hk by done. by apply Hg. }
  intros k n Hk. destruct (Hfold ∅) with (k := k) (n := n) as [Hid Hp].
  - intros k' n' Hk'. by rewrite lookup_empty in Hk'.
  - done.
  - split; [done|]. intros p Hp'. congruence.
Qed.

(** Linking the children of the node held under [p], all of which it
    lists, keeps the map well linked. *)
Lemma link_children_well_linked p cs : forall g pn all,
  well_linked g -> g !! p = Some pn -> children pn = Some all ->
  (forall c, c ∈ cs -> c ∈ all) ->
  well_linked (link_children p cs g) /\
  exists pn', link_children p cs g !! p = Some pn' /\ children pn' = Some all.
Proof.
  unfold link_children.
  induction cs as [|c cs IH]; intros g pn all Hg Hp Hall Hsub; simpl.
  - split; [done|]. eauto.
  - destruct (g !! c) as [cn|] eqn:Hc.
    2:{ eapply IH; [done..|]. intros c' Hc'. apply Hsub. by right. }
    assert (exists pn', <[c := set_parent (Some p) cn]> g !! p = Some pn' /\
                        children pn' = Some all) as (pn' & Hp' & Hall').
    { destruct (decide (p = c)) as [->|Hne].
      - rewrite lookup_insert_eq. simplify_eq. eauto.
      - rewrite lookup_insert_ne by done. eauto. }
    eapply IH; [|done|done|intros c' Hc'; apply Hsub; by right].
    intros k n Hk. destruct (decide (k = c)) as [->|Hne].
    + rewrite lookup_insert_eq in Hk. simplify_eq. simpl.
      split; [by apply (Hg c cn)|].
      intros p' Hp''. simplify_eq. exists pn', all.
      split; [done|]. split; [done|]. apply Hsub. by left.
    + rewrite lookup_insert_ne in Hk by done.
      destruct (Hg k n Hk) as [Hid Hpar]. split; [done|].
      intros q Hq. destruct (Hpar q Hq) as (qn & qcs & Hqn & Hqcs & Hin).
      destruct (decide (q = c)) as [->|Hqc].
      * rewrite lookup_insert_eq. simplify_eq.
        eexists _, qcs. by repeat split.
      * rewrite lookup_insert_ne by done. eauto.
Qed.

Lemma link_nodes_well_linked nodes : forall g,
  well_linked g -> well_linked (link_nodes nodes g).
Proof.
  unfold link_nodes. induction nodes as [|node nodes IH]; intros g Hg; [done|].
  simpl. apply IH.
  destruct (g !! id node) as [n|] eqn:Hn; [|done].
  destruct (children n) as [cs|] eqn:Hcs; [|done].
  by destruct (link_children_well_linked (id node) cs g n cs Hg Hn Hcs)
    as [? _].
Qed.

(** The node map of the CPU marshaller is well linked: following a parent
    link always finds the object of a node that lists the child. *)
Lemma cpu_node_map_well_linked profile : well_linked (cpu_node_map profile).
Proof. apply link_nodes_well_linked, index_nodes_well_linked. Qed.

End CpuLinking.

(** * Further properties of the code *)

(** ** The profiling types of the configuration *)

Section ParseTypes.
Import Inspector.

Lemma parse_types_fold types : forall cpu heap,
  foldl (λ profilingType type,
           let lower := toLowerCase type in
           if String.eqb lower "cpu"
           then Z.lor profilingType PROFILING_TYPE_CPU
           else if String.eqb lower "heap"
           then Z.lor profilingType PROFILING_TYPE_HEAP
           else profilingType) (type_bits cpu heap) types
  = type_bits (cpu || existsb (is_type "cpu") types)
              (heap || existsb (is_type "heap") types).
Proof.
  induction types as [|type types IH]; intros cpu heap; simpl.
  - by rewrite !orb_false_r.
  - unfold is_type at 1 3.
    destruct (String.eqb_spec (toLowerCase type) "cpu") as [Hc|Hc].
    + rewrite Hc. simpl.
      replace (Z.lor (type_bits cpu heap) PROFILING_TYPE_CPU)
        with (type_bits true heap) by (by destruct cpu, heap).
      rewrite IH. by rewrite orb_true_r.
    + destruct (String.eqb_spec (toLowerCase type) "heap") as [Hh|Hh].
      * replace (Z.lor (type_bits cpu heap) PROFILING_TYPE_HEAP)
          with (type_bits cpu true) by (by destruct cpu, heap).
        rewrite IH. simpl. by rewrite orb_true_r.
      * rewrite IH. by simpl.
Qed.

Lemma parseProfilingTypes_bits types :
  _parseProfilingTypes types
  = type_bits (existsb (is_type "cpu") (default [] types))
              (existsb (is_type "heap") (default [] types)).
Proof.
  destruct types as [types|]; [|done]. simpl.
  exact (parse_types_fold types false false).
Qed.

(** X1. [_parseProfilingTypes] sets the CPU bit exactly when some entry of
    [config.profiling.types] is cpu in some casing, and the heap bit exactly
    when some entry is heap; other entries, repetitions and the order of the
    entries do not matter. The result is 0 exactly when neither occurs, a
    missing list included, and the function of the pprof profiler gives the
    same result. *)
Theorem parseProfilingTypes_spec types :
  let cpu := existsb (is_type "cpu") (default [] types) in
  let heap := existsb (is_type "heap") (default [] types) in
  let r := _parseProfilingTypes types in
  r = type_bits cpu heap /\
  selected r PROFILING_TYPE_CPU = cpu /\
  selected r PROFILING_TYPE_HEAP = heap /\
  (r =? 0) = negb cpu && negb heap /\
  Pprof._parseProfilingTypes types = r.
Proof.
  intros cpu heap r.
  assert (r = type_bits cpu heap) as Hr by apply parseProfilingTypes_bits.
  split; [done|]. split; [|split; [|split]].
  - rewrite Hr. by destruct cpu, heap.
  - rewrite Hr. by destruct cpu, heap.
  - rewrite Hr. by destruct cpu, heap.
  - done.
Qed.
End ParseTypes.

(** ** The first match of the naming function *)

Section NormalizeFacts.
Import Pprof.

Lemma regex_match_matched c :
  regex_match c = None <-> matched c = false.
Proof.
  unfold regex_match, matched.
  destruct (White_Space c), (L c), (bool_decide (c = "_"%char)); simpl;
    split; intros; congruence.
Qed.

Lemma replace_first_match s :
  occurs "_" s = true ->
  exists pre c post,
    s = pre +:+ String c post /\ unmatched pre = true /\ matched c = true /\
    replace s = pre +:+ String (if White_Space c then "_"%char else c) post.
Proof.
  induction s as [|c s IH]; [done|]. intros Hocc.
  destruct (matched c) eqn:Hm.
  - exists "", c, s. split; [done|]. split; [done|]. split; [done|].
    simpl. unfold regex_match. unfold matched in Hm.
    destruct (White_Space c); [done|].
    destruct (L c); [done|].
    by destruct (bool_decide (c = "_"%char)).
  - simpl in Hocc.
    assert (c ≠ "_"%char) as Hc.
    { intros ->. by vm_compute in Hm. }
    rewrite bool_decide_eq_false_2 in Hocc by done. simpl in Hocc.
    destruct (IH Hocc) as (pre & c' & post & -> & Hpre & Hc' & Hrep).
    exists (String c pre), c', post.
    split; [done|]. split; [simpl; by rewrite Hm|]. split; [done|].
    simpl. apply regex_match_matched in Hm. rewrite Hm. by rewrite Hrep.
Qed.

Lemma length_string_app s1 s2 :
  String.length (s1 +:+ s2) = (String.length s1 + String.length s2)%nat.
Proof.
  induction s1 as [|c s1 IH]; [done|].
  change (String c s1 +:+ s2) with (String c (s1 +:+ s2)). simpl. by rewrite IH.
Qed.

(** X2. For every two names, the joined string [typeName_unitName] has a first
    character that is a white space, a letter or an underscore (at the latest
    the underscore that joins the names).
    [_normalizeAttrNameFromSampleValueType] replaces that one character, by an
    underscore when it is a white space and by itself otherwise, and leaves
    everything before and after it as it is; the result is as long as the
    joined string. *)
Theorem normalize_first_match typeName unitName :
  exists pre c post,
    typeName +:+ "_" +:+ unitName = pre +:+ String c post /\
    unmatched pre = true /\ matched c = true /\
    _normalizeAttrNameFromSampleValueType typeName unitName
    = pre +:+ String (if White_Space c then "_"%char else c) post /\
    String.length (_normalizeAttrNameFromSampleValueType typeName unitName)
    = (String.length typeName + 1 + String.length unitName)%nat.
Proof.
  destruct (replace_first_match (typeName +:+ "_" +:+ unitName))
    as (pre & c & post & Heq & Hpre & Hc & Hrep).
  { rewrite !occurs_app. simpl. by rewrite orb_true_r. }
  exists pre, c, post. split; [done|]. split; [done|]. split; [done|].
  split; [done|].
  unfold _normalizeAttrNameFromSampleValueType. rewrite Hrep.
  apply (f_equal String.length) in Heq.
  rewrite !length_string_app in *. simpl in *. lia.
Qed.

End NormalizeFacts.

(** ** How [_recordSamples] ends *)

Section Completion.
Import Pprof.

Lemma value_loop_short profile values : forall j val (attrs : Event) u,
  (j <= length (sampleType profile))%nat ->
  (length (sampleType profile) < j + length values)%nat ->
  value_loop profile values j val attrs u = None.
Proof.
  induction values as [|x values IH]; intros j val attrs u Hj Hlen; simpl in *.
  - lia.
  - destruct (sampleType profile !! j) as [st|] eqn:Hst; [|done]. simpl.
    apply lookup_lt_Some in Hst. apply IH; lia.
Qed.

Lemma sample_step_overfull profile i s st :
  sample_step profile i s st = None <-> overfull profile s.
Proof.
  unfold sample_step, overfull. split.
  - intros Hstep.
    destruct (decide (length (sampleType profile) < length (Sample.value s))%nat)
      as [|Hle]; [done|].
    destruct (value_loop_total profile (Sample.value s) 0 (v st)
                (<["sample_seq" := VInt (Z.of_nat i)]> (attrs st)) (u st))
      as [[attrs2 u2] Hv]; [simpl; lia|].
    rewrite Hv in Hstep. simpl in Hstep.
    by destruct (_cleanupKeys attrs2 u2 (v st)) as [[? ?] ?].
  - intros Hover. rewrite value_loop_short; [done|lia|simpl; lia].
Qed.

Lemma sample_loop_completion eventType profile destination rest : forall i st,
  let r := sample_loop eventType profile destination rest i st in
  match list_find (overfull profile) rest with
  | None => r.2 = Returned /\ length r.1 = emitted destination (length rest)
  | Some (n, _) => r.2 = Thrown /\ length r.1 = emitted destination n
  end.
Proof.
  induction rest as [|s rest IH]; intros i st; simpl.
  - split; [done|]. unfold emitted. by destruct (_ =? _).
  - destruct (decide (overfull profile s)) as [Hover|Hok].
    + apply (sample_step_overfull profile i s st) in Hover. rewrite Hover.
      simpl. split; [done|]. unfold emitted. by destruct (_ =? _).
    + destruct (sample_step profile i s st) as [st'|] eqn:Hstep.
      2:{ by apply sample_step_overfull in Hstep. }
      specialize (IH (S i) st').
      destruct (sample_loop eventType profile destination rest (S i) st')
        as [calls c].
      destruct (list_find (overfull profile) rest) as [[n s']|]; simpl in *.
      * destruct IH as [-> Hlen]. split; [done|].
        rewrite length_app, Hlen. unfold emitted.
        by destruct (destination =? DESTINATION_TYPE_INGEST_MELT).
      * destruct IH as [-> Hlen]. split; [done|].
        rewrite length_app, Hlen. unfold emitted.
        by destruct (destination =? DESTINATION_TYPE_INGEST_MELT).
Qed.

(** X3. [_recordSamples] throws before any call when the profile has no
    [periodType]. Otherwise it throws at the first sample that has more values
    than the profile has sample types, having called [recordCustomEvent] once
    for each sample before that one, and it returns after one call per sample
    when there is no such sample. With a destination other than the ingest of
    events it ends in the same way and calls nothing. *)
Theorem recordSamples_completion eventType harvestSeq profile destination :
  let r := _recordSamples eventType harvestSeq profile destination in
  match periodType profile, list_find (overfull profile) (sample profile) with
  | None, _ => r = ([], Thrown)
  | Some _, None =>
      r.2 = Returned /\
      length r.1 = emitted destination (length (sample profile))
  | Some _, Some (n, _) =>
      r.2 = Thrown /\ length r.1 = emitted destination n
  end.
Proof.
  unfold _recordSamples. destruct (periodType profile) as [pt|]; [|done].
  apply sample_loop_completion.
Qed.

End Completion.

(** ** The location attributes of the recorded events *)

Section RecordLocations.
Import Pprof.

Lemma locationFromLine_truthy profile l :
  truthy (Some (VStr (_locationFromLine profile l))) = true.
Proof.
  unfold _locationFromLine.
  match goal with |- context [?a +:+ ":" +:+ ?b] => by destruct a end.
Qed.

Lemma location_loop_at profile ids : forall j (attrs : Event),
  (forall N x, attrs !! location_key N = Some x -> truthy (Some x) = true) ->
  (forall N x, location_loop profile ids j attrs !! location_key N = Some x ->
     truthy (Some x) = true) /\
  forall m, (m < length ids)%nat ->
    location_loop profile ids j attrs !! location_key (j + m)
    = VStr <$> (ids !! m ≫= frame_of profile).
Proof.
  induction ids as [|locId ids IH]; intros j attrs Htruthy.
  { split; [done|]. simpl. lia. }
  simpl.
  set (attrs' := match _getLocation profile locId with
                 | Some loc => _
                 | None => _
                 end).
  assert (attrs' !! location_key j = VStr <$> frame_of profile locId
          /\ forall N, N ≠ j -> attrs' !! location_key N = attrs !! location_key N)
    as [Hj Hother].
  { subst attrs'. unfold frame_of.
    assert ((if truthy (attrs !! location_key j)
             then delete (location_key j) attrs else attrs) !! location_key j
            = None /\
            forall N, N ≠ j ->
              (if truthy (attrs !! location_key j)
               then delete (location_key j) attrs else attrs) !! location_key N
              = attrs !! location_key N) as [Hstale Hstale'].
    { destruct (truthy (attrs !! location_key j)) eqn:Ht.
      - split; [apply lookup_delete_eq|]. intros N HN.
        apply lookup_delete_ne. by intros ?%location_key_inj.
      - split; [|done].
        destruct (attrs !! location_key j) as [x|] eqn:Hx; [|done].
        by rewrite (Htruthy j x Hx) in Ht. }
    destruct (_getLocation profile locId) as [loc|]; simpl; [|done].
    destruct (Location.line loc) as [|line0 lines]; simpl; [done|].
    split; [apply lookup_insert_eq|]. intros N HN.
    apply lookup_insert_ne. by intros ?%location_key_inj. }
  assert (forall N x, attrs' !! location_key N = Some x -> truthy (Some x) = true)
    as Htruthy'.
  { intros N x. destruct (decide (N = j)) as [->|HN].
    - rewrite Hj. unfold frame_of.
      destruct (_getLocation profile locId) as [loc|]; simpl; [|done].
      destruct (Location.line loc) as [|line0 lines]; simpl; [done|].
      intros ?; simplify_eq. apply locationFromLine_truthy.
    - rewrite Hother by done. apply Htruthy. }
  destruct (IH (S j) attrs' Htruthy') as [Hall Hat]. split; [done|].
  intros [|m] Hm.
  - rewrite Nat.add_0_r. rewrite location_loop_other; [done|].
    intros m' Hm' ?%location_key_inj. lia.
  - replace (j + S m)%nat with (S j + m)%nat by lia. apply Hat. simpl in Hm. lia.
Qed.

(** One sample: the location attributes after it are the frames of its
    stack. *)
Lemma locations_exact_step profile j s st st' :
  sample profile !! j = Some s -> locations_exact profile j st ->
  sample_step profile j s st = Some st' ->
  locations_exact profile (S j) st'.
Proof.
  intros Hs (Hu & Hwidth & Htruthy & _) Hstep.
  pose proof (sample_step_spec _ _ _ _ _ Hstep)
    as (Hlen & _ & _ & Hu' & _ & Hkeep & Hclear).
  assert (forall m, location_key m ∉ metric_keys profile s) as Hnot.
  { intros m Hin. by eapply metric_keys_not_location. }
  assert (forall m, u st' !! location_key m = None) as Hu''.
  { intros m. rewrite Hu' by done. rewrite Hu. by destruct (stale _ _ _). }
  assert (forall N, (prevLoc st' <= N)%nat -> attrs st' !! location_key N = None)
    as Hwidth'.
  { intros N HN. rewrite Hlen in HN.
    destruct (decide (prevLoc st <= N)%nat) as [Hle|Hgt].
    - apply Hkeep; [done|done|]. by apply Hwidth.
    - apply Hclear. lia. }
  assert (forall N, (N < length (Sample.locationId s))%nat ->
            attrs st' !! location_key N = VStr <$> frame_at profile s N)
    as Hat.
  { intros N HN. unfold sample_step in Hstep.
    destruct (value_loop profile (Sample.value s) 0 (v st)
                (<["sample_seq" := VInt (Z.of_nat j)]> (attrs st)) (u st))
      as [[attrs2 u2]|] eqn:Hvalues; [|done].
    simpl in Hstep.
    apply value_loop_spec in Hvalues as (_ & _ & Hout).
    rewrite drop_0 in Hout. fold (metric_keys profile s) in Hout.
    destruct (cleanupKeys_spec attrs2 u2 (v st))
      as (attrs3 & u3 & Hclean & Hlookup).
    rewrite Hclean in Hstep. simplify_eq. simpl.
    assert (forall M x, attrs3 !! location_key M = Some x ->
              truthy (Some x) = true) as Htruthy3.
    { intros M x. destruct (Hlookup (location_key M)) as [-> _].
      destruct (stale u2 (v st) (location_key M)); [done|].
      destruct (Hout _ (Hnot M)) as [-> _].
      destruct (location_key_head M) as [y Hy]. rewrite Hy.
      rewrite lookup_insert_ne by discriminate. rewrite <- Hy. apply Htruthy. }
    rewrite clear_loop_lookup, decide_False.
    2:{ intros (M & ?%location_key_inj & HM%elem_of_seq)%list_elem_of_fmap. lia. }
    destruct (location_loop_at profile (Sample.locationId s) 0 attrs3 Htruthy3)
      as [_ Hloc].
    exact (Hloc N HN). }
  split; [done|]. split; [done|]. split.
  - intros N x. destruct (decide (N < length (Sample.locationId s))%nat) as [HN|HN].
    + rewrite Hat by done. unfold frame_at, frame_of.
      destruct (Sample.locationId s !! N) as [locId|]; simpl; [|done].
      destruct (_getLocation profile locId) as [loc|]; simpl; [|done].
      destruct (Location.line loc) as [|line0 lines]; simpl; [done|].
      intros ?; simplify_eq. apply locationFromLine_truthy.
    + rewrite Hwidth'; [done|]. lia.
  - intros i s' Hi Hs' N. simplify_eq.
    destruct (decide (N < length (Sample.locationId s))%nat) as [HN|HN].
    + by apply Hat.
    + rewrite Hwidth' by lia. unfold frame_at.
      by rewrite (lookup_ge_None_2 (Sample.locationId s) N) by lia.
Qed.

Lemma locations_exact_initial harvestSeq profile pt :
  locations_exact profile 0
    (mkState (initial_attrs harvestSeq profile pt) ∅ 0 0).
Proof.
  split; [done|]. split; [|split]; simpl.
  - intros N _. apply initial_attrs_location.
  - intros N x. by rewrite initial_attrs_location.
  - done.
Qed.

(** X4. At the call of [recordCustomEvent] for sample [i], attribute
    [location.j] is the frame of entry [j] of the location ids of the sample:
    the string [functionName:line] of the first line of the location with that
    id. The attribute is absent when the stack has no entry [j], when the
    profile has no location with the id, or when the location has no line,
    whatever the earlier samples left in the object that the calls share. *)
Theorem record_locations eventType harvestSeq profile destination i ty e s :
  (_recordSamples eventType harvestSeq profile destination).1 !! i
    = Some (ty, e) ->
  sample profile !! i = Some s ->
  forall j, e !! location_key j = VStr <$> frame_at profile s j.
Proof.
  intros He Hs.
  destruct (recordSamples_inv (locations_exact profile) eventType harvestSeq
              profile destination i ty e
              (locations_exact_initial harvestSeq profile)
              (locations_exact_step profile) He)
    as (_ & _ & st' & (_ & _ & _ & Hexact) & ->).
  by apply (Hexact i s).
Qed.

Lemma record_locations_witness :
  exists e,
    (_recordSamples "ProfileCPU" 0 sample_pprof_profile
       DESTINATION_TYPE_INGEST_MELT).1 !! 2%nat = Some ("ProfileCPU", e) /\
    e !! location_key 0 = None /\
    e !! location_key 1 = Some (VStr "main:10") /\
    e !! location_key 2 = None.
Proof.
  destruct (recordSamples_complete "ProfileCPU" 0 sample_pprof_profile
              (ValueType.mk 3 4) eq_refl) as (calls & Hcalls & Hlen).
  { repeat constructor. }
  destruct calls as [|c0 [|c1 [|[ty e] calls]]]; [done..|].
  assert ((_recordSamples "ProfileCPU" 0 sample_pprof_profile
             DESTINATION_TYPE_INGEST_MELT).1 !! 2%nat = Some (ty, e)) as He
    by (by rewrite Hcalls).
  pose proof (record_locations "ProfileCPU" 0 sample_pprof_profile
                DESTINATION_TYPE_INGEST_MELT 2%nat ty e (Sample.mk [9; 1] [5; 6])
                He eq_refl) as Hloc.
  destruct (recordSamples_inv (λ _ _, True) "ProfileCPU" 0
              sample_pprof_profile DESTINATION_TYPE_INGEST_MELT 2%nat ty e
              (λ _, I) (λ _ _ _ _ _ _ _, I) He)
    as (-> & _).
  exists e. split; [done|].
  rewrite !Hloc. vm_compute. repeat split.
Defined.

End RecordLocations.

(** ** The other attributes of the recorded events *)

Section RecordFixed.
Import Pprof.

Lemma initial_attrs_fixed harvestSeq profile pt :
  initial_attrs harvestSeq profile pt !! "harvest_seq" = Some (VInt harvestSeq) /\
  initial_attrs harvestSeq profile pt !! "time_ns"
    = Some (VInt (timeNanos profile)) /\
  initial_attrs harvestSeq profile pt !! "duration_ns"
    = Some (VInt (durationNanos profile)) /\
  initial_attrs harvestSeq profile pt !! ("sample_period_" +:+ metric_key profile pt)
    = Some (VInt (period profile)) /\
  initial_attrs harvestSeq profile pt !! "sample_seq" = None.
Proof.
  unfold initial_attrs.
  change ("sample_period_" +:+ metric_key profile pt)
    with (String "s" (String "a" (String "m" (String "p" (String "l"
           (String "e" (String "_" (String "p"
              ("eriod_" +:+ metric_key profile pt))))))))).
  split; [apply lookup_insert_eq|].
  split; [rewrite lookup_insert_ne by discriminate; apply lookup_insert_eq|].
  split; [do 2 (rewrite lookup_insert_ne by discriminate);
          apply lookup_insert_eq|].
  split; [do 3 (rewrite lookup_insert_ne by discriminate);
          apply lookup_insert_eq|].
  by do 4 (rewrite lookup_insert_ne by discriminate).
Qed.

Lemma fixed_kept_step harvestSeq profile pt j s st st' :
  sample profile !! j = Some s -> fixed_kept harvestSeq profile pt j st ->
  sample_step profile j s st = Some st' ->
  fixed_kept harvestSeq profile pt (S j) st'.
Proof.
  intros Hs Hinv Hstep k Hk Hloc.
  apply sample_step_spec in Hstep as (_ & _ & _ & Hu & Hattrs & _).
  assert (k ∉ metric_keys profile s) as Hnot by (apply (Hk j); [lia|done]).
  destruct (Hinv k) as [Hu0 Ha0]; [|done|].
  { intros m s' Hm. apply Hk. lia. }
  assert (stale (u st) (v st) k = false) as Hstale
    by (unfold stale; by rewrite Hu0).
  rewrite (Hu k Hnot), (Hattrs k Hnot Hloc), Hstale. split; [done|].
  simpl. destruct (decide (k = "sample_seq")) as [->|Hne].
  - rewrite lookup_insert_eq. rewrite decide_True; [done|]. split; [done|lia].
  - rewrite lookup_insert_ne by done. rewrite Ha0.
    rewrite !decide_False; [done|by intros [? _]|by intros [? _]].
Qed.

(** X5. Every call of [recordCustomEvent] carries the event type given to
    [_recordSamples], and calls are made only when the destination is the
    ingest of events. At the call for sample [i], an attribute that is no
    location and no metric name of the samples up to [i] is as the object
    literal of [_recordSamples] has it (the harvest sequence number,
    [time_ns], [duration_ns] and the sample period, and nothing else), except
    [sample_seq], which is [i]. *)
Theorem record_fixed_attributes eventType harvestSeq profile destination pt
  i ty e :
  periodType profile = Some pt ->
  (_recordSamples eventType harvestSeq profile destination).1 !! i
    = Some (ty, e) ->
  ty = eventType /\ destination = DESTINATION_TYPE_INGEST_MELT /\
  forall k, unused_before profile (S i) k -> (forall m, k ≠ location_key m) ->
    e !! k = if decide (k = "sample_seq") then Some (VInt (Z.of_nat i))
             else initial_attrs harvestSeq profile pt !! k.
Proof.
  intros Hpt He. unfold _recordSamples in He. rewrite Hpt in He.
  destruct (sample_loop_inv (fixed_kept harvestSeq profile pt) eventType profile
              destination (fixed_kept_step harvestSeq profile pt)
              (sample profile) 0%nat
              (mkState (initial_attrs harvestSeq profile pt) ∅ 0 0)
              (drop_0 _)) with (m := i) (ty := ty) (e := e)
    as (-> & -> & st' & Hinv & ->); [|done|].
  { intros k _ _. simpl. split; [done|].
    rewrite decide_False; [done|]. intros [_ ?]. lia. }
  split; [done|]. split; [done|]. intros k Hk Hloc.
  destruct (Hinv k Hk Hloc) as [_ ->]. simpl.
  destruct (decide (k = "sample_seq")) as [->|Hne].
  - rewrite decide_True; [done|]. split; [done|lia].
  - rewrite decide_False; [done|]. by intros [? _].
Qed.

Lemma record_fixed_attributes_witness :
  exists e,
    (_recordSamples "ProfileCPU" 7 sample_pprof_profile
       DESTINATION_TYPE_INGEST_MELT).1 !! 1%nat = Some ("ProfileCPU", e) /\
    e !! "harvest_seq" = Some (VInt 7) /\
    e !! "sample_seq" = Some (VInt 1) /\
    e !! "time_ns" = Some (VInt 111) /\
    e !! "sample_period_wall_nanoseconds" = Some (VInt 1000).
Proof.
  assert (forall k, k ∉ ["samples_count"; "wall_nanoseconds"] ->
            unused_before sample_pprof_profile 2 k) as Hunused.
  { intros k Hk m s Hm Hs Hin. apply Hk.
    destruct m as [|[|m]]; [| |lia]; simpl in Hs; injection Hs as <-.
    all: vm_compute in Hin;
      first [exact Hin
            |inversion_clear Hin as [|? ? ? Hin']; [left|inversion Hin']]. }
  destruct (recordSamples_complete "ProfileCPU" 7 sample_pprof_profile
              (ValueType.mk 3 4) eq_refl) as (calls & Hcalls & Hlen).
  { repeat constructor. }
  destruct calls as [|c0 [|[ty e] calls]]; [done..|].
  assert ((_recordSamples "ProfileCPU" 7 sample_pprof_profile
             DESTINATION_TYPE_INGEST_MELT).1 !! 1%nat = Some (ty, e)) as He
    by (by rewrite Hcalls).
  destruct (record_fixed_attributes "ProfileCPU" 7 sample_pprof_profile
              DESTINATION_TYPE_INGEST_MELT (ValueType.mk 3 4) 1%nat ty e
              eq_refl He) as (-> & _ & Hfixed).
  exists e. split; [exact He|]. clear He Hcalls Hlen.
  rewrite !Hfixed;
    try (apply fixed_key_not_location; intros s; discriminate);
    try (apply Hunused; rewrite !elem_of_cons, elem_of_nil;
         intros [?|[?|[]]]; discriminate).
  vm_compute. repeat split.
Defined.

(** The value loop leaves under the key of a sample type the value at the
    last position that has this key. *)
Lemma value_loop_values profile values : forall j0 val (attrs : Event) u attrs' u',
  value_loop profile values j0 val attrs u = Some (attrs', u') ->
  forall m x st,
    values !! m = Some x -> sampleType profile !! (j0 + m)%nat = Some st ->
    (forall m' st', (m < m' < length values)%nat ->
       sampleType profile !! (j0 + m')%nat = Some st' ->
       metric_key profile st' ≠ metric_key profile st) ->
    attrs' !! metric_key profile st = Some (VInt x).
Proof.
  induction values as [|y values IH]; intros j0 val attrs u attrs' u' Hloop
    m x st Hm Hst Hlast; [done|].
  simpl in Hloop.
  destruct (sampleType profile !! j0) as [st0|] eqn:Hst0; [|done].
  simpl in Hloop. destruct m as [|m]; simpl in Hm.
  - rewrite Nat.add_0_r in Hst.
    assert (st0 = st) as -> by congruence. assert (y = x) as -> by congruence.
    apply value_loop_spec in Hloop as (_ & _ & Hout).
    destruct (Hout (metric_key profile st)) as [-> _];
      [|apply lookup_insert_eq].
    intros (st' & Heq & Hin)%list_elem_of_fmap.
    apply list_elem_of_lookup in Hin as [m' Hm'].
    apply lookup_take_Some in Hm' as [Hm' Hlt].
    rewrite lookup_drop in Hm'.
    apply (Hlast (S m') st'); [simpl; lia| |done].
    by replace (j0 + S m')%nat with (S j0 + m')%nat by lia.
  - eapply (IH (S j0)); [done|done| |].
    + by replace (S j0 + m)%nat with (j0 + S m)%nat by lia.
    + intros m' st' Hm' Hst'. apply (Hlast (S m') st'); [simpl; lia|].
      by replace (j0 + S m')%nat with (S j0 + m')%nat by lia.
Qed.

Lemma sample_step_metric profile i s st st' :
  sample_step profile i s st = Some st' ->
  forall j x ty,
    Sample.value s !! j = Some x -> sampleType profile !! j = Some ty ->
    (forall j' ty', (j < j' < length (Sample.value s))%nat ->
       sampleType profile !! j' = Some ty' ->
       metric_key profile ty' ≠ metric_key profile ty) ->
    attrs st' !! metric_key profile ty = Some (VInt x).
Proof.
  unfold sample_step. intros Hstep j x ty Hx Hty Hlast.
  destruct (value_loop profile (Sample.value s) 0 (v st)
              (<["sample_seq" := VInt (Z.of_nat i)]> (attrs st)) (u st))
    as [[attrs2 u2]|] eqn:Hvalues; [|done].
  simpl in Hstep.
  pose proof (value_loop_values _ _ _ _ _ _ _ _ Hvalues j x ty Hx Hty Hlast)
    as Hval.
  apply value_loop_spec in Hvalues as (_ & Hin & _).
  rewrite drop_0 in Hin. fold (metric_keys profile s) in Hin.
  destruct (cleanupKeys_spec attrs2 u2 (v st))
    as (attrs3 & u3 & Hclean & Hlookup).
  rewrite Hclean in Hstep. simplify_eq. simpl.
  assert (metric_key profile ty ∈ metric_keys profile s) as Hkey.
  { apply list_elem_of_fmap. exists ty. split; [done|].
    apply list_elem_of_lookup. exists j. apply lookup_take_Some.
    split; [done|]. by eapply lookup_lt_Some. }
  rewrite clear_loop_other by (intros m; by eapply metric_keys_not_location).
  rewrite location_loop_other
    by (intros m _; by eapply metric_keys_not_location).
  destruct (Hlookup (metric_key profile ty)) as [-> _].
  destruct (Hin _ Hkey) as [_ Hu]. unfold stale. rewrite Hu.
  by rewrite bool_decide_eq_false_2 by (by intros ?).
Qed.

(** X6. At the call of [recordCustomEvent] for sample [i], the attribute named
    after sample type [j] holds value [j] of the sample, provided that no
    later value of the sample has a sample type of the same name (the later
    value overwrites the earlier one). *)
Theorem record_metric_values eventType harvestSeq profile destination i ty e s :
  (_recordSamples eventType harvestSeq profile destination).1 !! i
    = Some (ty, e) ->
  sample profile !! i = Some s ->
  forall j x st,
    Sample.value s !! j = Some x -> sampleType profile !! j = Some st ->
    (forall j' st', (j < j' < length (Sample.value s))%nat ->
       sampleType profile !! j' = Some st' ->
       metric_key profile st' ≠ metric_key profile st) ->
    e !! metric_key profile st = Some (VInt x).
Proof.
  intros He Hs.
  destruct (recordSamples_inv
              (λ j st', forall i s, j = S i -> sample profile !! i = Some s ->
                 forall j x st,
                   Sample.value s !! j = Some x ->
                   sampleType profile !! j = Some st ->
                   (forall j' st', (j < j' < length (Sample.value s))%nat ->
                      sampleType profile !! j' = Some st' ->
                      metric_key profile st' ≠ metric_key profile st) ->
                   attrs st' !! metric_key profile st = Some (VInt x))
              eventType harvestSeq profile destination i ty e)
    as (_ & _ & st' & Hinv & ->); [done| |done|].
  - intros j s0 st0 st1 Hs0 _ Hstep i' s' Hi Hs'. simplify_eq.
    by eapply sample_step_metric.
  - by apply (Hinv i s).
Qed.

Lemma record_metric_values_witness :
  exists e,
    (_recordSamples "ProfileCPU" 0 sample_pprof_profile
       DESTINATION_TYPE_INGEST_MELT).1 !! 0%nat = Some ("ProfileCPU", e) /\
    e !! "samples_count" = Some (VInt 10) /\
    e !! "wall_nanoseconds" = Some (VInt 20).
Proof.
  destruct (recordSamples_complete "ProfileCPU" 0 sample_pprof_profile
              (ValueType.mk 3 4) eq_refl) as (calls & Hcalls & Hlen).
  { repeat constructor. }
  destruct calls as [|[ty e] calls]; [done|].
  assert ((_recordSamples "ProfileCPU" 0 sample_pprof_profile
             DESTINATION_TYPE_INGEST_MELT).1 !! 0%nat = Some (ty, e)) as He
    by (by rewrite Hcalls).
  pose proof (record_metric_values "ProfileCPU" 0 sample_pprof_profile
                DESTINATION_TYPE_INGEST_MELT 0%nat ty e
                (Sample.mk [1; 2; 3] [10; 20]) He eq_refl) as Hval.
  destruct (recordSamples_inv (λ _ _, True) "ProfileCPU" 0
              sample_pprof_profile DESTINATION_TYPE_INGEST_MELT 0%nat ty e
              (λ _, I) (λ _ _ _ _ _ _ _, I) He)
    as (-> & _).
  exists e. split; [exact He|]. clear He Hcalls Hlen.
  assert (metric_key sample_pprof_profile (ValueType.mk 1 2) = "samples_count")
    as Hk0 by (vm_compute; reflexivity).
  assert (metric_key sample_pprof_profile (ValueType.mk 3 4)
          = "wall_nanoseconds") as Hk1 by (vm_compute; reflexivity).
  split.
  - rewrite <- Hk0.
    apply (Hval 0%nat 10 (ValueType.mk 1 2) eq_refl eq_refl).
    intros j' st' Hj' Hst'. simpl in Hj'.
    assert (j' = 1%nat) as -> by lia. simpl in Hst'. injection Hst' as <-.
    rewrite Hk0, Hk1. discriminate.
  - rewrite <- Hk1.
    apply (Hval 1%nat 20 (ValueType.mk 3 4) eq_refl eq_refl).
    intros j' st' Hj' Hst'. simpl in Hj'. lia.
Defined.

End RecordFixed.

(** ** When the CPU marshaller returns, and what its events hold *)

Section CpuNodeMap.
Import Inspector.

Lemma set_parent_set_parent p q n : set_parent p (set_parent q n) = set_parent p n.
Proof. done. Qed.

Lemma index_nodes_lookup nodes : forall (g : gmap Z Node) k,
  let g' := foldl (λ nodeMap node, <[id node := set_parent None node]> nodeMap)
              g nodes in
  (is_Some (g' !! k) <-> is_Some (g !! k) \/ k ∈ id <$> nodes) /\
  (forall n, g' !! k = Some n ->
     g !! k = Some n \/
     exists node, node ∈ nodes /\ id node = k /\ n = set_parent None node).
Proof.
  induction nodes as [|node nodes IH]; intros g k; simpl.
  - split; [|by left]. split; [by left|]. intros [?|Hin]; [done|].
    by apply elem_of_nil in Hin.
  - destruct (IH (<[id node := set_parent None node]> g) k) as [Hdom Hval].
    split.
    + rewrite Hdom, lookup_insert_is_Some, elem_of_cons.
      destruct (decide (id node = k)) as [Heq|Hne]; [by intuition|].
      split.
      * intros [[?|[_ ?]]|?]; [done|by left|by right; right].
      * intros [?|[?|?]]; [left; right; by split|done|by right].
    + intros n Hn. destruct (Hval n Hn) as [Hg|(node' & Hin & Hid & ->)].
      * apply lookup_insert_Some in Hg as [[Hid <-]|[_ Hg]]; [|by left].
        right. exists node. split; [left|done].
      * right. exists node'. split; [by right|done].
Qed.

Lemma link_children_lookup p cs : forall (g : gmap Z Node) k,
  (is_Some (link_children p cs g !! k) <-> is_Some (g !! k)) /\
  (forall n, link_children p cs g !! k = Some n ->
     exists n0 q, g !! k = Some n0 /\ n = set_parent q n0).
Proof.
  unfold link_children.
  induction cs as [|c cs IH]; intros g k; simpl.
  - split; [done|]. intros n Hn. exists n, (parent n). split; [done|].
    by destruct n.
  - destruct (g !! c) as [cn|] eqn:Hc; [|apply IH].
    destruct (IH (<[c := set_parent (Some p) cn]> g) k) as [Hdom Hval]. split.
    + rewrite Hdom, lookup_insert_is_Some.
      destruct (decide (c = k)) as [->|Hne].
      * split; [intros _; by rewrite Hc|intros _; by left].
      * split; [by intros [?|[_ ?]]|intros ?; right; by split].
    + intros n Hn. destruct (Hval n Hn) as (n0 & q & Hn0 & ->).
      apply lookup_insert_Some in Hn0 as [[-> <-]|[_ Hn0]].
      * exists cn, q. by rewrite set_parent_set_parent.
      * eauto.
Qed.

Lemma link_nodes_lookup nodes : forall (g : gmap Z Node) k,
  (is_Some (link_nodes nodes g !! k) <-> is_Some (g !! k)) /\
  (forall n, link_nodes nodes g !! k = Some n ->
     exists n0 q, g !! k = Some n0 /\ n = set_parent q n0).
Proof.
  unfold link_nodes.
  induction nodes as [|node nodes IH]; intros g k; simpl.
  - split; [done|]. intros n Hn. exists n, (parent n). split; [done|].
    by destruct n.
  - set (g1 := match g !! id node with
               | Some n => _
               | None => g
               end).
    assert ((is_Some (g1 !! k) <-> is_Some (g !! k)) /\
            (forall n, g1 !! k = Some n ->
               exists n0 q, g !! k = Some n0 /\ n = set_parent q n0))
      as [Hdom1 Hval1].
    { subst g1. destruct (g !! id node) as [n|].
      - destruct (children n) as [cs|]; [apply link_children_lookup|].
        split; [done|]. intros n' Hn'. exists n', (parent n').
        split; [done|]. by destruct n'.
      - split; [done|]. intros n' Hn'. exists n', (parent n').
        split; [done|]. by destruct n'. }
    destruct (IH g1 k) as [Hdom Hval]. split; [by rewrite Hdom|].
    intros n Hn. destruct (Hval n Hn) as (n1 & q & Hn1 & ->).
    destruct (Hval1 n1 Hn1) as (n0 & q' & Hn0 & ->).
    exists n0, q. by rewrite set_parent_set_parent.
Qed.

(** The node map of the CPU marshaller holds a node under every id of
    [nodes] and under no other key; what it holds is a node of the list,
    with a parent link. *)
Lemma cpu_node_map_lookup profile k :
  (is_Some (cpu_node_map profile !! k) <-> k ∈ id <$> nodes profile) /\
  (forall n, cpu_node_map profile !! k = Some n ->
     exists node q, node ∈ nodes profile /\ id node = k /\ n = set_parent q node).
Proof.
  unfold cpu_node_map.
  destruct (link_nodes_lookup (nodes profile) (index_nodes (nodes profile)) k)
    as [Hdom Hval].
  destruct (index_nodes_lookup (nodes profile) ∅ k) as [Hdom0 Hval0].
  fold (index_nodes (nodes profile)) in Hdom0, Hval0. split.
  - rewrite Hdom, Hdom0, lookup_empty. split; [|by right].
    intros [[? ?]|?]; done.
  - intros n Hn. destruct (Hval n Hn) as (n0 & q & Hn0 & ->).
    destruct (Hval0 n0 Hn0) as [?|(node & Hin & Hid & ->)]; [done|].
    exists node, q. by rewrite set_parent_set_parent.
Qed.

Lemma gmap_keys_bounded {A} (g : gmap Z A) :
  exists lb, forall k, is_Some (g !! k) -> lb <= k.
Proof.
  induction g as [|k x g Hk _ IH] using map_first_key_ind.
  - exists 0. intros k [? Hk]. by rewrite lookup_empty in Hk.
  - destruct IH as [lb Hlb]. exists (Z.min lb k). intros k'.
    rewrite lookup_insert_is_Some. intros [<-|[_ Hk']]; [lia|].
    specialize (Hlb k' Hk'). lia.
Qed.

(** With ascending ids every walk along the parent links ends. *)
Lemma ids_ascend_walks_end profile :
  ids_ascend profile -> cpu_walks_end profile.
Proof.
  intros Hasc. set (g := cpu_node_map profile).
  pose proof (cpu_node_map_well_linked profile) as Hlinked. fold g in Hlinked.
  assert (forall k n p, g !! k = Some n -> parent n = Some p -> p < k) as Hless.
  { intros k n p Hn Hp. destruct (Hlinked k n Hn) as [_ Hpar].
    destruct (Hpar p Hp) as (pn & cs & Hpn & Hcs & Hin).
    destruct (cpu_node_map_lookup profile p) as [_ Hval].
    destruct (Hval pn Hpn) as (node & q & Hnode & Hid & ->).
    unfold ids_ascend in Hasc. rewrite Forall_forall in Hasc.
    specialize (Hasc node Hnode). simpl in Hcs. rewrite Hcs in Hasc. simpl in Hasc.
    rewrite Forall_forall in Hasc. specialize (Hasc k Hin). lia. }
  destruct (gmap_keys_bounded g) as [lb Hlb].
  assert (forall d k n, (Z.to_nat (k - lb) < d)%nat -> g !! k = Some n ->
            exists l, parent_chain g (Some n) l) as Hchain.
  { induction d as [|d IH]; intros k n Hd Hn; [lia|].
    destruct (parent n) as [p|] eqn:Hp.
    - destruct (Hlinked k n Hn) as [_ Hpar].
      destruct (Hpar p Hp) as (pn & cs & Hpn & _).
      pose proof (Hless k n p Hn Hp).
      pose proof (Hlb p (mk_is_Some _ _ Hpn)).
      destruct (IH p pn) as [l Hl]; [lia|done|].
      exists (n :: l). constructor. simpl. rewrite Hp. simpl. by rewrite Hpn.
    - exists [n]. constructor. simpl. rewrite Hp. constructor. }
  unfold cpu_walks_end. fold g. apply Forall_forall. intros s _.
  destruct (g !! s) as [n|] eqn:Hn.
  - apply (Hchain (S (Z.to_nat (s - lb))) s n); [lia|done].
  - exists []. constructor.
Qed.

End CpuNodeMap.

Section CpuEvents.
Import Inspector.

(** X7. The CPU marshaller returns exactly when the walk along the parent
    links ends for every sample, that is when no sampled node sits below a
    cycle of parent links; otherwise the loop of [_addLocation] does not
    end. *)
Theorem cpu_marshal_returns_iff harvestSeq profile :
  is_Some (_marshalCpuProfileToEvents harvestSeq profile)
  <-> cpu_walks_end profile.
Proof.
  split.
  - intros [events Hev]. by eapply cpu_sample_loop_walks_end.
  - intros Hfin.
    destruct (cpu_marshal_spec harvestSeq profile Hfin) as (events & -> & _).
    eauto.
Qed.

(** X8. When the id of every child listed in the profile is greater than the
    id of the node that lists it, the parent links cannot run into a cycle:
    the CPU marshaller returns, with one event per sample. *)
Theorem cpu_marshal_returns harvestSeq profile :
  ids_ascend profile ->
  exists events,
    _marshalCpuProfileToEvents harvestSeq profile = Some events /\
    length events = length (samples profile).
Proof.
  intros Hasc.
  destruct (cpu_marshal_spec harvestSeq profile (ids_ascend_walks_end _ Hasc))
    as (events & Hev & Hlen & _).
  eauto.
Qed.

Lemma cpu_marshal_returns_witness :
  exists events,
    _marshalCpuProfileToEvents 0 (sample_cpu_profile [5; 10; 20]) = Some events /\
    length events = 3%nat.
Proof.
  apply (cpu_marshal_returns 0 (sample_cpu_profile [5; 10; 20])).
  unfold ids_ascend. simpl. repeat (constructor; try done).
Defined.

Lemma cpu_event_dom harvestSeq profile i delta k :
  is_Some (cpu_event harvestSeq profile i delta !! k) -> k ∈ cpu_fixed_keys.
Proof.
  unfold cpu_event, cpu_fixed_keys. rewrite !lookup_insert_is_Some, lookup_empty.
  rewrite !elem_of_cons.
  intros [?|[_ [?|[_ [?|[_ [?|[_ [?|[_ [?|[_ [?|[_ [? ?]]]]]]]]]]]]]]];
    auto 10; done.
Qed.

Lemma cpu_event_fixed harvestSeq profile i delta :
  cpu_event harvestSeq profile i delta !! "harvest_seq" = Some (VInt harvestSeq) /\
  cpu_event harvestSeq profile i delta !! "sample_seq" = Some (VInt (Z.of_nat i)) /\
  cpu_event harvestSeq profile i delta !! "samples_count"
    = Some (VInt (Z.of_nat (length (samples profile)))) /\
  cpu_event harvestSeq profile i delta !! "duration_ns"
    = Some (VInt ((endTime profile - startTime profile) * 1000)) /\
  cpu_event harvestSeq profile i delta !! "time_ns"
    = Some (VInt (startTime profile * 1000)).
Proof. by vm_compute. Qed.

(** What one event of a marshalled profile is made of. *)
Lemma cpu_marshal_event harvestSeq profile events (i : nat) (e : Event) :
  _marshalCpuProfileToEvents harvestSeq profile = Some events ->
  events !! i = Some e ->
  exists (s : Z) (l : list Node),
    samples profile !! i = Some s /\
    parent_chain (cpu_node_map profile) (cpu_node_map profile !! s) l /\
    (forall m, (m < length l)%nat -> is_Some (e !! location_key m)) /\
    (forall k, (forall m, (m < length l)%nat -> k <> location_key m) ->
       e !! k = cpu_event harvestSeq profile i
                  (expected_delta (timeDeltas profile) i) !! k).
Proof.
  intros Hev He.
  assert (cpu_walks_end profile) as Hfin
    by (by eapply cpu_sample_loop_walks_end).
  destruct (cpu_marshal_spec harvestSeq profile Hfin)
    as (events' & Hev' & Hlen & Hspec).
  simplify_eq.
  destruct (lookup_lt_is_Some_2 (samples profile) i) as [s Hs].
  { rewrite <- Hlen. by eapply lookup_lt_Some. }
  destruct (Hspec i s Hs) as (e' & He' & Hadd). simplify_eq.
  apply addLocation_inv in Hadd as (l & Hl & Hloc & Hother).
  exists s, l. split; [done|]. split; [done|]. split; [|done].
  intros m Hm. rewrite Hloc by done. apply fmap_is_Some, lookup_lt_is_Some.
  unfold walk_locations. by rewrite length_reverse, length_fmap.
Qed.

(** X9. Event [i] of the CPU marshaller carries the harvest sequence number,
    its index as [sample_seq] and the number of samples; a thousand times the
    duration of the profile as [duration_ns] and a thousand times its start
    time as [time_ns], as long as these times and products are integers that
    a JavaScript number holds exactly; and the same value under
    [sample_period_cpu_nanoseconds] and [cpu_nanoseconds].  It has no
    attribute besides these seven and the locations. *)
Theorem cpu_event_attributes harvestSeq profile events i e :
  _marshalCpuProfileToEvents harvestSeq profile = Some events ->
  events !! i = Some e ->
  e !! "harvest_seq" = Some (VInt harvestSeq) /\
  e !! "sample_seq" = Some (VInt (Z.of_nat i)) /\
  e !! "samples_count" = Some (VInt (Z.of_nat (length (samples profile)))) /\
  (safe_integer (startTime profile) -> safe_integer (endTime profile) ->
   safe_integer ((endTime profile - startTime profile) * 1000) ->
   e !! "duration_ns"
     = Some (VInt ((endTime profile - startTime profile) * 1000))) /\
  (safe_integer (startTime profile * 1000) ->
   e !! "time_ns" = Some (VInt (startTime profile * 1000))) /\
  e !! "sample_period_cpu_nanoseconds" = e !! "cpu_nanoseconds" /\
  forall k, is_Some (e !! k) ->
    k ∈ cpu_fixed_keys \/ exists m, k = location_key m.
Proof.
  intros Hev He.
  destruct (cpu_marshal_event _ _ _ _ _ Hev He) as (s & l & _ & _ & _ & Hother).
  destruct (cpu_event_fixed harvestSeq profile i
              (expected_delta (timeDeltas profile) i))
    as (H1 & H2 & H3 & H4 & H5).
  destruct (cpu_event_delta harvestSeq profile i
              (expected_delta (timeDeltas profile) i)) as [H6 H7].
  rewrite !Hother by (intros; by apply fixed_key_not_location).
  split; [done|]. split; [done|]. split; [done|]. split; [done|].
  split; [done|]. split; [by rewrite H6, H7|].
  intros k Hk.
  destruct (decide (k ∈ location_key <$> seq 0 (length l)))
    as [(m & -> & _)%list_elem_of_fmap|Hnot]; [right; eauto|].
  left. rewrite Hother in Hk; [by eapply cpu_event_dom|].
  intros m Hm ->. apply Hnot, list_elem_of_fmap. exists m. split; [done|].
  apply elem_of_seq. lia.
Qed.

Lemma cpu_event_attributes_witness :
  exists events e,
    _marshalCpuProfileToEvents 4 (sample_cpu_profile [5; 10; 20])
      = Some events /\
    events !! 1%nat = Some e /\
    e !! "harvest_seq" = Some (VInt 4) /\
    e !! "sample_seq" = Some (VInt 1) /\
    e !! "samples_count" = Some (VInt 3) /\
    e !! "duration_ns" = Some (VInt 60000) /\
    e !! "time_ns" = Some (VInt 1000000) /\
    e !! "stack" = None.
Proof.
  destruct (cpu_marshal_spec 4 (sample_cpu_profile [5; 10; 20])
              (sample_cpu_profile_walks_end _)) as (events & Hev & Hlen & _).
  destruct events as [|e0 [|e events]]; [done..|].
  exists (e0 :: e :: events), e. split; [exact Hev|]. split; [reflexivity|].
  destruct (cpu_event_attributes 4 (sample_cpu_profile [5; 10; 20])
              (e0 :: e :: events) 1%nat e Hev eq_refl)
    as (H1 & H2 & H3 & H4 & H5 & _ & Hkeys).
  clear Hev Hlen.
  split; [exact H1|]. split; [exact H2|]. split; [exact H3|].
  split; [apply H4; unfold safe_integer; simpl; lia|].
  split; [apply H5; unfold safe_integer; simpl; lia|].
  destruct (e !! "stack") as [x|] eqn:Hx; [exfalso|reflexivity].
  destruct (Hkeys "stack") as [Hin|[m Hm]]; [by rewrite Hx| |].
  - unfold cpu_fixed_keys in Hin. rewrite !elem_of_cons, elem_of_nil in Hin.
    intuition discriminate.
  - revert Hm. apply fixed_key_not_location. intros s. discriminate.
Defined.

(** X10. The event of a sample of the CPU marshaller has a [location.0]
    exactly when the id of the sample is the id of a node of the profile; the
    event of a sample whose id no node has carries no location at all. *)
Theorem cpu_stack_iff_known_node harvestSeq profile events i s e :
  _marshalCpuProfileToEvents harvestSeq profile = Some events ->
  samples profile !! i = Some s ->
  events !! i = Some e ->
  (is_Some (e !! location_key 0) <-> s ∈ id <$> nodes profile) /\
  (s ∉ id <$> nodes profile -> forall m, e !! location_key m = None).
Proof.
  intros Hev Hs He.
  destruct (cpu_marshal_event _ _ _ _ _ Hev He)
    as (s' & l & Hs' & Hl & Hloc & Hother).
  simplify_eq.
  destruct (cpu_node_map_lookup profile s) as [Hdom _].
  assert (s ∉ id <$> nodes profile -> forall m, e !! location_key m = None)
    as Hunknown.
  { intros Hnot m.
    assert (cpu_node_map profile !! s = None) as Hnone.
    { apply eq_None_not_Some. by rewrite Hdom. }
    rewrite Hnone in Hl. inversion Hl; subst.
    rewrite Hother by (simpl; intros; lia). apply cpu_event_location. }
  split; [|done]. split.
  - intros Hsome. destruct (decide (s ∈ id <$> nodes profile)); [done|].
    rewrite Hunknown in Hsome by done. by destruct Hsome.
  - intros Hin. apply Hdom in Hin as [n Hn]. rewrite Hn in Hl.
    inversion Hl; subst. apply Hloc. simpl. lia.
Qed.

Lemma cpu_stack_iff_known_node_witness :
  exists events e,
    _marshalCpuProfileToEvents 0 stray_cpu_profile = Some events /\
    events !! 1%nat = Some e /\
    forall m, e !! location_key m = None.
Proof.
  assert (cpu_walks_end stray_cpu_profile) as Hfin.
  { apply ids_ascend_walks_end. unfold ids_ascend. simpl.
    repeat (constructor; try done). }
  destruct (cpu_marshal_spec 0 stray_cpu_profile Hfin)
    as (events & Hev & Hlen & _).
  destruct events as [|e0 [|e events]]; [done..|].
  exists (e0 :: e :: events), e. split; [exact Hev|]. split; [reflexivity|].
  destruct (cpu_stack_iff_known_node 0 stray_cpu_profile (e0 :: e :: events)
              1%nat 9 e Hev eq_refl eq_refl) as [_ Hnone].
  apply Hnone. clear. simpl. rewrite !elem_of_cons, elem_of_nil.
  intuition discriminate.
Defined.

End CpuEvents.

(** ** The deltas of the CPU marshaller *)

Section CpuDelta.
Import Inspector.

Lemma expected_delta_cases timeDeltas i :
  ((length timeDeltas < 2)%nat /\ expected_delta timeDeltas i = NaN) \/
  ((2 <= length timeDeltas)%nat /\
   expected_delta timeDeltas i
   = Num (match timeDeltas !! (i + 1)%nat with
          | Some d => d
          | None => sum_list (drop 1 timeDeltas)
                    / (Z.of_nat (length timeDeltas) - 1)
          end)).
Proof.
  unfold expected_delta, consumed.
  destruct (timeDeltas !! (i + 1)%nat) as [d|] eqn:Hd.
  - right. split; [|done]. apply lookup_lt_Some in Hd. lia.
  - apply lookup_ge_None_1 in Hd.
    rewrite take_ge by (rewrite length_drop; lia). rewrite length_drop.
    destruct (decide (length timeDeltas < 2)%nat) as [Hshort|Hlong].
    + left. split; [done|].
      destruct timeDeltas as [|d0 [|d1 tds]]; simpl in *; [done|done|lia].
    + right. split; [lia|]. unfold floor_div.
      destruct (Z.eqb_spec (Z.of_nat (length timeDeltas - 1)) 0) as [|_]; [lia|].
      do 2 f_equal. lia.
Qed.

(** X11. The delta attribute of an event of the CPU marshaller is NaN exactly
    when [timeDeltas] has fewer than two entries. Otherwise it is an integer:
    a thousand times the delta one position ahead, or, for a sample past the
    end of [timeDeltas], a thousand times the floor of the mean of all the
    deltas but the first. *)
Theorem cpu_delta_integer_or_nan harvestSeq profile events i e :
  _marshalCpuProfileToEvents harvestSeq profile = Some events ->
  events !! i = Some e ->
  ((length (timeDeltas profile) < 2)%nat /\
   e !! "cpu_nanoseconds" = Some (VNum NaN)) \/
  ((2 <= length (timeDeltas profile))%nat /\
   e !! "cpu_nanoseconds"
   = Some (VInt (match timeDeltas profile !! (i + 1)%nat with
                 | Some d => d
                 | None => sum_list (drop 1 (timeDeltas profile))
                           / (Z.of_nat (length (timeDeltas profile)) - 1)
                 end * 1000))).
Proof.
  intros Hev He.
  assert (cpu_walks_end profile) as Hfin
    by (by eapply cpu_sample_loop_walks_end).
  destruct (cpu_marshal_delta harvestSeq profile events i e Hfin Hev He)
    as [-> _].
  destruct (expected_delta_cases (timeDeltas profile) i) as [[? ->]|[? ->]];
    [by left|by right].
Qed.

Lemma cpu_delta_integer_or_nan_witness :
  exists events e,
    _marshalCpuProfileToEvents 0 (sample_cpu_profile [5; 10; 20])
      = Some events /\
    events !! 2%nat = Some e /\
    e !! "cpu_nanoseconds" = Some (VInt 15000).
Proof.
  destruct (cpu_marshal_spec 0 (sample_cpu_profile [5; 10; 20])
              (sample_cpu_profile_walks_end _)) as (events & Hev & Hlen & _).
  destruct events as [|e0 [|e1 [|e events]]]; [done..|].
  exists (e0 :: e1 :: e :: events), e.
  split; [exact Hev|]. split; [reflexivity|].
  destruct (cpu_delta_integer_or_nan 0 (sample_cpu_profile [5; 10; 20])
              (e0 :: e1 :: e :: events) 2%nat e Hev eq_refl)
    as [[Hshort _]|[_ Hdelta]].
  - simpl in Hshort. lia.
  - exact Hdelta.
Defined.

End CpuDelta.

(** ** What the events of the heap marshaller hold *)

Section HeapEvents.
Import Inspector.

Lemma tree_nodes_unfold n :
  tree_nodes n = n :: mjoin (tree_nodes <$> Heap.children n).
Proof. by destruct n. Qed.

Lemma tree_nodes_self n : n ∈ tree_nodes n.
Proof. rewrite tree_nodes_unfold. left. Qed.

Lemma tree_nodes_child child n :
  child ∈ Heap.children n -> forall m, m ∈ tree_nodes child -> m ∈ tree_nodes n.
Proof.
  intros Hc m Hm. rewrite (tree_nodes_unfold n). right.
  apply list_elem_of_join. exists (tree_nodes child). split; [done|].
  apply list_elem_of_fmap. eauto.
Qed.

Lemma tree_nodes_trans h : forall n m,
  n ∈ tree_nodes h -> m ∈ tree_nodes n -> m ∈ tree_nodes h.
Proof.
  induction h as [i s c cs IH] using heap_node_ind. intros n m Hn Hm.
  rewrite tree_nodes_unfold in Hn. simpl in Hn.
  apply elem_of_cons in Hn as [->|Hn]; [done|].
  apply list_elem_of_join in Hn as (l & Hn & (child & -> & Hc)%list_elem_of_fmap).
  rewrite Forall_forall in IH.
  apply (tree_nodes_child child); [done|]. by apply (IH child Hc n m).
Qed.

(** A linked object of the tree under [head] is the object of a node of
    the tree. *)
Lemma tree_chain_node head l :
  tree_chain head l -> Heap.node l ∈ tree_nodes head.
Proof.
  induction 1 as [|child parent Hp IH Hc]; simpl.
  - apply tree_nodes_self.
  - apply (tree_nodes_trans head (Heap.node parent)); [done|].
    apply (tree_nodes_child child); [done|]. apply tree_nodes_self.
Qed.

(** [_buildHeapNodeMap] keeps the keys of the map and adds the ids of all
    nodes below [self]. *)
Lemma buildHeapNodeMap_keys : forall self selfParent (nodeMap : gmap Z Heap.Linked),
  (forall k, is_Some (nodeMap !! k) ->
     is_Some (_buildHeapNodeMap self selfParent nodeMap !! k)) /\
  (forall child n, child ∈ Heap.children self -> n ∈ tree_nodes child ->
     is_Some (_buildHeapNodeMap self selfParent nodeMap !! Heap.id n)).
Proof.
  induction self as [i s c cs IH] using heap_node_ind.
  intros selfParent nodeMap. rewrite buildHeapNodeMap_unfold.
  simpl Heap.children.
  generalize (Heap.mkLinked (Heap.mkNode i s c cs) selfParent) as parent.
  intros parent. revert nodeMap.
  induction IH as [|child cs IHchild _ IHcs]; intros nodeMap; simpl.
  - split; [done|]. intros child n Hc. by apply elem_of_nil in Hc.
  - set (m1 := _buildHeapNodeMap child (Some parent)
                 (<[Heap.id child := Heap.mkLinked child (Some parent)]> nodeMap)).
    destruct (IHcs m1) as [Hkeep Hadd].
    destruct (IHchild (Some parent)
                (<[Heap.id child := Heap.mkLinked child (Some parent)]> nodeMap))
      as [Hkeep1 Hadd1].
    fold m1 in Hkeep1, Hadd1. split.
    + intros k Hk. apply Hkeep, Hkeep1. rewrite lookup_insert_is_Some.
      destruct (decide (Heap.id child = k)); [by left|by right].
    + intros child' n [->|Hc]%elem_of_cons Hn; [|by eapply Hadd].
      apply Hkeep. rewrite tree_nodes_unfold in Hn.
      apply elem_of_cons in Hn as [->|Hn].
      * apply Hkeep1. rewrite lookup_insert_is_Some. by left.
      * apply list_elem_of_join in Hn
          as (l & Hn & (grandchild & -> & Hg)%list_elem_of_fmap).
        by eapply Hadd1.
Qed.

(** The node map of the heap marshaller holds an object exactly under the
    ids of the nodes of the tree. *)
Lemma heap_node_map_dom head k :
  is_Some (heap_node_map head !! k) <-> k ∈ Heap.id <$> tree_nodes head.
Proof.
  split.
  - intros [l Hl]. apply heap_node_map_linked in Hl as [Hchain <-].
    apply list_elem_of_fmap. exists (Heap.node l). split; [done|].
    by apply tree_chain_node.
  - intros (n & -> & Hn)%list_elem_of_fmap. unfold heap_node_map.
    destruct (buildHeapNodeMap_keys head None
                (<[Heap.id head := Heap.mkLinked head None]> ∅)) as [Hkeep Hadd].
    rewrite tree_nodes_unfold in Hn. apply elem_of_cons in Hn as [->|Hn].
    + apply Hkeep. rewrite lookup_insert_is_Some. by left.
    + apply list_elem_of_join in Hn
        as (l & Hn & (child & -> & Hc)%list_elem_of_fmap).
      by eapply Hadd.
Qed.

Lemma heap_event_dom harvestSeq start profile i size endTime k :
  is_Some (heap_event harvestSeq start profile i size endTime !! k) ->
  k ∈ heap_fixed_keys.
Proof.
  unfold heap_event, heap_fixed_keys.
  rewrite !lookup_insert_is_Some, lookup_empty. rewrite !elem_of_cons.
  intros [?|[_ [?|[_ [?|[_ [?|[_ [?|[_ [?|[_ [?|[_ [? ?]]]]]]]]]]]]]]];
    auto 10; done.
Qed.

Lemma heap_event_fixed harvestSeq start profile i size endTime :
  heap_event harvestSeq start profile i size endTime !! "harvest_seq"
    = Some (VInt harvestSeq) /\
  heap_event harvestSeq start profile i size endTime !! "sample_seq"
    = Some (VInt (Z.of_nat i)) /\
  heap_event harvestSeq start profile i size endTime !! "samples_count"
    = Some (VInt (Z.of_nat (length (Heap.samples profile)))) /\
  heap_event harvestSeq start profile i size endTime !! "duration_ns"
    = Some (VInt ((endTime - start) * 1000)) /\
  heap_event harvestSeq start profile i size endTime !! "time_ns"
    = Some (VInt (start * 1000)).
Proof. by vm_compute. Qed.

Lemma heap_event_location harvestSeq start profile i size endTime m :
  heap_event harvestSeq start profile i size endTime !! location_key m = None.
Proof.
  unfold heap_event. destruct (location_key_head m) as [s ->].
  by repeat (rewrite lookup_insert_ne by discriminate).
Qed.

(** What one event of a marshalled heap profile is made of. *)
Lemma heap_marshal_event harvestSeq start profile now events (i : nat)
  (e : Event) :
  _marshalHeapSamplingProfileToEvents harvestSeq start profile now
    = Some events ->
  events !! i = Some e ->
  exists sample (l : list Heap.Linked),
    Heap.samples profile !! i = Some sample /\
    l = from_option linked_chain []
          (heap_node_map (Heap.head profile) !! Heap.nodeId sample) /\
    (forall m, (m < length l)%nat -> is_Some (e !! location_key m)) /\
    (forall k, (forall m, (m < length l)%nat -> k <> location_key m) ->
       e !! k = heap_event harvestSeq start profile i
                  (inclusive_size (heap_node_map (Heap.head profile))
                     (Heap.nodeId sample)) (now i) !! k).
Proof.
  intros Hev He. unfold _marshalHeapSamplingProfileToEvents in Hev.
  destruct (heap_sample_loop_spec harvestSeq start profile now
              (heap_node_map (Heap.head profile)) (Heap.samples profile) 0%nat)
    as (events' & Hev' & Hlen & Hspec).
  simplify_eq.
  destruct (lookup_lt_is_Some_2 (Heap.samples profile) i) as [sample Hs].
  { rewrite <- Hlen. by eapply lookup_lt_Some. }
  destruct (Hspec i sample Hs) as (e' & He' & Hadd). simplify_eq.
  simpl in Hadd. unfold _addLocation in Hadd. rewrite heap_walk in Hadd.
  simpl in Hadd.
  set (l := from_option linked_chain []
              (heap_node_map (Heap.head profile) !! Heap.nodeId sample)) in *.
  pose proof (addLocation_spec
                (heap_event harvestSeq start profile i
                   (inclusive_size (heap_node_map (Heap.head profile))
                      (Heap.nodeId sample)) (now i))
                (Heap.nodeId sample) (heap_node_map (Heap.head profile)) l)
    as Hspec'.
  destruct Hspec' as (e' & He' & Hloc & Hother).
  { simpl. subst l. destruct (heap_node_map _ !! _) as [x|]; simpl.
    - apply heap_parent_chain.
    - constructor. }
  { simpl. subst l. destruct (heap_node_map _ !! _) as [x|]; simpl; [|done].
    by rewrite heap_depth_chain. }
  unfold _addLocation in He'. rewrite heap_walk in He'. simpl in He'.
  fold l in He'. rewrite He' in Hadd. simplify_eq.
  exists sample, l. split; [done|]. split; [done|]. split; [|done].
  intros m Hm. rewrite Hloc by done. apply fmap_is_Some, lookup_lt_is_Some.
  unfold walk_locations. by rewrite length_reverse, length_fmap.
Qed.

(** X12. Event [i] of the heap marshaller carries the harvest sequence number,
    its index as [sample_seq], the number of samples, a thousand times the
    start of the sampling window as [time_ns], a thousand times the time from
    that start to the clock reading taken for the sample as [duration_ns], and
    the same value under [sample_period_inuse_space_bytes] and
    [inuse_space_bytes]; it has no attribute besides these seven and the
    locations. *)
Theorem heap_event_attributes harvestSeq start profile now events i e :
  _marshalHeapSamplingProfileToEvents harvestSeq start profile now
    = Some events ->
  events !! i = Some e ->
  e !! "harvest_seq" = Some (VInt harvestSeq) /\
  e !! "sample_seq" = Some (VInt (Z.of_nat i)) /\
  e !! "samples_count"
    = Some (VInt (Z.of_nat (length (Heap.samples profile)))) /\
  e !! "duration_ns" = Some (VInt ((now i - start) * 1000)) /\
  e !! "time_ns" = Some (VInt (start * 1000)) /\
  e !! "sample_period_inuse_space_bytes" = e !! "inuse_space_bytes" /\
  forall k, is_Some (e !! k) ->
    k ∈ heap_fixed_keys \/ exists m, k = location_key m.
Proof.
  intros Hev He.
  destruct (heap_marshal_event _ _ _ _ _ _ _ Hev He)
    as (sample & l & _ & _ & _ & Hother).
  set (size := inclusive_size (heap_node_map (Heap.head profile))
                 (Heap.nodeId sample)) in *.
  destruct (heap_event_fixed harvestSeq start profile i size (now i))
    as (H1 & H2 & H3 & H4 & H5).
  destruct (heap_event_size harvestSeq start profile i size (now i)) as [H6 H7].
  rewrite !Hother by (intros; by apply fixed_key_not_location).
  split; [done|]. split; [done|]. split; [done|]. split; [done|].
  split; [done|]. split; [by rewrite H6, H7|].
  intros k Hk.
  destruct (decide (k ∈ location_key <$> seq 0 (length l)))
    as [(m & -> & _)%list_elem_of_fmap|Hnot]; [right; eauto|].
  left. rewrite Hother in Hk; [by eapply heap_event_dom|].
  intros m Hm ->. apply Hnot, list_elem_of_fmap. exists m. split; [done|].
  apply elem_of_seq. lia.
Qed.

Lemma heap_event_attributes_witness :
  exists events e,
    _marshalHeapSamplingProfileToEvents 4 1000 sample_heap_profile
      (λ i, 2000 + Z.of_nat i) = Some events /\
    events !! 1%nat = Some e /\
    e !! "harvest_seq" = Some (VInt 4) /\
    e !! "sample_seq" = Some (VInt 1) /\
    e !! "samples_count" = Some (VInt 3) /\
    e !! "duration_ns" = Some (VInt 1001000) /\
    e !! "time_ns" = Some (VInt 1000000).
Proof.
  destruct (heap_marshal_size 4 1000 sample_heap_profile
              (λ i, 2000 + Z.of_nat i)) as (events & Hev & Hlen & _).
  destruct events as [|e0 [|e events]]; [done..|].
  exists (e0 :: e :: events), e. split; [exact Hev|]. split; [reflexivity|].
  destruct (heap_event_attributes 4 1000 sample_heap_profile
              (λ i, 2000 + Z.of_nat i) (e0 :: e :: events) 1%nat e Hev eq_refl)
    as (H1 & H2 & H3 & H4 & H5 & _).
  split; [exact H1|]. split; [exact H2|]. split; [exact H3|].
  split; [exact H4|exact H5].
Defined.

(** X13. The event of a sample of the heap marshaller has a [location.0]
    exactly when the node id of the sample is the id of a node of the
    allocation tree; for a sample whose node id is not in the tree the size is
    0 and the event carries no location at all. *)
Theorem heap_stack_iff_known_node harvestSeq start profile now events i sample e :
  _marshalHeapSamplingProfileToEvents harvestSeq start profile now
    = Some events ->
  Heap.samples profile !! i = Some sample ->
  events !! i = Some e ->
  (is_Some (e !! location_key 0)
   <-> Heap.nodeId sample ∈ Heap.id <$> tree_nodes (Heap.head profile)) /\
  (Heap.nodeId sample ∉ Heap.id <$> tree_nodes (Heap.head profile) ->
   e !! "inuse_space_bytes" = Some (VInt 0) /\
   forall m, e !! location_key m = None).
Proof.
  intros Hev Hs He.
  destruct (heap_marshal_event _ _ _ _ _ _ _ Hev He)
    as (sample' & l & Hs' & Hl & Hloc & Hother).
  simplify_eq.
  pose proof (heap_node_map_dom (Heap.head profile) (Heap.nodeId sample)) as Hdom.
  assert (Heap.nodeId sample ∉ Heap.id <$> tree_nodes (Heap.head profile) ->
          e !! "inuse_space_bytes" = Some (VInt 0) /\
          forall m, e !! location_key m = None) as Hunknown.
  { intros Hnot.
    assert (heap_node_map (Heap.head profile) !! Heap.nodeId sample = None)
      as Hnone.
    { apply eq_None_not_Some. by rewrite Hdom. }
    split.
    - rewrite Hother by (intros; by apply fixed_key_not_location).
      unfold inclusive_size. rewrite Hnone.
      apply heap_event_size.
    - intros m. rewrite Hother; [apply heap_event_location|].
      rewrite Hnone. simpl. intros; lia. }
  split; [|done]. split.
  - intros Hsome.
    destruct (decide (Heap.nodeId sample
                      ∈ Heap.id <$> tree_nodes (Heap.head profile))); [done|].
    destruct (Hunknown n) as [_ Hnone]. rewrite Hnone in Hsome.
    by destruct Hsome.
  - intros Hin. apply Hdom in Hin as [x Hx]. apply Hloc. rewrite Hx. simpl.
    rewrite <- heap_depth_chain. destruct x as [? [?|]]; simpl; lia.
Qed.

Lemma heap_stack_iff_known_node_witness :
  exists events e,
    _marshalHeapSamplingProfileToEvents 0 1000 stray_heap_profile (λ _, 2000)
      = Some events /\
    events !! 1%nat = Some e /\
    e !! "inuse_space_bytes" = Some (VInt 0) /\
    forall m, e !! location_key m = None.
Proof.
  destruct (heap_marshal_size 0 1000 stray_heap_profile (λ _, 2000))
    as (events & Hev & Hlen & _).
  destruct events as [|e0 [|e events]]; [done..|].
  exists (e0 :: e :: events), e. split; [exact Hev|]. split; [reflexivity|].
  destruct (heap_stack_iff_known_node 0 1000 stray_heap_profile (λ _, 2000)
              (e0 :: e :: events) 1%nat (Heap.mkSample 9) e Hev eq_refl eq_refl)
    as [_ Hnone].
  apply Hnone. clear. simpl. rewrite !elem_of_cons, elem_of_nil.
  intuition discriminate.
Defined.

End HeapEvents.

(** ** Starting and stopping the inspector profiler *)

Section InspectorLifecycle.
Import Inspector.

Lemma callbacks_app t1 t2 : callbacks (t1 ++ t2) = callbacks t1 ++ callbacks t2.
Proof. apply omap_app. Qed.

Lemma only_posts_callbacks methods added :
  only_posts methods added -> callbacks added = [].
Proof.
  induction 1 as [|e added [->|(m & failed & -> & _)] _ IH]; simpl; done.
Qed.

Lemma only_posts_app methods a1 a2 :
  only_posts methods a1 -> only_posts methods a2 -> only_posts methods (a1 ++ a2).
Proof. apply Forall_app_2. Qed.

Ltac step_fails :=
  repeat match goal with
         | |- context [if ?fails ?m then _ else _] =>
             let H := fresh "Hfail" in destruct (fails m) eqn:H; simpl
         end.

Ltac posts :=
  repeat first
    [ apply Forall_nil_2
    | apply Forall_cons_2;
      [first [by left
             |right; eexists _, _; split; [reflexivity|];
              repeat first [by left|right]]|] ].

Ltac finish :=
  repeat split; try done; eexists;
  (split; [first [by rewrite <- ?app_assoc|symmetry; apply app_nil_r]|posts]).

(** [_maybeStartCpuProfiler]: what it adds to the trace, and what it leaves
    of the world. *)
Lemma maybeStartCpu_spec fails w :
  let cpu := selected (selectedProfiles (profiler w)) PROFILING_TYPE_CPU in
  let r := _maybeStartCpuProfiler fails w in
  r.1 = cpu && (fails Profiler_setSamplingInterval || fails Profiler_enable
                || fails Profiler_start) /\
  profiler r.2 = profiler w /\
  engines r.2
  = (if cpu && negb r.1 then mkEngines true (heap_running (engines w))
     else engines w) /\
  exists added,
    trace r.2 = trace w ++ added /\
    only_posts [Profiler_setSamplingInterval; Profiler_enable; Profiler_start]
      added.
Proof.
  unfold _maybeStartCpuProfiler, post, did. simpl.
  destruct (selected _ _); simpl.
  2:{ finish. }
  destruct (fails Profiler_setSamplingInterval); simpl.
  { finish. }
  destruct (fails Profiler_enable); simpl.
  { finish. }
  destruct (fails Profiler_start); simpl.
  { finish. }
  finish.
Qed.

Lemma maybeStartHeap_spec fails now w :
  let heap := selected (selectedProfiles (profiler w)) PROFILING_TYPE_HEAP in
  let r := _maybeStartHeapProfiler fails now w in
  r.1 = heap && (fails HeapProfiler_enable || fails HeapProfiler_startSampling) /\
  profiler r.2
  = (if heap && negb r.1 then set_heapSampleStartTime now (profiler w)
     else profiler w) /\
  engines r.2
  = (if heap && negb r.1 then mkEngines (cpu_running (engines w)) true
     else engines w) /\
  exists added,
    trace r.2 = trace w ++ added /\
    only_posts [HeapProfiler_enable; HeapProfiler_startSampling] added.
Proof.
  unfold _maybeStartHeapProfiler, post, did, update. simpl.
  destruct (selected _ _); simpl.
  2:{ finish. }
  destruct (fails HeapProfiler_enable); simpl.
  { finish. }
  destruct (fails HeapProfiler_startSampling); simpl.
  { finish. }
  finish.
Qed.

Lemma maybeStopCpu_spec fails w :
  let cpu := selected (selectedProfiles (profiler w)) PROFILING_TYPE_CPU in
  let r := _maybeStopCpuProfiler fails w in
  r.1 = cpu && (fails Profiler_stop || fails Profiler_disable) /\
  profiler r.2 = profiler w /\
  engines r.2
  = (if cpu && negb (fails Profiler_stop)
     then mkEngines false (heap_running (engines w)) else engines w) /\
  exists added,
    trace r.2 = trace w ++ added /\
    only_posts [Profiler_stop; Profiler_disable] added.
Proof.
  unfold _maybeStopCpuProfiler, post, did. simpl.
  destruct (selected _ _); simpl.
  2:{ finish. }
  destruct (fails Profiler_stop); simpl.
  { finish. }
  destruct (fails Profiler_disable); simpl.
  { finish. }
  finish.
Qed.

Lemma maybeStopHeap_spec fails w :
  let heap := selected (selectedProfiles (profiler w)) PROFILING_TYPE_HEAP in
  let r := _maybeStopHeapProfiler fails w in
  r.1 = heap && (fails HeapProfiler_stopSampling || fails HeapProfiler_disable) /\
  profiler r.2 = profiler w /\
  engines r.2
  = (if heap && negb (fails HeapProfiler_stopSampling)
     then mkEngines (cpu_running (engines w)) false else engines w) /\
  exists added,
    trace r.2 = trace w ++ added /\
    only_posts [HeapProfiler_stopSampling; HeapProfiler_disable] added.
Proof.
  unfold _maybeStopHeapProfiler, post, did. simpl.
  destruct (selected _ _); simpl.
  2:{ finish. }
  destruct (fails HeapProfiler_stopSampling); simpl.
  { finish. }
  destruct (fails HeapProfiler_disable); simpl.
  { finish. }
  finish.
Qed.

(** [stop]: the two shutdowns, each followed by its [clearInterval], then
    the disconnection and the call of the callback. *)
Lemma stop_spec fails callback w :
  let cpu := selected (selectedProfiles (profiler w)) PROFILING_TYPE_CPU in
  let heap := selected (selectedProfiles (profiler w)) PROFILING_TYPE_HEAP in
  let w' := stop fails callback w in
  profiler w' = set_heapTimer false (set_cpuTimer false (profiler w)) /\
  engines w'
  = mkEngines
      (cpu_running (engines w) && negb (cpu && negb (fails Profiler_stop)))
      (heap_running (engines w)
       && negb (heap && negb (fails HeapProfiler_stopSampling))) /\
  exists a1 a2,
    trace w'
    = trace w ++ a1 ++ [ClearInterval PROFILING_TYPE_CPU] ++ a2
      ++ [ClearInterval PROFILING_TYPE_HEAP; Disconnect]
      ++ [if callback then Callback false (engines w') else UncaughtTypeError] /\
    only_posts [Profiler_stop; Profiler_disable] a1 /\
    only_posts [HeapProfiler_stopSampling; HeapProfiler_disable] a2.
Proof.
  unfold stop.
  pose proof (maybeStopCpu_spec fails w) as H1. cbv zeta in H1.
  destruct (_maybeStopCpuProfiler fails w) as [err1 w1].
  simpl in H1. destruct H1 as (_ & Hp1 & He1 & a1 & Ht1 & Ha1).
  set (w2 := update (set_cpuTimer false)
               (did (ClearInterval PROFILING_TYPE_CPU)
                  (if err1 then did LogError w1 else w1))).
  assert (profiler w2 = set_cpuTimer false (profiler w)) as Hp.
  { subst w2. destruct err1; simpl; by rewrite Hp1. }
  assert (engines w2 = engines w1) as He by (subst w2; by destruct err1).
  assert (trace w2 = trace w ++ (a1 ++ (if err1 then [LogError] else []))
                       ++ [ClearInterval PROFILING_TYPE_CPU]) as Ht.
  { subst w2. destruct err1; simpl; rewrite Ht1, <- ?app_assoc; simpl;
      by rewrite ?app_nil_r. }
  clearbody w2.
  pose proof (maybeStopHeap_spec fails w2) as H2. cbv zeta in H2.
  destruct (_maybeStopHeapProfiler fails w2) as [err2 w3].
  simpl in H2. destruct H2 as (_ & Hp2 & He2 & a2 & Ht2 & Ha2).
  rewrite Hp in Hp2, He2. simpl in He2. rewrite He, He1 in He2.
  assert (forall (e : Effect) (b : bool) x,
            profiler (invoke callback false
                        (did e (update (set_heapTimer false)
                                  (did x (if b then did LogError w3 else w3)))))
            = set_heapTimer false (profiler w3)) as Hprof
    by (intros; destruct b, callback; done).
  assert (forall (e : Effect) (b : bool) x,
            engines (invoke callback false
                       (did e (update (set_heapTimer false)
                                 (did x (if b then did LogError w3 else w3)))))
            = engines w3) as Heng
    by (intros; destruct b, callback; done).
  simpl. rewrite Hprof, Heng, Hp2. split; [done|]. split.
  { rewrite He2.
    destruct (selected _ PROFILING_TYPE_CPU), (selected _ PROFILING_TYPE_HEAP),
      (fails Profiler_stop), (fails HeapProfiler_stopSampling),
      (engines w) as [[] []]; done. }
  exists (a1 ++ (if err1 then [LogError] else [])),
         (a2 ++ (if err2 then [LogError] else [])).
  split; [|split].
  - destruct err2, callback; simpl; rewrite Ht2, Ht, <- ?app_assoc; simpl;
      rewrite <- ?app_assoc; simpl; by rewrite ?app_nil_r.
  - apply only_posts_app; [done|]. destruct err1; posts.
  - apply only_posts_app; [done|]. destruct err2; posts.
Qed.

Lemma only_posts_not_in methods added e :
  only_posts methods added -> e ∈ added ->
  e = LogError \/ exists m failed, e = Post m failed /\ m ∈ methods.
Proof. intros Hall Hin. unfold only_posts in Hall. rewrite Forall_forall in Hall. auto. Qed.

(** X14. [stop] of the inspector profiler, on a profiler that has a session
    and with a callback, completes whatever commands the session rejects: both
    timers are cleared, the session is disconnected once, and the callback is
    called exactly once, last and without an error. An engine is stopped
    exactly when its type is selected and the session accepts the command that
    stops it. *)
Theorem stop_always_completes fails w :
  let w' := stop fails true w in
  let cpu := selected (selectedProfiles (profiler w)) PROFILING_TYPE_CPU in
  let heap := selected (selectedProfiles (profiler w)) PROFILING_TYPE_HEAP in
  (exists mid,
     trace w' = trace w ++ mid ++ [Disconnect; Callback false (engines w')] /\
     callbacks mid = [] /\
     ClearInterval PROFILING_TYPE_CPU ∈ mid /\
     ClearInterval PROFILING_TYPE_HEAP ∈ mid /\
     (Disconnect ∉ mid) /\ (UncaughtTypeError ∉ mid)) /\
  cpuTimer (profiler w') = false /\ heapTimer (profiler w') = false /\
  cpu_running (engines w')
  = (cpu_running (engines w) && negb (cpu && negb (fails Profiler_stop))) /\
  heap_running (engines w')
  = (heap_running (engines w)
     && negb (heap && negb (fails HeapProfiler_stopSampling))).
Proof.
  intros w' cpu heap.
  destruct (stop_spec fails true w) as (Hp & He & a1 & a2 & Ht & Ha1 & Ha2).
  fold w' in Hp, He, Ht. split; [|by rewrite Hp, He].
  exists (a1 ++ [ClearInterval PROFILING_TYPE_CPU] ++ a2
          ++ [ClearInterval PROFILING_TYPE_HEAP]).
  split; [|split; [|split; [|split; [|split]]]].
  - rewrite Ht, <- !app_assoc. simpl. by rewrite <- ?app_assoc.
  - rewrite !callbacks_app, (only_posts_callbacks _ _ Ha1),
      (only_posts_callbacks _ _ Ha2). done.
  - rewrite !elem_of_app. right. left. by left.
  - rewrite !elem_of_app. do 3 right. by left.
  - rewrite !elem_of_app.
    intros [Hin|[Hin|[Hin|Hin]]].
    + by destruct (only_posts_not_in _ _ _ Ha1 Hin) as [?|(? & ? & ? & _)].
    + apply elem_of_cons in Hin as [?|Hin]; [done|]. by apply elem_of_nil in Hin.
    + by destruct (only_posts_not_in _ _ _ Ha2 Hin) as [?|(? & ? & ? & _)].
    + apply elem_of_cons in Hin as [?|Hin]; [done|]. by apply elem_of_nil in Hin.
  - rewrite !elem_of_app.
    intros [Hin|[Hin|[Hin|Hin]]].
    + by destruct (only_posts_not_in _ _ _ Ha1 Hin) as [?|(? & ? & ? & _)].
    + apply elem_of_cons in Hin as [?|Hin]; [done|]. by apply elem_of_nil in Hin.
    + by destruct (only_posts_not_in _ _ _ Ha2 Hin) as [?|(? & ? & ? & _)].
    + apply elem_of_cons in Hin as [?|Hin]; [done|]. by apply elem_of_nil in Hin.
Qed.

Lemma scheduleHarvests_spec w :
  let cpu := selected (selectedProfiles (profiler w)) PROFILING_TYPE_CPU in
  let heap := selected (selectedProfiles (profiler w)) PROFILING_TYPE_HEAP in
  let w' := _scheduleHarvests w in
  engines w' = engines w /\
  harvestSeq (profiler w') = harvestSeq (profiler w) /\
  selectedProfiles (profiler w') = selectedProfiles (profiler w) /\
  heapSampleStartTime (profiler w') = heapSampleStartTime (profiler w) /\
  cpuTimer (profiler w') = (cpuTimer (profiler w) || cpu) /\
  heapTimer (profiler w') = (heapTimer (profiler w) || heap) /\
  trace w'
  = trace w
    ++ (if cpu then [SetInterval PROFILING_TYPE_CPU
                       (cpuReportInterval (profiler w))] else [])
    ++ (if heap then [SetInterval PROFILING_TYPE_HEAP
                        (heapReportInterval (profiler w))] else []).
Proof.
  unfold _scheduleHarvests, did, update. simpl.
  destruct (selected _ PROFILING_TYPE_CPU), (selected _ PROFILING_TYPE_HEAP);
    simpl; rewrite ?orb_true_r, ?orb_false_r, <- ?app_assoc, ?app_nil_r; done.
Qed.

(** X15. [start] of the inspector profiler does nothing at all when no
    profiling type is selected, not even call the callback; when a type is
    selected it calls the callback exactly once, whatever commands the session
    rejects. *)
Theorem start_calls_back_once fails now w :
  (selectedProfiles (profiler w) = 0 -> start fails now w = w) /\
  (selectedProfiles (profiler w) <> 0 ->
   exists err engines,
     callbacks (trace (start fails now w))
     = callbacks (trace w) ++ [(err, engines)]).
Proof.
  split.
  - intros Hz. unfold start. by rewrite Hz.
  - intros Hnz. unfold start.
    destruct (Z.eqb_spec (selectedProfiles (profiler w)) 0) as [|_]; [done|].
    pose proof (maybeStartCpu_spec fails (did Connect w)) as H1. cbv zeta in H1.
    destruct (_maybeStartCpuProfiler fails (did Connect w)) as [err1 w1].
    simpl in H1. destruct H1 as (_ & Hp1 & _ & a1 & Ht1 & Ha1).
    destruct err1.
    { exists true, (engines w1). unfold invoke, did. simpl.
      rewrite Ht1, !callbacks_app, (only_posts_callbacks _ _ Ha1). simpl.
      by rewrite !app_nil_r. }
    pose proof (maybeStartHeap_spec fails now w1) as H2. cbv zeta in H2.
    destruct (_maybeStartHeapProfiler fails now w1) as [err2 w2].
    simpl in H2. destruct H2 as (_ & Hp2 & _ & a2 & Ht2 & Ha2).
    destruct err2.
    + destruct (stop_spec fails false (invoke true true w2))
        as (_ & _ & a3 & a4 & Ht & Ha3 & Ha4).
      exists true, (engines w2). rewrite Ht. unfold invoke, did. simpl.
      rewrite Ht2, Ht1, !callbacks_app. simpl. rewrite !callbacks_app.
      rewrite (only_posts_callbacks _ _ Ha1), (only_posts_callbacks _ _ Ha2),
        (only_posts_callbacks _ _ Ha3), (only_posts_callbacks _ _ Ha4).
      simpl. by rewrite !app_nil_r.
    + destruct (scheduleHarvests_spec w2) as (He & _ & _ & _ & _ & _ & Ht).
      exists false, (engines w2). unfold invoke, did. simpl. rewrite He, Ht.
      rewrite Ht2, Ht1, !callbacks_app. simpl.
      rewrite (only_posts_callbacks _ _ Ha1), (only_posts_callbacks _ _ Ha2).
      destruct (selected (selectedProfiles (profiler w2)) PROFILING_TYPE_CPU),
        (selected (selectedProfiles (profiler w2)) PROFILING_TYPE_HEAP);
        simpl; by rewrite ?app_nil_r.
Qed.

(** X16. When the CPU type is selected and the session rejects one of the
    three commands that start the CPU engine, [start] of the inspector
    profiler calls the callback with the error and does nothing else: the
    profiler object and the engines are as before, and after the connection
    the trace holds only commands of the CPU engine, the error log and, last,
    the callback; the session is not disconnected and no timer is set. *)
Theorem inspector_cpu_start_failure fails now w :
  selected (selectedProfiles (profiler w)) PROFILING_TYPE_CPU = true ->
  fails Profiler_setSamplingInterval || fails Profiler_enable
  || fails Profiler_start = true ->
  let w' := start fails now w in
  profiler w' = profiler w /\ engines w' = engines w /\
  exists posts,
    trace w' = trace w ++ [Connect] ++ posts ++ [Callback true (engines w)] /\
    only_posts [Profiler_setSamplingInterval; Profiler_enable; Profiler_start]
      posts.
Proof.
  intros Hsel Hfail. unfold start.
  destruct (Z.eqb_spec (selectedProfiles (profiler w)) 0) as [Hz|_].
  { rewrite Hz in Hsel. done. }
  pose proof (maybeStartCpu_spec fails (did Connect w)) as H1. cbv zeta in H1.
  destruct (_maybeStartCpuProfiler fails (did Connect w)) as [err1 w1].
  simpl in H1. rewrite Hsel, Hfail in H1. simpl in H1.
  destruct H1 as (-> & Hp1 & He1 & a1 & Ht1 & Ha1). simpl in He1.
  unfold invoke, did. simpl. rewrite Hp1, He1. split; [done|]. split; [done|].
  exists a1. split; [|done]. rewrite Ht1, <- !app_assoc. done.
Qed.

Lemma inspector_cpu_start_failure_witness :
  profiler (start cpu_enable_fails 1000 inspector_new) = profiler inspector_new /\
  engines (start cpu_enable_fails 1000 inspector_new) = mkEngines false false /\
  last (trace (start cpu_enable_fails 1000 inspector_new))
  = Some (Callback true (mkEngines false false)).
Proof.
  destruct (inspector_cpu_start_failure cpu_enable_fails 1000 inspector_new)
    as (Hp & He & posts & Htrace & _); [reflexivity..|].
  split; [exact Hp|]. split; [exact He|].
  rewrite Htrace, !app_assoc. apply last_snoc.
Defined.

(** X17. When the session rejects nothing and a type is selected, [start] of
    the inspector profiler sets the selected engines running and their timers
    and calls the callback once, last, without an error; a [stop] after it
    stops the selected engines again, leaves no timer set, keeps the harvest
    sequence number and calls its callback once, last, without an error. *)
Theorem inspector_start_stop_round_trip fails now w :
  (forall m, fails m = false) ->
  selectedProfiles (profiler w) <> 0 ->
  let cpu := selected (selectedProfiles (profiler w)) PROFILING_TYPE_CPU in
  let heap := selected (selectedProfiles (profiler w)) PROFILING_TYPE_HEAP in
  let w1 := start fails now w in
  let w2 := stop fails true w1 in
  engines w1 = mkEngines (cpu_running (engines w) || cpu)
                 (heap_running (engines w) || heap) /\
  cpuTimer (profiler w1) = (cpuTimer (profiler w) || cpu) /\
  heapTimer (profiler w1) = (heapTimer (profiler w) || heap) /\
  callbacks (trace w1) = callbacks (trace w) ++ [(false, engines w1)] /\
  last (trace w1) = Some (Callback false (engines w1)) /\
  engines w2 = mkEngines (cpu_running (engines w) && negb cpu)
                 (heap_running (engines w) && negb heap) /\
  cpuTimer (profiler w2) = false /\ heapTimer (profiler w2) = false /\
  harvestSeq (profiler w2) = harvestSeq (profiler w) /\
  callbacks (trace w2) = callbacks (trace w1) ++ [(false, engines w2)] /\
  last (trace w2) = Some (Callback false (engines w2)).
Proof.
  intros Hok Hnz cpu heap w1 w2. subst cpu heap.
  set (cpu := selected (selectedProfiles (profiler w)) PROFILING_TYPE_CPU).
  set (heap := selected (selectedProfiles (profiler w)) PROFILING_TYPE_HEAP).
  assert (engines w1 = mkEngines (cpu_running (engines w) || cpu)
                         (heap_running (engines w) || heap) /\
          cpuTimer (profiler w1) = (cpuTimer (profiler w) || cpu) /\
          heapTimer (profiler w1) = (heapTimer (profiler w) || heap) /\
          harvestSeq (profiler w1) = harvestSeq (profiler w) /\
          selectedProfiles (profiler w1) = selectedProfiles (profiler w) /\
          callbacks (trace w1) = callbacks (trace w) ++ [(false, engines w1)] /\
          last (trace w1) = Some (Callback false (engines w1)))
    as (He1 & Hc1 & Hh1 & Hs1 & Hsel1 & Hcb1 & Hlast1).
  { subst w1. unfold start.
    destruct (Z.eqb_spec (selectedProfiles (profiler w)) 0) as [|_]; [done|].
    pose proof (maybeStartCpu_spec fails (did Connect w)) as H1. cbv zeta in H1.
    destruct (_maybeStartCpuProfiler fails (did Connect w)) as [err1 w1].
    simpl in H1. rewrite !Hok in H1. rewrite andb_false_r in H1. simpl in H1.
    destruct H1 as (-> & Hp1 & He1 & a1 & Ht1 & Ha1).
    pose proof (maybeStartHeap_spec fails now w1) as H2. cbv zeta in H2.
    destruct (_maybeStartHeapProfiler fails now w1) as [err2 w2'].
    simpl in H2. rewrite !Hok in H2. rewrite andb_false_r in H2. simpl in H2.
    destruct H2 as (-> & Hp2 & He2 & a2 & Ht2 & Ha2).
    rewrite Hp1 in Hp2, He2. rewrite He1 in He2. rewrite !andb_true_r in *.
    fold cpu in He1, He2. fold heap in Hp2, He2.
    assert (selectedProfiles (profiler w2') = selectedProfiles (profiler w) /\
            cpuTimer (profiler w2') = cpuTimer (profiler w) /\
            heapTimer (profiler w2') = heapTimer (profiler w) /\
            harvestSeq (profiler w2') = harvestSeq (profiler w))
      as (Hsel2 & Hc2 & Hh2 & Hs2) by (rewrite Hp2; by destruct heap).
    destruct (scheduleHarvests_spec w2')
      as (He & Hs & Hsel & _ & Hc & Hh & Ht).
    rewrite Hsel2 in Hc, Hh, Ht. fold cpu heap in Hc, Hh, Ht.
    unfold invoke, did. simpl.
    rewrite He, Hs, Hsel, Hc, Hh, Ht, He2, Hsel2, Hc2, Hh2, Hs2.
    rewrite Ht2, Ht1, !callbacks_app. simpl.
    rewrite (only_posts_callbacks _ _ Ha1), (only_posts_callbacks _ _ Ha2).
    rewrite last_snoc. clearbody cpu heap.
    destruct cpu, heap, (engines w) as [[] []]; simpl;
      rewrite ?app_nil_r, ?orb_true_r, ?orb_false_r; repeat split; done. }
  destruct (stop_spec fails true w1) as (Hp2 & He2 & a3 & a4 & Ht & Ha3 & Ha4).
  fold w2 in Hp2, He2, Ht. rewrite !Hok, Hsel1 in He2. fold cpu heap in He2.
  rewrite He1 in He2. simpl in He2. rewrite !andb_true_r in He2.
  split; [done|]. split; [done|]. split; [done|]. split; [done|].
  split; [done|]. split.
  { rewrite He2. clearbody cpu heap.
    by destruct cpu, heap, (engines w) as [[] []]. }
  rewrite Hp2. simpl. split; [done|]. split; [done|]. split; [done|]. split.
  - rewrite Ht, !callbacks_app. simpl.
    by rewrite (only_posts_callbacks _ _ Ha3), (only_posts_callbacks _ _ Ha4).
  - rewrite Ht, !app_assoc. apply last_snoc.
Qed.

Lemma inspector_start_stop_round_trip_witness :
  engines inspector_started = mkEngines true true /\
  engines (stop (λ _, false) true inspector_started) = mkEngines false false /\
  harvestSeq (profiler (stop (λ _, false) true inspector_started)) = 0 /\
  last (trace (stop (λ _, false) true inspector_started))
  = Some (Callback false (mkEngines false false)).
Proof.
  destruct (inspector_start_stop_round_trip (λ _, false) 1000 inspector_new)
    as (He1 & _ & _ & _ & _ & He2 & _ & _ & Hseq & _ & Hlast);
    [reflexivity|discriminate|].
  split; [exact He1|]. split; [exact He2|]. split; [exact Hseq|].
  unfold inspector_started. rewrite Hlast. by rewrite He2.
Defined.

Lemma existsb_is_type_false name types :
  (forall t, t ∈ types -> toLowerCase t <> name) ->
  existsb (is_type name) types = false.
Proof.
  induction types as [|t ts IH]; intros Hname; [done|].
  simpl. rewrite IH by (intros t' Ht'; apply Hname; by right).
  unfold is_type. rewrite orb_false_r. apply String.eqb_neq, Hname. left.
Qed.

(** X18. A profiler of the inspector variant built from a configuration in
    which no type is cpu or heap has nothing selected; its [start] does
    nothing, so it never has a session, and its [stop] clears the two timers
    and then ends in a TypeError at the disconnection of the session: the
    callback given to [stop] is never called. *)
Theorem unselected_profiler_stop_throws config p fails now callback :
  new_Profiler (Some config) = Some p ->
  (forall t, t ∈ default [] (Config.types config) ->
     toLowerCase t <> "cpu" /\ toLowerCase t <> "heap") ->
  let w0 := mkWorld p (mkEngines false false) [] in
  let w1 := start fails now w0 in
  let session := session_after_start false w0 in
  selectedProfiles p = 0 /\ w1 = w0 /\ session = false /\
  trace (stop_session session fails callback w1)
  = [ClearInterval PROFILING_TYPE_CPU; ClearInterval PROFILING_TYPE_HEAP;
     UncaughtTypeError].
Proof.
  intros Hp Htypes. simpl in Hp. simplify_eq.
  assert (_parseProfilingTypes (Config.types config) = 0) as Hz.
  { rewrite parseProfilingTypes_bits.
    pose proof (existsb_is_type_false) as Hnone.
    rewrite !Hnone; [done|intros t Ht; by apply Htypes..]. }
  simpl. unfold start, session_after_start, stop_session, stop_without_session.
  simpl. rewrite Hz. simpl. done.
Qed.

Lemma unselected_profiler_stop_throws_witness :
  exists p,
    new_Profiler (Some unknown_type_config) = Some p /\
    selectedProfiles p = 0 /\
    let w0 := mkWorld p (mkEngines false false) [] in
    trace (stop_session (session_after_start false w0) (λ _, false) true
             (start (λ _, false) 1000 w0))
    = [ClearInterval PROFILING_TYPE_CPU; ClearInterval PROFILING_TYPE_HEAP;
       UncaughtTypeError].
Proof.
  assert (forall t, t ∈ default [] (Config.types unknown_type_config) ->
            toLowerCase t <> "cpu" /\ toLowerCase t <> "heap") as Htypes.
  { intros t Ht. inversion_clear Ht as [|? ? ? Ht']; [|inversion Ht'].
    split; discriminate. }
  destruct (unselected_profiler_stop_throws unknown_type_config _
              (λ _, false) 1000 true eq_refl Htypes)
    as (Hsel & _ & _ & Htrace).
  eexists. split; [reflexivity|]. split; [exact Hsel|exact Htrace].
Defined.

End InspectorLifecycle.

(** ** The harvests of the inspector profiler *)

Section InspectorHarvests.
Import Inspector.

(** X19. A CPU harvest of the inspector profiler to which the engine hands a
    profile whose parent links end completes: it posts [Profiler.stop],
    records the events of the marshaller for the current harvest sequence
    number, one per sample and in their order, and posts [Profiler.start]
    again. When the restart is rejected the error is logged, the CPU engine
    stays stopped and the sequence number is kept; otherwise the number is
    incremented. The timers are not touched. *)
Theorem cpu_harvest_bracket env profile w :
  cpu_profile env = Some profile ->
  cpu_walks_end profile ->
  exists w' events,
    _collectCpuSamples env w = Some w' /\
    _marshalCpuProfileToEvents (harvestSeq (profiler w)) profile = Some events /\
    length events = length (samples profile) /\
    trace w'
    = trace w ++ [Post Profiler_stop false]
      ++ (RecordCustomEvent "ProfileCPU" <$> events)
      ++ [Post Profiler_start (restart_fails env)]
      ++ (if restart_fails env then [LogError] else []) /\
    engines w'
    = mkEngines (negb (restart_fails env)) (heap_running (engines w)) /\
    harvestSeq (profiler w')
    = harvestSeq (profiler w) + (if restart_fails env then 0 else 1) /\
    cpuTimer (profiler w') = cpuTimer (profiler w) /\
    heapTimer (profiler w') = heapTimer (profiler w).
Proof.
  intros Hprofile Hfin.
  destruct (cpu_marshal_spec (harvestSeq (profiler w)) profile Hfin)
    as (events & Hev & Hlen & _).
  unfold _collectCpuSamples. rewrite Hprofile. simpl. rewrite Hev. simpl.
  rewrite record_events_run. unfold post. simpl.
  destruct (restart_fails env); simpl; eexists _, events;
    (split; [reflexivity|]); (split; [done|]); (split; [done|]); simpl;
    rewrite <- ?app_assoc; simpl; rewrite ?app_nil_r, ?Z.add_0_r; done.
Qed.

Lemma cpu_harvest_bracket_witness :
  exists w',
    _collectCpuSamples inspector_ok inspector_started = Some w' /\
    engines w' = mkEngines true true /\
    harvestSeq (profiler w') = 1 /\
    cpuTimer (profiler w') = true /\
    last (trace w') = Some (Post Profiler_start false).
Proof.
  destruct (cpu_harvest_bracket inspector_ok (sample_cpu_profile [5; 10; 20])
              inspector_started eq_refl (sample_cpu_profile_walks_end _))
    as (w' & events & Hw & _ & _ & Htrace & He & Hseq & Hcpu & _).
  exists w'. split; [exact Hw|].
  split; [exact He|]. split; [exact Hseq|]. split; [exact Hcpu|].
  rewrite Htrace.
  change (if restart_fails inspector_ok then [LogError] else [])
    with (@nil Effect).
  rewrite app_nil_r, !app_assoc. apply last_snoc.
Defined.

(** X20. A heap harvest of the inspector profiler to which the engine hands a
    profile always completes, with one event per sample after the command that
    fetches the profile. Every event has a thousand times the start of the
    sampling window kept by the profiler as [time_ns], and a thousand times
    the time from that start to the clock reading of its own sample as
    [duration_ns]; after the harvest the window starts at the clock reading
    taken at its end. *)
Theorem heap_harvest_window env profile w :
  heap_profile env = Some profile ->
  exists w' events,
    _collectHeapSamples env w = Some w' /\
    heapSampleStartTime (profiler w') = clock_after env /\
    length events = length (Heap.samples profile) /\
    trace w'
    = trace w ++ [Post HeapProfiler_getSamplingProfile false]
      ++ (RecordCustomEvent "ProfileHeap" <$> events) /\
    forall i e, events !! i = Some e ->
      e !! "time_ns"
        = Some (VInt (heapSampleStartTime (profiler w) * 1000)) /\
      e !! "duration_ns"
        = Some (VInt ((clock env i - heapSampleStartTime (profiler w)) * 1000)).
Proof.
  intros Hprofile. unfold _collectHeapSamples. rewrite Hprofile. simpl.
  destruct (heap_marshal_size (harvestSeq (profiler w))
              (heapSampleStartTime (profiler w)) profile (clock env))
    as (events & Hev & Hlen & _).
  rewrite Hev. simpl. rewrite record_events_run. simpl.
  eexists _, events. split; [done|]. simpl. split; [done|]. split; [done|].
  split; [by rewrite <- app_assoc|].
  intros i e He.
  destruct (heap_marshal_event _ _ _ _ _ _ _ Hev He)
    as (sample & l & _ & _ & _ & Hother).
  rewrite !Hother by (intros; by apply fixed_key_not_location).
  by destruct (heap_event_fixed (harvestSeq (profiler w))
                 (heapSampleStartTime (profiler w)) profile i
                 (inclusive_size (heap_node_map (Heap.head profile))
                    (Heap.nodeId sample)) (clock env i))
    as (_ & _ & _ & ? & ?).
Qed.

Lemma heap_harvest_window_witness :
  exists w',
    _collectHeapSamples inspector_ok inspector_started = Some w' /\
    heapSampleStartTime (profiler w') = 2000.
Proof.
  destruct (heap_harvest_window inspector_ok sample_heap_profile
              inspector_started eq_refl)
    as (w' & events & Hw & Hstart & _).
  exists w'. split; [exact Hw|exact Hstart].
Defined.

End InspectorHarvests.

(** ** The harvests of the pprof profiler *)

(** Unfolding the computations over the world. *)
Ltac run_m :=
  unfold Pprof.take_snapshot, Pprof.write_file, Pprof.close_file,
    Pprof.call_if, Pprof.call, Pprof.update, Pprof.throw, Pprof.this,
    Pprof.when, mbind, Pprof.M_bind, mret, Pprof.M_ret in *;
  simpl in *.

Section PprofHarvests.
Import Pprof.

Lemma recordSamples_not_melt eventType h profile dest :
  dest <> DESTINATION_TYPE_INGEST_MELT ->
  (_recordSamples eventType h profile dest).1 = [].
Proof.
  intros Hdest. unfold _recordSamples.
  destruct (periodType profile) as [pt|]; [|done].
  pose proof (sample_loop_completion eventType profile dest (sample profile) 0
                (mkState (initial_attrs h profile pt) ∅ 0 0)) as H.
  cbv zeta in H. unfold emitted in H.
  destruct (Z.eqb_spec dest DESTINATION_TYPE_INGEST_MELT) as [|_]; [done|].
  destruct (list_find _ _) as [[n s]|]; destruct H as [_ Hlen];
    by apply nil_length_inv.
Qed.

(** What a harvest does to the world, by the destination. *)
Lemma collect_spec t w :
  let p := profiler w in
  let r := collect t w in
  engines r.2 = engines w /\
  (r.1 = Throw -> profiler r.2 = profiler w) /\
  selectedProfiles (profiler r.2) = selectedProfiles p /\
  destination (profiler r.2) = destination p /\
  outputDirectory (profiler r.2) = outputDirectory p /\
  harvestSeq (profiler r.2) = harvestSeq p /\
  exists added,
    trace r.2 = trace w ++ added /\
    (destination p = DESTINATION_TYPE_NIL -> r = (Ok (), w)) /\
    (destination p <> DESTINATION_TYPE_INGEST_MELT ->
     forallb (λ e, negb (is_record e)) added = true) /\
    (destination p <> DESTINATION_TYPE_LOCAL_FILE ->
     profiler r.2 = profiler w /\
     forallb (λ e, negb (touches_file e)) added = true).
Proof.
  destruct t as [env|env]; simpl.
  - unfold _collectCpuSamples. run_m.
    destruct (selected (selectedProfiles (profiler w)) PROFILING_TYPE_CPU);
      simpl.
    2:{ repeat split; try done. exists []. rewrite app_nil_r.
        repeat split; done. }
    destruct (Z.eqb_spec (destination (profiler w)) DESTINATION_TYPE_NIL)
      as [Hnil|Hnil]; simpl.
    { repeat split; try done. exists []. rewrite app_nil_r.
      repeat split; done. }
    destruct (snapshot env) as [profile|]; simpl.
    2:{ repeat split; try done. eexists. split; [done|]. repeat split; done. }
    destruct (Z.eqb_spec (destination (profiler w)) DESTINATION_TYPE_LOCAL_FILE)
      as [Hfile|Hfile]; simpl.
    + destruct (cpuFile (profiler w)), (encode_ok env), (write_ok env),
        (close_ok env), (open_ok env); simpl;
        (repeat split; try done; eexists; rewrite <- ?app_assoc;
         (split; [done|]); repeat split; done).
    + rewrite record_samples_run. simpl.
      repeat split; try done. eexists. rewrite <- app_assoc.
      split; [done|]. split; [done|]. split; [|split; [done|]].
      * intros Hmelt. simpl. by rewrite recordSamples_not_melt.
      * simpl. apply forallb_forall. intros e [ce [<- _]]%in_map_iff.
        by destruct ce.
  - unfold _collectHeapSamples. run_m.
    destruct (selected (selectedProfiles (profiler w)) PROFILING_TYPE_HEAP);
      simpl.
    2:{ repeat split; try done. exists []. rewrite app_nil_r.
        repeat split; done. }
    destruct (Z.eqb_spec (destination (profiler w)) DESTINATION_TYPE_NIL)
      as [Hnil|Hnil]; simpl.
    { repeat split; try done. exists []. rewrite app_nil_r.
      repeat split; done. }
    destruct (snapshot env) as [profile|]; simpl.
    2:{ repeat split; try done. eexists. split; [done|]. repeat split; done. }
    destruct (Z.eqb_spec (destination (profiler w)) DESTINATION_TYPE_LOCAL_FILE)
      as [Hfile|Hfile]; simpl.
    + destruct (heapFile (profiler w)), (encode_ok env), (write_ok env),
        (close_ok env), (open_ok env); simpl;
        (repeat split; try done; eexists; rewrite <- ?app_assoc;
         (split; [done|]); repeat split; done).
    + rewrite record_samples_run. simpl.
      repeat split; try done. eexists. rewrite <- app_assoc.
      split; [done|]. split; [done|]. split; [|split; [done|]].
      * intros Hmelt. simpl. by rewrite recordSamples_not_melt.
      * simpl. apply forallb_forall. intros e [ce [<- _]]%in_map_iff.
        by destruct ce.
Qed.

(** The world after one firing of a timer, from the world after the
    harvest. *)
Lemma fire_world t w :
  (fire t w).2
  = let r := collect t w in
    if succeeds t w
    then mkWorld (set_harvestSeq (harvestSeq (profiler r.2) + 1) (profiler r.2))
           (engines r.2) (trace r.2)
    else mkWorld (profiler r.2) (engines r.2) (trace r.2 ++ [LogError]).
Proof.
  rewrite fire_unfold. unfold succeeds, try_catch, mbind, M_bind.
  by destruct (collect t w) as [[[]|] w'].
Qed.

(** X21. When a harvest of the pprof profiler throws, the timer callback
    leaves the profiler object (the harvest sequence number, the file handles,
    the timers, the destination) and the engines as they were, and the last
    thing it does is to log the error. *)
Theorem failed_harvest_changes_nothing t w :
  succeeds t w = false ->
  profiler (fire t w).2 = profiler w /\
  engines (fire t w).2 = engines w /\
  exists added, trace (fire t w).2 = trace w ++ added ++ [LogError].
Proof.
  intros Hfail. rewrite fire_world. cbv zeta. rewrite Hfail. simpl.
  destruct (collect_spec t w) as (He & Hp & _ & _ & _ & _ & added & Ht & _).
  unfold succeeds in Hfail.
  destruct (collect t w) as [[[]|] w'] eqn:Hc; [done|]. simpl in *.
  split; [by apply Hp|]. split; [done|]. exists added.
  by rewrite Ht, <- app_assoc.
Qed.

Lemma failed_harvest_changes_nothing_witness :
  succeeds (CpuTrigger snapshot_fails) both_engines_started = false /\
  harvestSeq (profiler (fire (CpuTrigger snapshot_fails) both_engines_started).2)
  = 0 /\
  last (trace (fire (CpuTrigger snapshot_fails) both_engines_started).2)
  = Some LogError.
Proof.
  assert (succeeds (CpuTrigger snapshot_fails) both_engines_started = false)
    as Hfails by (vm_compute; reflexivity).
  split; [exact Hfails|].
  destruct (failed_harvest_changes_nothing (CpuTrigger snapshot_fails)
              both_engines_started Hfails) as (Hp & _ & added & Htrace).
  split; [by rewrite Hp|].
  rewrite Htrace, !app_assoc. apply last_snoc.
Defined.

(** X22. A firing of a timer of the pprof profiler only adds to the trace.
    Unless the destination is the ingest of events it records no event; unless
    the destination is the local file it makes no call to the file system or
    to the encoder, failed or not, and keeps the two file handles. *)
Theorem harvest_effects_by_destination t w :
  exists added,
    trace (fire t w).2 = trace w ++ added /\
    (destination (profiler w) <> DESTINATION_TYPE_INGEST_MELT ->
     forallb (λ e, negb (is_record e)) added = true) /\
    (destination (profiler w) <> DESTINATION_TYPE_LOCAL_FILE ->
     forallb (λ e, negb (touches_file e)) added = true /\
     cpuFile (profiler (fire t w).2) = cpuFile (profiler w) /\
     heapFile (profiler (fire t w).2) = heapFile (profiler w)).
Proof.
  rewrite fire_world. cbv zeta.
  destruct (collect_spec t w)
    as (_ & _ & _ & _ & _ & _ & added & Ht & _ & Hrec & Hfile).
  destruct (succeeds t w); simpl.
  - exists added. split; [done|]. split; [done|]. intros Hd.
    destruct (Hfile Hd) as [-> ?]. done.
  - exists (added ++ [LogError]). split; [by rewrite Ht, <- app_assoc|].
    rewrite !forallb_app. simpl. rewrite !andb_true_r. split; [done|].
    intros Hd. destruct (Hfile Hd) as [-> ?]. done.
Qed.

Lemma run_without_destination ts : forall w,
  destination (profiler w) = DESTINATION_TYPE_NIL ->
  run ts w
  = mkWorld (set_harvestSeq (harvestSeq (profiler w) + Z.of_nat (length ts))
               (profiler w)) (engines w) (trace w).
Proof.
  induction ts as [|t ts IH]; intros w Hnil.
  - simpl. rewrite Z.add_0_r. by destruct w as [[] ? ?].
  - change (run (t :: ts) w) with (run ts (fire t w).2).
    rewrite fire_world. cbv zeta.
    destruct (collect_spec t w)
      as (_ & _ & _ & _ & _ & _ & added & _ & Hsame & _).
    unfold succeeds. rewrite (Hsame Hnil). simpl.
    rewrite IH by done. simpl. f_equal. unfold set_harvestSeq. simpl.
    f_equal. lia.
Qed.

Lemma start_keeps env w :
  destination (profiler (start env w).2) = destination (profiler w) /\
  harvestSeq (profiler (start env w).2) = harvestSeq (profiler w).
Proof.
  unfold start, _openLocalFiles, _scheduleHarvests. run_m.
  repeat (simpl;
          match goal with
          | |- context [if ?c then _ else _] => destruct c
          end);
    simpl; by split.
Qed.

Lemma parseDestination_unknown destination :
  (forall d, destination = Some d ->
     toLowerCase d <> "melt" /\ toLowerCase d <> "file") ->
  _parseDestination destination = DESTINATION_TYPE_NIL.
Proof.
  intros Hd. unfold _parseDestination.
  destruct destination as [d|]; [|done].
  destruct (Hd d eq_refl) as [Hmelt Hfile].
  destruct (String.eqb d ""); [done|].
  apply String.eqb_neq in Hmelt, Hfile. by rewrite Hmelt, Hfile.
Qed.

(** X23. A pprof profiler built from a configuration whose destination is
    missing, empty or neither melt nor file in any casing has no destination.
    After its [start], a firing of a timer does nothing but increment the
    harvest sequence number: no engine is asked for a profile, nothing is
    recorded, written or logged, and after [n] firings the number is [n]. *)
Theorem unknown_destination_only_counts config p env ts :
  new_Profiler (Some config) = Some p ->
  (forall d, Config.destination config = Some d ->
     toLowerCase d <> "melt" /\ toLowerCase d <> "file") ->
  let w1 := (start env (mkWorld p (mkEngines false false) [])).2 in
  destination p = DESTINATION_TYPE_NIL /\
  run ts w1
  = mkWorld (set_harvestSeq (Z.of_nat (length ts)) (profiler w1))
      (engines w1) (trace w1).
Proof.
  intros Hp Hd w1. simpl in Hp. simplify_eq. simpl.
  pose proof (parseDestination_unknown _ Hd) as Hnil. split; [done|].
  destruct (start_keeps env
              (mkWorld
                 (mkProfiler 0 (_parseProfilingTypes (Config.types config))
                    (Config.cpu_report_interval config)
                    (Config.heap_report_interval config)
                    (Config.heap_sample_interval_bytes config)
                    (Config.heap_sample_stack_depth config)
                    (_parseDestination (Config.destination config))
                    (Config.output_directory config) None None false false)
                 (mkEngines false false) [])) as [Hdest Hseq].
  fold w1 in Hdest, Hseq. simpl in Hdest, Hseq.
  rewrite run_without_destination by congruence. by rewrite Hseq.
Qed.

Lemma unknown_destination_only_counts_witness :
  exists p,
    new_Profiler (Some otel_config) = Some p /\
    destination p = DESTINATION_TYPE_NIL /\
    let w1 := (start lifecycle_ok (mkWorld p (mkEngines false false) [])).2 in
    harvestSeq (profiler (run [cpu_ok; heap_ok; cpu_ok] w1)) = 3 /\
    trace (run [cpu_ok; heap_ok; cpu_ok] w1) = trace w1.
Proof.
  assert (forall d, Config.destination otel_config = Some d ->
            toLowerCase d <> "melt" /\ toLowerCase d <> "file") as Hdest.
  { intros d [= <-]. split; discriminate. }
  destruct (unknown_destination_only_counts otel_config _ lifecycle_ok
              [cpu_ok; heap_ok; cpu_ok] eq_refl Hdest) as (Hnil & Hrun).
  eexists. split; [reflexivity|]. split; [exact Hnil|].
  cbv zeta. rewrite Hrun. split; reflexivity.
Defined.

End PprofHarvests.

(** ** The local files of the pprof profiler *)

Section LocalFiles.
Import Pprof.

Lemma closed_app t1 t2 : closed (t1 ++ t2) = closed t1 ++ closed t2.
Proof. apply omap_app. Qed.

Lemma files_tracked_fire harvest w :
  files_tracked w -> files_tracked (fire (ok_trigger harvest) w).2.
Proof.
  intros (Hdest & Hperm & Hcpu & Hheap).
  destruct harvest as [[] profile]; unfold ok_trigger; simpl.
  - unfold _harvestCpuSamples, try_catch, _collectCpuSamples. run_m.
    unfold files_tracked, handles in *.
    destruct (selected (selectedProfiles (profiler w)) PROFILING_TYPE_CPU)
      eqn:Hsel; simpl.
    2:{ rewrite Hsel. done. }
    rewrite Hdest. simpl. destruct (Hcpu eq_refl) as [f Hf]. rewrite Hf in *.
    simpl. rewrite Hsel. simpl. split; [done|]. split; [|split; [eauto|done]].
    rewrite !opened_app, !closed_app. simpl. rewrite !app_nil_r.
    rewrite Hperm. simpl. rewrite <- !app_assoc. simpl.
    apply Permutation_app_head, perm_skip.
    symmetry. apply Permutation_cons_append.
  - unfold _harvestHeapSamples, try_catch, _collectHeapSamples. run_m.
    unfold files_tracked, handles in *.
    destruct (selected (selectedProfiles (profiler w)) PROFILING_TYPE_HEAP)
      eqn:Hsel; simpl.
    2:{ rewrite Hsel. done. }
    rewrite Hdest. simpl. destruct (Hheap eq_refl) as [f Hf]. rewrite Hf in *.
    simpl. rewrite Hsel. simpl. split; [done|]. split; [|split; [done|eauto]].
    rewrite !opened_app, !closed_app. simpl. rewrite !app_nil_r.
    rewrite Hperm. simpl. rewrite <- !app_assoc. simpl.
    apply Permutation_app_head. symmetry. apply Permutation_middle.
Qed.

Lemma files_tracked_run harvests : forall w,
  files_tracked w -> files_tracked (run (ok_trigger <$> harvests) w).
Proof.
  induction harvests as [|harvest harvests IH]; intros w Hw; [done|].
  rewrite fmap_cons.
  change (run (ok_trigger harvest :: (ok_trigger <$> harvests)) w)
    with (run (ok_trigger <$> harvests) (fire (ok_trigger harvest) w).2).
  by apply IH, files_tracked_fire.
Qed.

Lemma files_tracked_start sp dir :
  files_tracked
    (start lifecycle_ok (new_world sp DESTINATION_TYPE_LOCAL_FILE dir)).2.
Proof.
  unfold start, _openLocalFiles, _scheduleHarvests, new_world, new_profiler.
  run_m. unfold files_tracked, handles.
  destruct (sp =? 0) eqn:Hz; simpl.
  { apply Z.eqb_eq in Hz as ->. simpl. split; [done|]. split; [done|].
    split; discriminate. }
  destruct (selected sp PROFILING_TYPE_CPU) eqn:Hcpu,
    (selected sp PROFILING_TYPE_HEAP) eqn:Hheap;
    repeat (progress (rewrite ?Hcpu, ?Hheap; simpl));
    (split; [done|]); (split; [done|]); split; eauto; discriminate.
Qed.

Lemma files_tracked_stop w :
  files_tracked w ->
  (stop lifecycle_ok w).1 = Ok () /\
  opened (trace (stop lifecycle_ok w).2) ≡ₚ closed (trace (stop lifecycle_ok w).2).
Proof.
  intros (Hdest & Hperm & Hcpu & Hheap).
  unfold stop, _closeLocalFiles. run_m. unfold handles in Hperm.
  destruct (selected (selectedProfiles (profiler w)) PROFILING_TYPE_CPU)
    eqn:Hselc,
    (selected (selectedProfiles (profiler w)) PROFILING_TYPE_HEAP) eqn:Hselh;
    repeat (progress (rewrite ?Hselc, ?Hselh, ?Hdest; simpl)).
  - destruct (Hcpu eq_refl) as [f Hf], (Hheap eq_refl) as [g Hg].
    rewrite Hf, Hg in *. simpl. split; [done|].
    rewrite !opened_app, !closed_app. simpl. rewrite !app_nil_r.
    by rewrite Hperm, <- ?app_assoc.
  - destruct (Hcpu eq_refl) as [f Hf]. rewrite Hf in *. simpl. split; [done|].
    rewrite !opened_app, !closed_app. simpl. rewrite !app_nil_r.
    by rewrite Hperm, <- ?app_assoc.
  - destruct (Hheap eq_refl) as [g Hg]. rewrite Hg in *. simpl. split; [done|].
    rewrite !opened_app, !closed_app. simpl. rewrite !app_nil_r.
    by rewrite Hperm, <- ?app_assoc.
  - split; [done|]. by rewrite Hperm, !app_nil_r.
Qed.

(** X24. With the local file destination and collaborators that do not fail:
    after [start] and any sequence of harvests of either engine, the files
    opened and not yet closed are exactly the handles that the profiler holds
    for its selected engines; [stop] then returns, and every file that was
    opened has been closed, as many times as it was opened. *)
Theorem local_files_all_closed sp dir harvests :
  let w1 := (start lifecycle_ok
               (new_world sp DESTINATION_TYPE_LOCAL_FILE dir)).2 in
  let w2 := run (ok_trigger <$> harvests) w1 in
  let r := stop lifecycle_ok w2 in
  opened (trace w2) ≡ₚ closed (trace w2) ++ handles (profiler w2) /\
  r.1 = Ok () /\
  opened (trace r.2) ≡ₚ closed (trace r.2).
Proof.
  intros w1 w2 r.
  assert (files_tracked w2) as Hw2
    by apply files_tracked_run, files_tracked_start.
  split; [by destruct Hw2 as (_ & ? & _)|]. by apply files_tracked_stop.
Qed.

End LocalFiles.

(** ** Changing the destination, and stopping before starting *)

Section PprofDestination.
Import Pprof.

(** [_closeLocalFiles] on a profiler with the local file destination: it
    closes the handles of the selected engines, and throws when a handle is
    missing or a close fails; the profiler object is left as it is. *)
Lemma closeLocalFiles_spec env w :
  destination (profiler w) = DESTINATION_TYPE_LOCAL_FILE ->
  let r := _closeLocalFiles env w in
  profiler r.2 = profiler w /\ engines r.2 = engines w /\
  (r.1 = Ok () ->
   closed (trace r.2) = closed (trace w) ++ handles (profiler w) /\
   length (handles (profiler w))
   = ((if selected (selectedProfiles (profiler w)) PROFILING_TYPE_CPU
       then 1 else 0)
      + (if selected (selectedProfiles (profiler w)) PROFILING_TYPE_HEAP
         then 1 else 0))%nat).
Proof.
  intros Hdest. unfold _closeLocalFiles, handles. run_m. rewrite Hdest. simpl.
  destruct (selected (selectedProfiles (profiler w)) PROFILING_TYPE_CPU),
    (selected (selectedProfiles (profiler w)) PROFILING_TYPE_HEAP),
    (cpuFile (profiler w)), (heapFile (profiler w)),
    (close_cpu_ok env), (close_heap_ok env); simpl;
    (split; [done|]); (split; [done|]); intros; try done;
    rewrite ?closed_app; simpl; by rewrite ?app_nil_r, <- ?app_assoc.
Qed.

(** X25. [_setProfileDestination] ignores a destination other than OTEL, MELT
    and NIL, so the local file destination is never set by it. For these three
    it sets the destination, after closing the files of the selected engines
    when the current destination is the local file; when closing throws, the
    profiler object is left as it was. *)
Theorem setProfileDestination_spec env dest w :
  let p := profiler w in
  let r := _setProfileDestination env dest w in
  (accepted_destination dest = false -> r = (Ok (), w)) /\
  (accepted_destination dest = true ->
   destination p <> DESTINATION_TYPE_LOCAL_FILE ->
   r = (Ok (), mkWorld (set_destination dest p) (engines w) (trace w))) /\
  (accepted_destination dest = true ->
   destination p = DESTINATION_TYPE_LOCAL_FILE ->
   match r.1 with
   | Ok _ =>
       profiler r.2 = set_destination dest p /\
       closed (trace r.2) = closed (trace w) ++ handles p
   | Throw => profiler r.2 = p
   end) /\
  (destination (profiler r.2) = DESTINATION_TYPE_LOCAL_FILE ->
   destination p = DESTINATION_TYPE_LOCAL_FILE).
Proof.
  intros p r. subst p r. unfold _setProfileDestination.
  fold (accepted_destination dest).
  destruct (accepted_destination dest) eqn:Hacc.
  2:{ repeat split; try done. }
  assert (dest <> DESTINATION_TYPE_LOCAL_FILE) as Hnot.
  { intros ->. by vm_compute in Hacc. }
  split; [done|].
  destruct (Z.eqb_spec (destination (profiler w)) DESTINATION_TYPE_LOCAL_FILE)
    as [Hfile|Hfile].
  - pose proof (closeLocalFiles_spec env w Hfile) as Hclose. cbv zeta in Hclose.
    unfold mbind, M_bind, this, when. simpl.
    destruct (Z.eqb_spec (destination (profiler w)) DESTINATION_TYPE_LOCAL_FILE)
      as [_|]; [|done].
    destruct (_closeLocalFiles env w) as [[[]|] w1]; simpl in *;
      destruct Hclose as (Hp & He & Hc).
    + split; [done|]. split; [|done]. intros _ _. rewrite Hp.
      split; [done|]. by destruct (Hc eq_refl).
    + split; [done|]. split; [done|]. by rewrite Hp.
  - unfold mbind, M_bind, this, when. simpl.
    destruct (Z.eqb_spec (destination (profiler w)) DESTINATION_TYPE_LOCAL_FILE)
      as [|_]; [done|].
    simpl. split; [done|]. split; [done|]. simpl. done.
Qed.

(** X26. [stop] of a new pprof profiler with the local file destination and
    the heap type alone, called before [start], throws: [heap.stop] and
    [clearInterval] are called, and then the file handle that
    [_closeLocalFiles] wants to close is undefined.  Nothing is closed and no
    engine is left running. *)
Theorem stop_before_start_throws env sp dir :
  selected sp PROFILING_TYPE_CPU = false ->
  selected sp PROFILING_TYPE_HEAP = true ->
  let r := stop env (new_world sp DESTINATION_TYPE_LOCAL_FILE dir) in
  r.1 = Throw /\
  trace r.2 = [HeapStop; ClearInterval PROFILING_TYPE_HEAP] /\
  engines r.2 = mkEngines false false.
Proof.
  intros Hcpu Hheap.
  unfold stop, _closeLocalFiles, new_world, new_profiler. run_m.
  repeat (progress (rewrite ?Hcpu, ?Hheap; simpl)). done.
Qed.

Lemma stop_before_start_throws_witness :
  (stop lifecycle_ok
     (new_world PROFILING_TYPE_HEAP DESTINATION_TYPE_LOCAL_FILE "/tmp")).1
  = Throw /\
  trace (stop lifecycle_ok
           (new_world PROFILING_TYPE_HEAP DESTINATION_TYPE_LOCAL_FILE "/tmp")).2
  = [HeapStop; ClearInterval PROFILING_TYPE_HEAP].
Proof.
  destruct (stop_before_start_throws lifecycle_ok PROFILING_TYPE_HEAP "/tmp"
              eq_refl eq_refl) as (Hthrow & Htrace & _).
  split; [exact Hthrow|exact Htrace].
Defined.

End PprofDestination.

(** ** Starting and stopping the pprof profiler *)

Section PprofStart.
Import Pprof.

(** X27. [start] of the pprof profiler throws exactly when a type is selected
    and a call for a selected engine fails: the call that starts it or, with
    the local file destination, the call that opens its file. When it throws
    nothing is undone and no timer is set: no engine is stopped, no file is
    closed, and the engines started before the failure keep running. *)
Theorem pprof_start_failure_no_rollback env w :
  let p := profiler w in
  let cpu := selected (selectedProfiles p) PROFILING_TYPE_CPU in
  let heap := selected (selectedProfiles p) PROFILING_TYPE_HEAP in
  let file := destination p =? DESTINATION_TYPE_LOCAL_FILE in
  let r := start env w in
  (r.1 = Throw <->
   selectedProfiles p <> 0 /\
   (cpu && negb (time_start_ok env)
    || heap && negb (heap_start_ok env)
    || file && (cpu && negb (open_cpu_ok env)
                || heap && negb (open_heap_ok env))) = true) /\
  (r.1 = Throw ->
   cpuTimer (profiler r.2) = cpuTimer p /\
   heapTimer (profiler r.2) = heapTimer p /\
   (exists added,
      trace r.2 = trace w ++ added /\
      forallb (λ e, negb (undoes e)) added = true) /\
   cpu_running (engines r.2)
   = (cpu_running (engines w) || cpu && time_start_ok env) /\
   heap_running (engines r.2)
   = (heap_running (engines w)
      || heap && heap_start_ok env && (negb cpu || time_start_ok env))).
Proof.
  intros p cpu heap file r. subst p cpu heap file r.
  unfold start, _openLocalFiles, _scheduleHarvests. run_m.
  destruct (Z.eqb_spec (selectedProfiles (profiler w)) 0) as [Hz|Hz]; simpl.
  { split; [split; [done|by intros [? _]]|done]. }
  destruct (selected (selectedProfiles (profiler w)) PROFILING_TYPE_CPU)
    eqn:Hcpu,
    (selected (selectedProfiles (profiler w)) PROFILING_TYPE_HEAP) eqn:Hheap,
    (destination (profiler w) =? DESTINATION_TYPE_LOCAL_FILE) eqn:Hd,
    (time_start_ok env), (heap_start_ok env), (open_cpu_ok env),
    (open_heap_ok env);
    repeat (progress (rewrite ?Hcpu, ?Hheap, ?Hd; simpl));
    rewrite ?orb_true_r, ?orb_false_r;
    (split;
     [split; [intros H; first [done|by split]|intros [_ H]; done]
     |intros H;
      first [done
            |split; [done|]; split; [done|]; split; [|by split];
             eexists; split;
             [first [by rewrite <- ?app_assoc|symmetry; apply app_nil_r]
             |done]]]).
Qed.

(** X28. With collaborators that do not fail, [start] of the pprof profiler
    returns; when a type is selected, the selected engines run and their
    timers are set after it, and a [stop] after it returns, stops the selected
    engines, clears their timers, keeps the harvest sequence number and closes
    exactly the files that [start] opened. *)
Theorem pprof_start_stop_round_trip w :
  let p := profiler w in
  let cpu := selected (selectedProfiles p) PROFILING_TYPE_CPU in
  let heap := selected (selectedProfiles p) PROFILING_TYPE_HEAP in
  let r1 := start lifecycle_ok w in
  let r2 := stop lifecycle_ok r1.2 in
  r1.1 = Ok () /\
  (selectedProfiles p <> 0 ->
   engines r1.2 = mkEngines (cpu_running (engines w) || cpu)
                    (heap_running (engines w) || heap) /\
   cpuTimer (profiler r1.2) = (cpuTimer p || cpu) /\
   heapTimer (profiler r1.2) = (heapTimer p || heap) /\
   r2.1 = Ok () /\
   engines r2.2 = mkEngines (cpu_running (engines w) && negb cpu)
                    (heap_running (engines w) && negb heap) /\
   cpuTimer (profiler r2.2) = (cpuTimer p && negb cpu) /\
   heapTimer (profiler r2.2) = (heapTimer p && negb heap) /\
   harvestSeq (profiler r2.2) = harvestSeq p /\
   exists files,
     opened (trace r2.2) = opened (trace w) ++ files /\
     closed (trace r2.2) = closed (trace w) ++ files).
Proof.
  intros p cpu heap r1 r2. subst p cpu heap r1 r2.
  unfold start, stop, _openLocalFiles, _closeLocalFiles, _scheduleHarvests,
    lifecycle_ok.
  run_m.
  destruct (Z.eqb_spec (selectedProfiles (profiler w)) 0) as [Hz|Hz]; simpl;
    [done|].
  destruct (selected (selectedProfiles (profiler w)) PROFILING_TYPE_CPU)
    eqn:Hcpu,
    (selected (selectedProfiles (profiler w)) PROFILING_TYPE_HEAP) eqn:Hheap,
    (destination (profiler w) =? DESTINATION_TYPE_LOCAL_FILE) eqn:Hd;
    repeat (progress (rewrite ?Hcpu, ?Hheap, ?Hd; simpl));
    rewrite ?orb_true_r, ?orb_false_r, ?andb_true_r, ?andb_false_r;
    (split; [done|]); intros _;
    (split; [by destruct (engines w)|]); (split; [done|]); (split; [done|]);
    (split; [done|]); (split; [by destruct (engines w)|]); (split; [done|]);
    (split; [done|]); (split; [done|]);
    eexists; rewrite ?opened_app, ?closed_app; simpl;
    rewrite <- ?app_assoc; simpl;
    (split; [first [reflexivity|symmetry; apply app_nil_r]
            |first [reflexivity|symmetry; apply app_nil_r]]).
Qed.

End PprofStart.

(** ** The stack attributes of both profilers *)

Section StackLocations.

(** The string that [_locationFromCallFrame] builds. *)
Lemma locationFromCallFrame_named callFrame :
  Inspector._locationFromCallFrame callFrame = named_location callFrame.
Proof.
  unfold Inspector._locationFromCallFrame, named_location, shown_name.
  by destruct (Inspector.functionName callFrame).
Qed.

Lemma named_location_claimed callFrame :
  Inspector.functionName callFrame <> "" ->
  named_location callFrame = claimed_location callFrame.
Proof.
  unfold named_location, claimed_location, shown_name.
  by destruct (Inspector.functionName callFrame).
Qed.

Lemma walk_locations_named (walk : list Inspector.Node) :
  reverse (Inspector.walk_locations walk) = stack_of named_location walk.
Proof.
  unfold Inspector.walk_locations, stack_of. f_equal.
  apply list_fmap_ext. intros _ n _. apply locationFromCallFrame_named.
Qed.

Lemma stack_of_claimed (walk : list Inspector.Node) :
  Forall (λ n, Inspector.functionName (Inspector.callFrame n) <> "") walk ->
  stack_of named_location walk = stack_of claimed_location walk.
Proof.
  intros Hnamed. unfold stack_of. f_equal. apply Forall_fmap_ext_1.
  eapply Forall_impl; [exact Hnamed|].
  intros n Hn. by apply named_location_claimed.
Qed.

(** A walk of [sample_cpu_profile] is the one that the loop finds within
    five steps. *)
Lemma sample_cpu_profile_walk timeDeltas s walk :
  Inspector.parent_chain (Inspector.cpu_node_map (sample_cpu_profile timeDeltas))
    (Inspector.cpu_node_map (sample_cpu_profile timeDeltas) !! s) walk ->
  Inspector.parent_walk 5 (Inspector.cpu_node_map (sample_cpu_profile timeDeltas))
    (Inspector.cpu_node_map (sample_cpu_profile timeDeltas) !! s)
  = Some walk.
Proof.
  intros Hwalk. apply parent_walk_complete; [done|].
  apply cpu_chain_length in Hwalk.
  assert (size (Inspector.cpu_node_map (sample_cpu_profile timeDeltas)) = 4%nat)
    as Hsize by (vm_compute; reflexivity).
  lia.
Qed.

(** What the marshaller writes at [location.m]: the entry of the stack of the
    walk, with the name that [_locationFromCallFrame] gives. *)
Lemma cpu_marshal_stack harvestSeq profile events i s e :
  Inspector._marshalCpuProfileToEvents harvestSeq profile = Some events ->
  Inspector.samples profile !! i = Some s ->
  events !! i = Some e ->
  exists walk,
    Inspector.parent_chain (Inspector.cpu_node_map profile)
      (Inspector.cpu_node_map profile !! s) walk /\
    forall m, e !! location_key m = VStr <$> stack_of named_location walk !! m.
Proof.
  intros Hev Hs He.
  assert (cpu_walks_end profile) as Hfin
    by (by eapply cpu_sample_loop_walks_end).
  destruct (cpu_marshal_spec harvestSeq profile Hfin)
    as (events' & Hev' & _ & Hspec).
  assert (events' = events) as -> by congruence.
  destruct (Hspec i s Hs) as (e' & He' & Hadd).
  assert (e' = e) as -> by congruence.
  apply addLocation_inv in Hadd as (walk & Hwalk & Hloc & Hother).
  exists walk. split; [done|]. intros m.
  rewrite <- walk_locations_named.
  destruct (decide (m < length walk)%nat) as [Hm|Hm]; [by apply Hloc|].
  rewrite Hother.
  - rewrite cpu_event_location. symmetry. apply fmap_None, lookup_ge_None_2.
    unfold Inspector.walk_locations. rewrite length_reverse, length_fmap. lia.
  - intros m' Hm' Heq%location_key_inj. lia.
Qed.

(** C3, as the code has it.  In the inspector profiler, the [location.N]
    attributes of the event of a sample of a linked CPU profile are the
    strings of the walk from the sample's node to the root along the parent
    links, reversed: [location.0] is the root, the highest index is the
    sample's own node, every index below the depth of the walk is present
    and no other is.  The string of a node is [name:lineNumber], where the
    name is [(unknown)] for a function without a name and the function name
    otherwise; so it is the [functionName:lineNumber] of the specification
    when every function of the walk has a name.  In the pprof profiler,
    which has no parent links, [location.j] is the frame of entry [j] of the
    location ids of the sample, in the order of the sample and not reversed,
    and it is absent when the profile has no location with the id or the
    location has no line. *)
Theorem stack_locations :
  (forall harvestSeq profile,
     cpu_walks_end profile ->
     exists events,
       Inspector._marshalCpuProfileToEvents harvestSeq profile = Some events /\
       length events = length (Inspector.samples profile) /\
       forall i s e,
         Inspector.samples profile !! i = Some s -> events !! i = Some e ->
         exists walk,
           Inspector.parent_chain (Inspector.cpu_node_map profile)
             (Inspector.cpu_node_map profile !! s) walk /\
           (forall m, e !! location_key m
                      = VStr <$> stack_of named_location walk !! m) /\
           (forall m, is_Some (e !! location_key m) <-> (m < length walk)%nat) /\
           (Forall (λ n, Inspector.functionName (Inspector.callFrame n) <> "")
                   walk ->
            forall m, e !! location_key m
                      = VStr <$> stack_of claimed_location walk !! m)) /\
  (forall eventType harvestSeq profile destination i ty e s,
     (Pprof._recordSamples eventType harvestSeq profile destination).1 !! i
       = Some (ty, e) ->
     Pprof.sample profile !! i = Some s ->
     forall j, e !! location_key j = VStr <$> frame_at profile s j).
Proof.
  split.
  - intros harvestSeq profile Hfin.
    destruct (cpu_marshal_spec harvestSeq profile Hfin)
      as (events & Hev & Hlen & _).
    exists events. split; [done|]. split; [done|].
    intros i s e Hs He.
    destruct (cpu_marshal_stack harvestSeq profile events i s e Hev Hs He)
      as (walk & Hwalk & Hloc).
    exists walk. split; [done|]. split; [done|]. split.
    + intros m. rewrite Hloc, fmap_is_Some, lookup_lt_is_Some.
      unfold stack_of. by rewrite length_reverse, length_fmap.
    + intros Hnamed m. by rewrite Hloc, stack_of_claimed.
  - intros eventType harvestSeq profile destination i ty e s He Hs.
    destruct (recordSamples_inv (locations_exact profile) eventType harvestSeq
                profile destination i ty e
                (locations_exact_initial harvestSeq profile)
                (locations_exact_step profile) He)
      as (_ & _ & st' & (_ & _ & _ & Hexact) & ->).
    by apply (Hexact i s).
Qed.

Lemma stack_locations_witness :
  (exists events e0 e1,
     Inspector._marshalCpuProfileToEvents 0 (sample_cpu_profile [5; 10; 20])
       = Some events /\
     events !! 0%nat = Some e0 /\ events !! 1%nat = Some e1 /\
     (e0 !! location_key 0, e0 !! location_key 1, e0 !! location_key 2,
      e0 !! location_key 3)
     = (Some (VStr "root:0"), Some (VStr "foo:10"), Some (VStr "bar:22"),
        None) /\
     (e1 !! location_key 0, e1 !! location_key 1, e1 !! location_key 2)
     = (Some (VStr "root:0"), Some (VStr "(unknown):7"), None)) /\
  (exists e,
     (Pprof._recordSamples "ProfileCPU" 0 sample_pprof_profile
        Pprof.DESTINATION_TYPE_INGEST_MELT).1 !! 0%nat
       = Some ("ProfileCPU", e) /\
     (e !! location_key 0, e !! location_key 1, e !! location_key 2,
      e !! location_key 3)
     = (Some (VStr "main:10"), Some (VStr "work:20"),
        Some (VStr "(unknown):30"), None)).
Proof.
  destruct stack_locations as [Hcpu Hpprof]. split.
  - destruct (Hcpu 0 (sample_cpu_profile [5; 10; 20])
                (sample_cpu_profile_walks_end _)) as (events & Hev & Hlen & Hloc).
    destruct events as [|e0 [|e1 events]]; [done..|].
    exists (e0 :: e1 :: events), e0, e1.
    split; [exact Hev|]. split; [reflexivity|]. split; [reflexivity|].
    clear Hev Hlen.
    destruct (Hloc 0%nat 4 e0 eq_refl eq_refl) as (walk0 & Hwalk0 & Hloc0 & _).
    destruct (Hloc 1%nat 3 e1 eq_refl eq_refl) as (walk1 & Hwalk1 & Hloc1 & _).
    apply sample_cpu_profile_walk in Hwalk0, Hwalk1.
    vm_compute in Hwalk0. vm_compute in Hwalk1.
    injection Hwalk0 as <-. injection Hwalk1 as <-.
    rewrite !Hloc0, !Hloc1. vm_compute. split; reflexivity.
  - destruct (recordSamples_complete "ProfileCPU" 0 sample_pprof_profile
                (Pprof.ValueType.mk 3 4) eq_refl) as (calls & Hcalls & Hlen).
    { repeat constructor. }
    destruct calls as [|[ty e] calls]; [done|].
    assert ((Pprof._recordSamples "ProfileCPU" 0 sample_pprof_profile
               Pprof.DESTINATION_TYPE_INGEST_MELT).1 !! 0%nat = Some (ty, e))
      as He by (by rewrite Hcalls).
    pose proof (Hpprof "ProfileCPU" 0 sample_pprof_profile
                  Pprof.DESTINATION_TYPE_INGEST_MELT 0%nat ty e
                  (Pprof.Sample.mk [1; 2; 3] [10; 20]) He eq_refl) as Hloc.
    destruct (recordSamples_inv (λ _ _, True) "ProfileCPU" 0
                sample_pprof_profile Pprof.DESTINATION_TYPE_INGEST_MELT 0%nat
                ty e (λ _, I) (λ _ _ _ _ _ _ _, I) He)
      as (-> & _).
    exists e. split; [exact He|]. clear He Hcalls Hlen.
    rewrite !Hloc. vm_compute. reflexivity.
Defined.

(** The claim as the specification words it fails in both profilers.  The
    second sample of [sample_cpu_profile] sits at a function without a name:
    its event has [(unknown):7] where the claim wants [:7].  The last sample
    of [sample_pprof_profile] has the stack [9; 1] and the profile has no
    location 9: its event has a [location.1] and no [location.0]. *)
Lemma unnamed_frame_and_gap :
  ~ claimed_cpu_stack /\ ~ claimed_pprof_stack.
Proof.
  split.
  - intros Hclaim.
    destruct (cpu_marshal_spec 0 (sample_cpu_profile [5; 10; 20])
                (sample_cpu_profile_walks_end _)) as (events & Hev & Hlen & _).
    destruct events as [|e0 [|e events]]; [done..|].
    destruct (cpu_marshal_stack 0 (sample_cpu_profile [5; 10; 20])
                (e0 :: e :: events) 1%nat 3 e Hev eq_refl eq_refl)
      as (walk & Hwalk & Hloc).
    pose proof (Hclaim 0 (sample_cpu_profile [5; 10; 20]) (e0 :: e :: events)
                  1%nat 3 e walk Hev eq_refl eq_refl Hwalk 1%nat) as Hclaimed.
    clear Hev Hlen Hclaim.
    apply sample_cpu_profile_walk in Hwalk. vm_compute in Hwalk.
    injection Hwalk as <-.
    rewrite Hloc in Hclaimed. vm_compute in Hclaimed. discriminate.
  - intros Hclaim.
    destruct (recordSamples_complete "ProfileCPU" 0 sample_pprof_profile
                (Pprof.ValueType.mk 3 4) eq_refl) as (calls & Hcalls & Hlen).
    { repeat constructor. }
    destruct calls as [|c0 [|c1 [|[ty e] calls]]]; [done..|].
    assert ((Pprof._recordSamples "ProfileCPU" 0 sample_pprof_profile
               Pprof.DESTINATION_TYPE_INGEST_MELT).1 !! 2%nat = Some (ty, e))
      as He by (by rewrite Hcalls).
    destruct (Hclaim "ProfileCPU" 0 sample_pprof_profile
                Pprof.DESTINATION_TYPE_INGEST_MELT 2%nat ty e
                (Pprof.Sample.mk [9; 1] [5; 6]) He eq_refl 0%nat) as [x Hx];
      [simpl; lia|].
    destruct (recordSamples_inv (locations_exact sample_pprof_profile)
                "ProfileCPU" 0 sample_pprof_profile
                Pprof.DESTINATION_TYPE_INGEST_MELT 2%nat ty e
                (locations_exact_initial 0 sample_pprof_profile)
                (locations_exact_step sample_pprof_profile) He)
      as (_ & _ & st' & (_ & _ & _ & Hexact) & ->).
    clear He Hcalls Hlen Hclaim.
    rewrite (Hexact 2%nat (Pprof.Sample.mk [9; 1] [5; 6]) eq_refl eq_refl 0%nat)
      in Hx.
    vm_compute in Hx. discriminate.
Qed.

End StackLocations.
